(** * Resume generator: text normaliser, application store, text source

    A shallow embedding of the string-processing and storage code of the
    resume generator, with the properties of its natural-language
    specification stated over it.

    - [Py]      the Python [str] operations the code relies on
    - [Parser]  [PDFCreator._parse_resume_text]         (pdf_generator.py)
    - [Store]   [DataManager]                           (data_manager.py)
    - [Gen]     [AIGenerator.generate_resume] and
                [AIGenerator.generate_cover_letter]     (ai_generator.py)
    - [StoreOps], [Helpers], [Render], [App]: the other operations of the
      three files and the record that main.py stores *)

From Stdlib Require Import ZArith NArith Lia Ascii String.
From stdpp Require Import gmap strings list fin_maps.

Set Default Proof Using "Type".

(* ===================================================================== *)
(** ** Python strings *)
(* ===================================================================== *)

Module Py.

(** A Python [str] is a sequence of Unicode code points. *)
Abbreviation pystr := (list N).

(** An ASCII literal of the source, as a [str]. *)
Definition lit (s : string) : pystr :=
  List.map N_of_ascii (list_ascii_of_string s).

Definition nl : N := 10%N.
Definition space : N := 32%N.

(** The case mappings of the Unicode database are not part of the
    repository.  Outside ASCII they are taken as parameters:
    [upper_full c] is the full upper-case mapping of the code point [c]
    (it may be several code points long) and [lower_text s] is [s.lower()]
    for a string with a non-ASCII code point (lower-casing is contextual
    there). *)
Record casing := Casing {
  upper_full : N -> pystr;
  lower_text : pystr -> pystr
}.

Definition is_ascii (c : N) : bool := (c <? 128)%N.

Definition ascii_upper (c : N) : N :=
  if ((97 <=? c) && (c <=? 122))%N then (c - 32)%N else c.

Definition ascii_lower (c : N) : N :=
  if ((65 <=? c) && (c <=? 90))%N then (c + 32)%N else c.

(** [s.upper()] *)
Definition upper (U : casing) (s : pystr) : pystr :=
  List.flat_map (fun c => if is_ascii c then [ascii_upper c] else upper_full U c) s.

(** [s.lower()] *)
Definition lower (U : casing) (s : pystr) : pystr :=
  if List.forallb is_ascii s then List.map ascii_lower s else lower_text U s.

(** [c.isspace()]: the white space of [str.strip()] without argument. *)
Definition isspace (c : N) : bool :=
  ((9 <=? c) && (c <=? 13) || (28 <=? c) && (c <=? 32)
   || (c =? 133) || (c =? 160) || (c =? 5760)
   || (8192 <=? c) && (c <=? 8202)
   || (c =? 8232) || (c =? 8233) || (c =? 8239) || (c =? 8287)
   || (c =? 12288))%N.

Fixpoint lstrip (s : pystr) : pystr :=
  match s with
  | c :: s' => if isspace c then lstrip s' else s
  | [] => []
  end.

Definition rstrip (s : pystr) : pystr := List.rev (lstrip (List.rev s)).

(** [s.strip()] *)
Definition strip (s : pystr) : pystr := rstrip (lstrip s).

(** [s.startswith(p)] *)
Fixpoint startswith (p s : pystr) : bool :=
  match p, s with
  | [], _ => true
  | a :: p', b :: s' => (a =? b)%N && startswith p' s'
  | _ :: _, [] => false
  end.

(** [s.endswith(p)] *)
Definition endswith (p s : pystr) : bool :=
  startswith (List.rev p) (List.rev s).

(** [sub in s] *)
Fixpoint contains (sub s : pystr) : bool :=
  startswith sub s ||
  match s with
  | [] => false
  | _ :: s' => contains sub s'
  end.

(** [sep.join(parts)] *)
Fixpoint join (sep : pystr) (parts : list pystr) : pystr :=
  match parts with
  | [] => []
  | [p] => p
  | p :: ps => p ++ sep ++ join sep ps
  end.

(** [s.split(sep)] for a non-empty [sep]: the pieces between the
    occurrences of [sep], found from the left without overlap.  The
    result is never empty; it is computed as its first piece and the
    others.  [skip] counts the code points of a matched separator still
    to be passed over. *)
Fixpoint split_from (sep : pystr) (skip : nat) (s : pystr) : pystr * list pystr :=
  match s with
  | [] => ([], [])
  | c :: s' =>
      match skip with
      | S k => split_from sep k s'
      | O =>
          if startswith sep s
          then ([], let '(h, t) := split_from sep (length sep - 1) s' in h :: t)
          else let '(h, t) := split_from sep 0 s' in (c :: h, t)
      end
  end.

Definition split (sep s : pystr) : list pystr :=
  let '(h, t) := split_from sep 0 s in h :: t.

(** [s.split(sep)[0]] and [s.split(sep)[-1]] *)
Definition first_piece (sep s : pystr) : pystr := (split_from sep 0 s).1.

Definition last_piece (sep s : pystr) : pystr :=
  let '(h, t) := split_from sep 0 s in List.last t h.

(** [s.replace(old, new)]: every occurrence of [old], found from the left
    without overlap, is replaced in one pass. *)
Fixpoint replace_from (old new : pystr) (skip : nat) (s : pystr) : pystr :=
  match s with
  | [] => []
  | c :: s' =>
      match skip with
      | S k => replace_from old new k s'
      | O =>
          if startswith old s
          then new ++ replace_from old new (length old - 1) s'
          else c :: replace_from old new 0 s'
      end
  end.

Definition replace (old new s : pystr) : pystr :=
  match old with
  | [] => new ++ List.flat_map (fun c => c :: new) s
  | _ :: _ => replace_from old new 0 s
  end.

(** [s.rfind(sub)]: the last index at which [sub] is found, or [-1]. *)
Fixpoint rfind_from (sub : pystr) (i : Z) (s : pystr) : Z :=
  let here := if startswith sub s then i else (-1)%Z in
  match s with
  | [] => here
  | _ :: s' =>
      let later := rfind_from sub (i + 1) s' in
      if (later <? 0)%Z then here else later
  end.

Definition rfind (sub s : pystr) : Z := rfind_from sub 0 s.

(** [s[:i]], with Python's reading of a negative bound. *)
Definition slice_to (i : Z) (s : pystr) : pystr :=
  let n := Z.of_nat (length s) in
  let j := if (i <? 0)%Z then Z.max 0 (n + i) else i in
  List.firstn (Z.to_nat j) s.

(** [s[i:]] for [0 <= i]. *)
Definition slice_from (i : nat) (s : pystr) : pystr := List.skipn i s.

(** Python truth of a string. *)
Definition truthy (s : pystr) : bool :=
  match s with [] => false | _ :: _ => true end.

(** A table that is right on Latin-1 (code points below 256) and leaves
    every other code point alone; used to run the code on concrete text.
    The two code points above Latin-1 in the texts below, U+201A and
    U+2022, have no case, so the table is right on them too. *)
Definition latin1_upper (c : N) : pystr :=
  if (c =? 181)%N then [924%N]
  else if (c =? 223)%N then [83%N; 83%N]
  else if (c =? 255)%N then [376%N]
  else if ((224 <=? c) && (c <=? 254) && negb (c =? 247))%N then [(c - 32)%N]
  else [c].

Definition latin1_lower (c : N) : N :=
  if ((192 <=? c) && (c <=? 222) && negb (c =? 215))%N then (c + 32)%N
  else ascii_lower c.

Definition latin1 : casing :=
  Casing latin1_upper (List.map latin1_lower).

End Py.

Import Py.

(* ===================================================================== *)
(** ** Results of code that may raise *)
(* ===================================================================== *)

(** The outcome of a Python computation: a value, or a raised [KeyError]
    carrying the missing key. *)
Inductive exc (A : Type) : Type :=
| Ok (a : A)
| KeyError (k : string).

Arguments Ok {A} a.
Arguments KeyError {A} k.

#[global] Instance exc_ret : MRet exc := fun A a => Ok a.

#[global] Instance exc_bind : MBind exc := fun A B f m =>
  match m with
  | Ok a => f a
  | KeyError k => KeyError k
  end.

(** A [for] loop over a list, threading the state through a body that
    may raise. *)
Fixpoint for_each {S X : Type} (body : S -> X -> exc S) (s : S) (xs : list X) : exc S :=
  match xs with
  | [] => Ok s
  | x :: xs' => s' ← body s x; for_each body s' xs'
  end.

(** [d[k]] on a dictionary with string keys. *)
Definition getitem {V : Type} (d : gmap string V) (k : string) : exc V :=
  match d !! k with
  | Some v => Ok v
  | None => KeyError k
  end.

(* ===================================================================== *)
(** ** The normaliser: [PDFCreator._parse_resume_text] *)
(* ===================================================================== *)

Module Parser.

(** The mis-decoded bullet of the source, the three code points
    U+201A U+00C4 U+00A2. *)
Definition artifact : pystr := [8218%N; 196%N; 162%N].

Definition section_keys : list string :=
  ["name"; "contact"; "summary"; "skills"; "experience"; "education";
   "additional"]%string.

(** The dictionary [sections] as first built. *)
Definition initial_sections : gmap string pystr :=
  <["name" := []]> (<["contact" := []]> (<["summary" := []]>
  (<["skills" := []]> (<["experience" := []]> (<["education" := []]>
  (<["additional" := []]> ∅)))))).

(** The local variables of the loop. *)
Record pstate := PState {
  sections : gmap string pystr;
  current_section : option string;
  current_content : list pystr
}.

Definition initial_state : pstate := PState initial_sections None [].

(** Python truth of [current_section] ([None] or a string) and of
    [current_content] (a list). *)
Definition cursor_set (cs : option string) : option string :=
  match cs with
  | Some k => if String.eqb k EmptyString then None else Some k
  | None => None
  end.

(** [if current_section and current_content:
        sections[current_section] = '\n'.join(current_content)] *)
Definition flush (st : pstate) : gmap string pystr :=
  match cursor_set (current_section st), current_content st with
  | Some k, _ :: _ => <[k := join [nl] (current_content st)]> (sections st)
  | _, _ => sections st
  end.

(** A header branch: flush, move the cursor, reset the accumulator. *)
Definition enter (st : pstate) (k : string) : pstate :=
  PState (flush st) (Some k) [].

(** The first test of the loop body, on the trimmed line. *)
Definition skipped (line : pystr) : bool :=
  negb (truthy line) || startswith (lit "}") line || startswith (lit "{") line.

(** The section a header line opens, if the line is one; the tests are
    made on the upper-cased line, in the order of the source. *)
Definition header_of (line_upper : pystr) : option string :=
  if contains (lit "PROFESSIONAL SUMMARY") line_upper then Some "summary"%string
  else if contains (lit "TECHNICAL SKILLS") line_upper
          || contains (lit "SKILLS") line_upper then Some "skills"%string
  else if contains (lit "PROFESSIONAL EXPERIENCE") line_upper
          || contains (lit "EXPERIENCE") line_upper then Some "experience"%string
  else if contains (lit "EDUCATION") line_upper then Some "education"%string
  else None.

Definition name_like (line : pystr) : bool :=
  negb (contains (lit "@") line) && negb (contains (lit "http") line).

Definition contact_like (line : pystr) : bool :=
  contains (lit "@") line || contains (lit "|") line
  || (contains (lit "Phone") line || contains (lit "Email") line).

Section WithCasing.

Variable U : casing.

(** The body of [for line in lines]. *)
Definition step (st : pstate) (raw_line : pystr) : exc pstate :=
  let line := strip raw_line in
  if skipped line then Ok st
  else
    match header_of (upper U line) with
    | Some k => Ok (enter st k)
    | None =>
        name ← getitem (sections st) "name";
        if negb (truthy name) && name_like line then
          Ok (PState (<["name" := line]> (sections st))
                     (current_section st) (current_content st))
        else if contact_like line then
          Ok (PState (<["contact" := strip (replace artifact [] line)]> (sections st))
                     (current_section st) (current_content st))
        else
          match cursor_set (current_section st) with
          | Some _ =>
              Ok (PState (sections st) (current_section st)
                         (current_content st ++ [line]))
          | None =>
              extra ← getitem (sections st) "additional";
              Ok (PState (<["additional" := extra ++ line ++ [nl]]> (sections st))
                         (current_section st) (current_content st))
          end
    end.

(** The loop over the lines, then the last flush. *)
Definition parse_lines (lines : list pystr) : exc (gmap string pystr) :=
  st ← for_each step initial_state lines;
  Ok (flush st).

Definition _parse_resume_text (resume_text : pystr) : exc (gmap string pystr) :=
  parse_lines (split [nl] resume_text).

End WithCasing.

End Parser.

(* ===================================================================== *)
(** ** The application store: [DataManager] *)
(* ===================================================================== *)

Module Store.

(** What [json.load] returns.  An object is a Python [dict] with [str]
    keys. *)
#[local] Set Warnings "-register-all".
Inductive json : Type :=
| JNull
| JBool (b : bool)
| JInt (n : Z)
| JFloat (repr : pystr)
| JStr (s : pystr)
| JArr (items : list json)
| JObj (fields : gmap pystr json).
#[local] Set Warnings "register-all".

(** An application record, the [dict] of a JSON object. *)
Abbreviation record := (gmap pystr json).

(** The applications file as the code observes it: absent
    ([os.path.exists] is false), of size zero, holding text that
    [json.load] rejects with [JSONDecodeError], holding content on which
    reading or [json.load] raises another exception (bytes that are no
    text in the encoding of the platform, for one), or holding the text
    of a JSON value.  Writing the file is taken to succeed. *)
Inductive file : Type :=
| Missing
| Empty
| Garbled
| Unreadable
| Holds (v : json).

(** [json.dump(v, f)] on the file opened for writing. *)
Definition dump (v : json) : file := Holds v.

(** [isinstance(item, dict)], with the dictionary when it holds. *)
Definition as_dict (item : json) : option record :=
  match item with
  | JObj fields => Some fields
  | _ => None
  end.

(** [DataManager.get_job_applications]: the list returned and the file
    left behind.  The handler of [JSONDecodeError] writes the empty
    array; the handler of every other exception writes nothing. *)
Definition get_job_applications (f : file) : list record * file :=
  match f with
  | Missing => ([], dump (JArr []))
  | Empty => ([], dump (JArr []))
  | Garbled => ([], dump (JArr []))
  | Unreadable => ([], f)
  | Holds v =>
      let data := match v with JArr items => items | _ => [] end in
      let clean_data := omap as_dict data in
      if negb (length clean_data =? length data)%nat
      then (clean_data, dump (JArr (JObj <$> clean_data)))
      else (clean_data, f)
  end.

(** [DataManager.update_application_status]; [now] is
    [datetime.now().isoformat()]. *)
Definition update_application_status (now : pystr) (f : file)
    (app_index : Z) (new_status : pystr) : bool * file :=
  let '(applications, f1) := get_job_applications f in
  if ((0 <=? app_index) && (app_index <? Z.of_nat (length applications)))%Z then
    let applications' :=
      alter (fun r => <[lit "updated_at" := JStr now]>
                        (<[lit "status" := JStr new_status]> r))
            (Z.to_nat app_index) applications in
    (true, dump (JArr (JObj <$> applications')))
  else (false, f1).

End Store.

(* ===================================================================== *)
(** ** The text source: [AIGenerator] *)
(* ===================================================================== *)

Module Gen.

(** The bullet U+2022 of the templates. *)
Definition bullet : N := 8226%N.

Definition lbrace : N := 123%N.
Definition rbrace : N := 125%N.

(** A profile: the [dict] saved by the profile form, whose values are the
    texts of its fields. *)
Abbreviation profile := (gmap string pystr).

(** [profile.get(key, default)] *)
Definition get (p : profile) (key : string) (default : pystr) : pystr :=
  match p !! key with
  | Some v => v
  | None => default
  end.

Definition pad (n : nat) : pystr := List.repeat space n.

(** [AIGenerator._generate_resume_template] *)
Definition _generate_resume_template (p : profile) (job_description : pystr) : pystr :=
  let name := get p "name" (lit "Your Name") in
  let email := get p "email" (lit "email@example.com") in
  let phone := get p "phone" (lit "Phone") in
  let skills := get p "skills" (lit "Skills not specified") in
  let experience := get p "experience" (lit "Experience not specified") in
  let education := get p "education" (lit "Education not specified") in
  strip (join [nl]
    [ [];
      pad 8 ++ name;
      pad 8 ++ email ++ lit " | " ++ phone;
      [];
      pad 8 ++ lit "PROFESSIONAL SUMMARY";
      pad 8 ++ lit "Experienced professional with skills in " ++ skills ++ lit ". ";
      pad 8 ++ lit "Seeking to leverage expertise in a challenging new role.";
      [];
      pad 8 ++ lit "TECHNICAL SKILLS";
      pad 8 ++ [bullet; space] ++ skills;
      [];
      pad 8 ++ lit "PROFESSIONAL EXPERIENCE";
      pad 8 ++ [bullet; space] ++ experience;
      [];
      pad 8 ++ lit "EDUCATION";
      pad 8 ++ [bullet; space] ++ education;
      pad 8 ]).

(** [AIGenerator._generate_cover_letter_template].  The profile holds
    [skills] as a text, so [', '.join] runs over its code points; the
    default is the one-element list [['Python']]. *)
Definition _generate_cover_letter_template (p : profile)
    (company_name position_title job_description : pystr) : pystr :=
  let name := get p "name" (lit "Your Name") in
  let skills :=
    match p !! "skills"%string with
    | Some s => join (lit ", ") (List.map (fun c => [c]) s)
    | None => join (lit ", ") [lit "Python"]
    end in
  let experience := get p "experience" (lit "several years of experience") in
  strip (join [nl]
    [ [];
      pad 4 ++ lit "Dear Hiring Manager,";
      [];
      pad 4 ++ lit "I am writing to express my interest in the " ++ position_title
        ++ lit " position at " ++ company_name
        ++ lit ". With my background in " ++ skills
        ++ lit ", I am confident in my ability to contribute effectively to your team.";
      [];
      pad 4 ++ lit "My experience includes " ++ experience
        ++ lit ", and I have a proven track record of solving complex problems and delivering high-quality results.";
      [];
      pad 4 ++ lit "Thank you for considering my application. I look forward to the opportunity to discuss how I can contribute to your organization.";
      [];
      pad 4 ++ lit "Sincerely,";
      pad 4 ++ name;
      pad 8 ]).

(** What the call to the completion service does: it raises, or it
    returns the text of the first choice. *)
Inductive reply : Type :=
| Raises
| Completes (text : pystr).

(** The suffix of [lines] from its first line that satisfies [p]
    ([for i, line in enumerate(lines): if p(line): ... lines[i:]; break]). *)
Fixpoint from_first (p : pystr -> bool) (lines : list pystr) : option (list pystr) :=
  match lines with
  | [] => None
  | line :: rest => if p line then Some lines else from_first p rest
  end.

Section WithCasing.

Variable U : casing.

(** Lines 157-165 of ai_generator.py: keep the first piece between code
    fences that holds no code. *)
Definition drop_code (raw_text : pystr) : pystr :=
  if contains (lit "def ") raw_text || contains (lit "```") raw_text
     || contains (lit "print(") raw_text then
    if contains (lit "```") raw_text then
      match List.find
              (fun part => negb (contains (lit "def ") part)
                           && negb (contains (lit "print(") part)
                           && negb (contains (lit "class ") part))
              (split (lit "```") raw_text) with
      | Some part => strip part
      | None => raw_text
      end
    else raw_text
  else raw_text.

(** Lines 185-191: drop what comes before the first real line. *)
Definition drop_preamble (p : profile) (clean_text : pystr) : pystr :=
  if contains [nl] clean_text then
    match from_first
            (fun line => startswith (lit "**") (strip line)
                         || startswith (get p "name" []) (strip line)
                         || contains (lit "Dear") line)
            (split [nl] clean_text) with
    | Some rest => join [nl] rest
    | None => clean_text
    end
  else clean_text.

Definition triggers : list pystr :=
  [lit "this code"; lit "note that"; lit "recommended to use";
   lit "simple implementation"; lit "function"; lit "def "; lit "return "].

(** Lines 193-200: cut at the first trigger word found. *)
Definition drop_trailer (clean_text : pystr) : pystr :=
  match List.find (fun trigger => contains trigger (lower U clean_text)) triggers with
  | Some trigger =>
      let parts := split trigger (lower U clean_text) in
      if (1 <? length parts)%nat
      then strip (slice_to (rfind [nl] (List.hd [] parts)) clean_text)
      else clean_text
  | None => clean_text
  end.

(** The text the resume is rebuilt from.  Lines 167-180 assign
    [clean_text] a value that line 183 replaces by [raw_text.strip()];
    they raise nothing and leave no trace. *)
Definition cleaned (p : profile) (text : pystr) : pystr :=
  let raw_text := drop_code (strip text) in
  strip (strip (drop_trailer (drop_preamble p (strip raw_text)))).

Definition summary_part (clean_text : pystr) : pystr :=
  if contains (lit "Summary:") clean_text
  then strip (first_piece (lit "Skills:") (last_piece (lit "Summary:") clean_text))
  else lit "Summary not available.".

Definition skills_part (clean_text : pystr) : pystr :=
  if contains (lit "Skills:") clean_text
  then replace [bullet] [bullet; space]
         (strip (first_piece (lit "Experience:") (last_piece (lit "Skills:") clean_text)))
  else lit "Skills not available.".

Definition experience_part (clean_text : pystr) : pystr :=
  if contains (lit "Experience:") clean_text
  then replace [bullet] [bullet; space]
         (strip (first_piece (lit "Education:") (last_piece (lit "Experience:") clean_text)))
  else lit "Experience not available.".

Definition education_part (clean_text : pystr) : pystr :=
  if contains (lit "Education:") clean_text
  then strip (first_piece [rbrace] (last_piece (lit "Education:") clean_text))
  else lit "Education not available.".

(** The f-string of lines 216-230. *)
Definition layout (p : profile) (clean_text : pystr) : pystr :=
  let name := get p "name" (lit "Your Name") in
  let email := get p "email" (lit "email@example.com") in
  let phone := get p "phone" (lit "Phone") in
  let location := get p "location" (lit "Location") in
  join [nl]
    [ name;
      pad 12 ++ email ++ lit " | " ++ phone ++ lit " | " ++ location;
      [];
      pad 12 ++ lit "PROFESSIONAL SUMMARY";
      pad 12 ++ summary_part clean_text;
      [];
      pad 12 ++ lit "TECHNICAL SKILLS";
      pad 12 ++ skills_part clean_text;
      [];
      pad 12 ++ lit "PROFESSIONAL EXPERIENCE";
      pad 12 ++ experience_part clean_text;
      [];
      pad 12 ++ lit "EDUCATION";
      pad 12 ++ education_part clean_text;
      pad 12 ].

Definition is_brace (c : N) : bool := (c =? lbrace)%N || (c =? rbrace)%N.

(** Line 233: drop every brace, then trim.  This is the value returned;
    lines 235-272 only reassign [clean_text], which is not read again. *)
Definition formatted_resume (p : profile) (text : pystr) : pystr :=
  strip (List.filter (fun c => negb (is_brace c)) (layout p (cleaned p text))).

(** [AIGenerator.generate_resume]; [api_key] is
    [os.getenv("TOGETHER_API_KEY")] and [r] what the service does when
    called. *)
Definition generate_resume (api_key : option pystr) (r : reply)
    (p : profile) (job_description : pystr) : pystr :=
  match api_key with
  | Some (_ :: _) =>
      match r with
      | Completes text => formatted_resume p text
      | Raises => _generate_resume_template p job_description
      end
  | _ => _generate_resume_template p job_description
  end.

End WithCasing.

(** *** The cover letter *)

Definition closing_signs : list pystr :=
  [lit "Sincerely,"; lit "Best regards,"; lit "Yours truly,"; lit "Kind regards,"].

(** [any(s.startswith(closing) for closing in closing_signs)] *)
Definition is_closing (s : pystr) : bool :=
  List.existsb (fun closing => startswith closing s) closing_signs.

(** Step 5 of [generate_cover_letter]: the lines kept by the loop that
    stops after the line that follows a closing line.  [prev] is
    [final_lines[-2]] of the source, the line appended just before the
    current one. *)
Fixpoint keep_to_closing (closing_found : bool) (prev : option pystr)
    (lines : list pystr) : list pystr :=
  match lines with
  | [] => []
  | line :: rest =>
      if is_closing (strip line) then
        line :: keep_to_closing true (Some line) rest
      else if closing_found
              && match prev with
                 | Some second_last => is_closing (strip second_last) && truthy (strip line)
                 | None => false
                 end
      then [line]
      else line :: keep_to_closing closing_found (Some line) rest
  end.

(** Step 6: the index after the name line that follows the first closing
    line, or the number of lines. *)
Fixpoint end_index (i : nat) (lines : list pystr) : nat :=
  match lines with
  | [] => i
  | line :: rest =>
      if is_closing (strip line) && negb (Nat.eqb (length rest) 0) then i + 2
      else end_index (i + 1) rest
  end.

Definition cover_letter_text (text : pystr) : pystr :=
  let raw_text := strip text in
  let raw_text :=
    if startswith (lit "/*") raw_text then lstrip (slice_from 2 raw_text) else raw_text in
  let raw_text :=
    if endswith (lit "*/") raw_text then rstrip (slice_to (-2) raw_text) else raw_text in
  let raw_text :=
    if contains (lit "```") raw_text then
      match List.find
              (fun part => startswith (lit "Dear") (strip part)
                           || contains (lit "Hiring Manager") part)
              (split (lit "```") raw_text) with
      | Some part => strip part
      | None => raw_text
      end
    else raw_text in
  let cleaned_lines :=
    List.filter
      (fun line => negb (startswith (lit "#") (strip line)
                         && (length (strip line) <? 80)%nat))
      (split [nl] raw_text) in
  let clean_text := strip (join [nl] cleaned_lines) in
  let final_text := strip (join [nl] (keep_to_closing false None (split [nl] clean_text))) in
  if contains (lit "Here is the cover letter") final_text
     || contains (lit "This code defines") final_text
     || contains (lit "Note that") final_text
  then
    let lines := split [nl] final_text in
    strip (join [nl] (List.firstn (end_index 0 lines) lines))
  else final_text.

(** [AIGenerator.generate_cover_letter] *)
Definition generate_cover_letter (api_key : option pystr) (r : reply)
    (p : profile) (company_name position_title job_description : pystr) : pystr :=
  match api_key with
  | Some (_ :: _) =>
      match r with
      | Completes text => cover_letter_text text
      | Raises =>
          _generate_cover_letter_template p company_name position_title job_description
      end
  | _ => _generate_cover_letter_template p company_name position_title job_description
  end.

End Gen.

(* ===================================================================== *)
(** ** The other operations of [DataManager] *)
(* ===================================================================== *)

Module StoreOps.

Import Store.

(** Python truth of a value read from JSON.  A float is given by its
    [repr]; the floats that are false are the two zeros. *)
Definition truthy_json (v : json) : bool :=
  match v with
  | JNull => false
  | JBool b => b
  | JInt n => negb (n =? 0)%Z
  | JFloat r => negb (bool_decide (r = lit "0.0") || bool_decide (r = lit "-0.0"))
  | JStr s => truthy s
  | JArr items => match items with [] => false | _ :: _ => true end
  | JObj fields => negb (Nat.eqb (size fields) 0)
  end.

(** [DataManager._ensure_data_directory], on the profiles file and the
    applications file: each is created when it does not exist. *)
Definition _ensure_data_directory (profiles applications : file) : file * file :=
  (match profiles with Missing => dump (JObj ∅) | _ => profiles end,
   match applications with Missing => dump (JArr []) | _ => applications end).

(** [DataManager.save_user_profile]: the result and the profiles file. *)
Definition save_user_profile (profile_data : record) : bool * file :=
  (true, dump (JObj profile_data)).

(** [DataManager.load_user_profile]: [None] is the [None] of the source,
    returned for a value that is false and when reading raises (no file,
    or content that [open] or [json.load] rejects with any exception). *)
Definition load_user_profile (profiles : file) : option json :=
  match profiles with
  | Holds data => if truthy_json data then Some data else None
  | _ => None
  end.

(** [DataManager.save_job_application] *)
Definition save_job_application (f : file) (application_data : record) : bool * file :=
  let '(applications, _) := get_job_applications f in
  (true, dump (JArr (JObj <$> (applications ++ [application_data])))).

(** [DataManager.delete_application] *)
Definition delete_application (f : file) (app_index : Z) : bool * file :=
  let '(applications, f1) := get_job_applications f in
  if ((0 <=? app_index) && (app_index <? Z.of_nat (length applications)))%Z then
    (true, dump (JArr (JObj <$> delete (Z.to_nat app_index) applications)))
  else (false, f1).

(** The dictionary [stats] as first built. *)
Definition initial_stats (total : Z) : gmap pystr Z :=
  <[lit "total_applications" := total]> (<[lit "pending" := 0%Z]>
  (<[lit "interview" := 0%Z]> (<[lit "rejected" := 0%Z]>
  (<[lit "offered" := 0%Z]> (<[lit "accepted" := 0%Z]> ∅))))).

(** [if status in stats: stats[status] += 1] *)
Definition count_status (stats : gmap pystr Z) (status : pystr) : gmap pystr Z :=
  match stats !! status with
  | Some n => <[status := (n + 1)%Z]> stats
  | None => stats
  end.

Section WithCasing.

Variable U : casing.

(** [app.get(key, default).lower()]: [None] when the value is not a
    string, which has no [lower] ([AttributeError]). *)
Definition lowered_field (app : record) (key default : pystr) : option pystr :=
  match app !! key with
  | None => Some (lower U default)
  | Some (JStr s) => Some (lower U s)
  | Some _ => None
  end.

(** The loop of [get_application_stats]. *)
Fixpoint count_all (stats : gmap pystr Z) (applications : list record)
    : option (gmap pystr Z) :=
  match applications with
  | [] => Some stats
  | app :: rest =>
      match lowered_field app (lit "status") (lit "pending") with
      | Some status => count_all (count_status stats status) rest
      | None => None
      end
  end.

(** [DataManager.get_application_stats]: the dictionary returned ([None]
    when the call raises) and the file the read leaves. *)
Definition get_application_stats (f : file) : option (gmap pystr Z) * file :=
  let '(applications, f1) := get_job_applications f in
  (count_all (initial_stats (Z.of_nat (length applications))) applications, f1).

(** The loop of [search_applications]; both fields are lower-cased before
    the test. *)
Fixpoint search_loop (search_term : pystr) (applications : list record)
    : option (list record) :=
  match applications with
  | [] => Some []
  | app :: rest =>
      match lowered_field app (lit "company_name") [] with
      | None => None
      | Some company =>
          match lowered_field app (lit "position_title") [] with
          | None => None
          | Some position =>
              match search_loop search_term rest with
              | None => None
              | Some results =>
                  if contains search_term company || contains search_term position
                  then Some (app :: results)
                  else Some results
              end
          end
      end
  end.

(** [DataManager.search_applications] *)
Definition search_applications (f : file) (search_term : pystr)
    : option (list record) * file :=
  let '(applications, f1) := get_job_applications f in
  (search_loop (lower U search_term) applications, f1).

End WithCasing.

End StoreOps.

(* ===================================================================== *)
(** ** The helpers of [AIGenerator] *)
(* ===================================================================== *)

Module Helpers.

Import Gen.

Definition common_keywords : list pystr :=
  [lit "python"; lit "javascript"; lit "sql"; lit "react"; lit "node.js";
   lit "aws"; lit "docker"; lit "machine learning"; lit "data analysis";
   lit "project management"; lit "leadership"; lit "communication";
   lit "problem solving"; lit "teamwork"; lit "agile"; lit "scrum"].

Section WithCasing.

Variable U : casing.

(** [AIGenerator._extract_job_keywords] *)
Definition _extract_job_keywords (job_description : pystr) : list pystr :=
  let job_lower := lower U job_description in
  List.firstn 10 (List.filter (fun keyword => contains keyword job_lower) common_keywords).

(** [AIGenerator._format_skills] *)
Definition _format_skills (skills_list job_keywords : list pystr) : pystr :=
  match skills_list with
  | [] => [bullet; space] ++ lit "Technical skills to be specified based on experience"
  | _ :: _ =>
      let relevant skill :=
        List.existsb (fun keyword => contains keyword (lower U skill)) job_keywords in
      let prioritized_skills := List.filter relevant skills_list in
      let other_skills := List.filter (fun skill => negb (relevant skill)) skills_list in
      let all_skills := prioritized_skills ++ other_skills in
      join [nl] (List.map (fun skill => [bullet; space] ++ strip skill)
                          (List.firstn 8 all_skills))
  end.

End WithCasing.

(** The loop of [_format_experience]: blank lines are dropped, a line
    that begins with neither a bullet nor a dash gets a bullet. *)
Definition bulleted (line : pystr) : pystr :=
  if negb (startswith [bullet] line) && negb (startswith (lit "-") line)
  then [bullet; space] ++ strip line
  else strip line.

(** [AIGenerator._format_experience] *)
Definition _format_experience (experience_text : pystr) (job_keywords : list pystr) : pystr :=
  if negb (truthy experience_text) then
    lit "Professional experience details to be added based on background."
  else
    let formatted_lines :=
      List.map bulleted
        (List.filter (fun line => truthy (strip line)) (split [nl] experience_text)) in
    let formatted_experience := join [nl] formatted_lines in
    match job_keywords with
    | [] => formatted_experience
    | _ :: _ =>
        formatted_experience ++ [nl; nl] ++ [bullet; space] ++ lit "Relevant expertise: "
          ++ join (lit ", ") (List.firstn 5 job_keywords)
    end.

Section Questions.

Variable U : casing.

(** [[skill.strip() for skill in skills_text.split(',') if skill.strip()]] *)
Definition skills_of (skills_text : pystr) : list pystr :=
  List.map strip
    (List.filter (fun skill => truthy (strip skill)) (split (lit ",") skills_text)).

(** [skills_list[i % len(skills_list)]], for a list that is not empty. *)
Definition skill_at (skills_list : list pystr) (i : nat) : pystr :=
  List.nth (i mod length skills_list) skills_list [].

(** [AIGenerator.generate_interview_questions]; no step of its body
    raises on a profile whose skills are a text, so the list of the
    [except] branch is never returned. *)
Definition generate_interview_questions (p : profile) (position_title job_description : pystr)
    : list pystr :=
  let skills_list := skills_of (get p "skills" []) in
  let title_lower := lower U position_title in
  let general :=
    [lit "Tell me about yourself and your background in " ++ title_lower ++ lit ".";
     lit "Why are you interested in this " ++ title_lower ++ lit " role?"] in
  let technical :=
    match skills_list with
    | [] => []
    | _ :: _ =>
        [lit "Explain your experience with " ++ skill_at skills_list 0 ++ lit ".";
         lit "How would you approach " ++ (skill_at skills_list 1 ++ lit " implementation")
           ++ lit "?";
         lit "Describe a challenging " ++ (skill_at skills_list 2 ++ lit " project")
           ++ lit " you worked on."]
    end in
  let behavioral :=
    [lit "Describe a time when you had to learn a new "
       ++ List.hd (lit "technology") skills_list ++ lit " quickly.";
     lit "Tell me about a challenging project and how you overcame obstacles.";
     lit "How do you handle tight deadlines and pressure?"] in
  let specific :=
    [lit "What interests you most about this " ++ position_title ++ lit " role?";
     lit "How do you see yourself contributing to our " ++ position_title ++ lit " team?";
     lit "What are your long-term career goals in " ++ title_lower ++ lit "?"] in
  List.firstn 10 (general ++ technical ++ behavioral ++ specific).

End Questions.

End Helpers.

(* ===================================================================== *)
(** ** The stories of [PDFCreator] *)
(* ===================================================================== *)

Module Render.

Import Parser.

(** What the code hands to the layout library: a paragraph with the name
    of its style, a vertical space (its height in hundredths of an inch),
    or the table that holds a section title over a rule.  What the library
    then does with a text is not modelled: a paragraph is data here,
    while the [Paragraph] of the library reads its text as markup when it
    is constructed and raises on markup that is ill formed, which
    [create_resume_pdf] and [create_cover_letter_pdf] raise again.  The
    stories below are the constructor calls of the code, in their order,
    with their arguments. *)
Inductive flowable : Type :=
| Paragraph (text : pystr) (style : string)
| Spacer (hundredths : nat)
| HeaderTable (title : pystr).

(** [PDFCreator._build_header_section] *)
Definition _build_header_section (sections : gmap string pystr)
    (user_profile : Gen.profile) : list flowable :=
  let name :=
    match sections !! "name"%string with
    | Some (c :: n) => c :: n
    | _ => Gen.get user_profile "name" (lit "Your Name")
    end in
  let contact :=
    match sections !! "contact"%string with
    | Some (c :: l) => c :: l
    | _ =>
        Gen.get user_profile "email" (lit "email@example.com") ++ lit " | "
        ++ Gen.get user_profile "phone" (lit "(123) 456-7890") ++ lit " | "
        ++ Gen.get user_profile "location" (lit "City, State")
    end in
  [Paragraph name "CustomTitle"; Paragraph contact "ContactInfo"; Spacer 20].

(** [PDFCreator._format_skills_content] *)
Definition _format_skills_content (content : pystr) : list flowable :=
  List.flat_map
    (fun raw =>
       let line := strip raw in
       if truthy line
          && (startswith artifact line || startswith (lit "-") line
              || contains (lit ":") line)
       then [Paragraph line "BulletPoint"]
       else [])
    (split [nl] content).

Definition role_words : list pystr :=
  [lit "DEVELOPER"; lit "ENGINEER"; lit "ANALYST"; lit "MANAGER"].

Section WithCasing.

Variable U : casing.

(** The test on the first line of a paragraph of experience. *)
Definition is_job_title (first_line : pystr) : bool :=
  contains (lit "|") first_line
  || List.existsb (fun word => contains word (upper U first_line)) role_words.

(** The body of the loop of [_format_experience_content], on one
    paragraph. *)
Definition experience_paragraph (raw_para : pystr) : list flowable :=
  let para := strip raw_para in
  if negb (truthy para) then []
  else
    let lines := split [nl] para in
    let first_line := strip (List.hd [] lines) in
    if is_job_title first_line then
      Paragraph first_line "JobTitle"
      :: List.flat_map
           (fun raw =>
              let line := strip raw in
              if truthy line then
                [Paragraph (if startswith artifact line then line
                            else artifact ++ [space] ++ line) "BulletPoint"]
              else [])
           (List.tl lines)
    else [Paragraph para "BodyText"].

(** [PDFCreator._format_experience_content] *)
Definition _format_experience_content (content : pystr) : list flowable :=
  List.flat_map experience_paragraph (split [nl; nl] content).

(** The last branch of [_format_section], on one paragraph. *)
Definition plain_paragraph (para : pystr) : list flowable :=
  if truthy (strip para) then
    if startswith artifact (strip para) || startswith (lit "-") (strip para) then
      List.flat_map
        (fun line => if truthy (strip line) then [Paragraph (strip line) "BulletPoint"] else [])
        (split [nl] para)
    else [Paragraph (strip para) "BodyText"]
  else [].

(** [PDFCreator._format_section] *)
Definition _format_section (title content : pystr) : list flowable :=
  [HeaderTable title; Spacer 10]
  ++ (if bool_decide (title = lit "TECHNICAL SKILLS") || bool_decide (title = lit "SKILLS")
      then _format_skills_content content
      else if bool_decide (title = lit "PROFESSIONAL EXPERIENCE")
              || bool_decide (title = lit "EXPERIENCE")
      then _format_experience_content content
      else List.flat_map plain_paragraph (split [nl; nl] content))
  ++ [Spacer 15].

Definition section_order : list (string * pystr) :=
  [("summary"%string, lit "PROFESSIONAL SUMMARY");
   ("skills"%string, lit "TECHNICAL SKILLS");
   ("experience"%string, lit "PROFESSIONAL EXPERIENCE");
   ("education"%string, lit "EDUCATION");
   ("additional"%string, lit "ADDITIONAL QUALIFICATIONS")].

(** [sections.get(section_key, '').strip()] *)
Definition section_content (sections : gmap string pystr) (section_key : string) : pystr :=
  strip (match sections !! section_key with Some body => body | None => [] end).

(** [PDFCreator._build_body_sections] *)
Definition _build_body_sections (sections : gmap string pystr) : list flowable :=
  List.flat_map
    (fun '(section_key, section_title) =>
       let content := section_content sections section_key in
       if truthy content && (5 <? length content)%nat
       then _format_section section_title content
       else [])
    section_order.

(** The [story] that [PDFCreator.create_resume_pdf] builds and hands to
    the layout library, its paragraphs taken as data. *)
Definition resume_story (resume_text : pystr) (user_profile : Gen.profile)
    : exc (list flowable) :=
  sections ← _parse_resume_text U resume_text;
  Ok (_build_header_section sections user_profile ++ _build_body_sections sections).

End WithCasing.

(** The [story] that [PDFCreator.create_cover_letter_pdf] builds, its
    paragraphs taken as data; [date_str] is
    [datetime.now().strftime("%B %d, %Y")]. *)
Definition cover_letter_story (date_str cover_letter_text : pystr)
    (user_profile : Gen.profile) : list flowable :=
  [Paragraph (Gen.get user_profile "name" (lit "Your Name")) "CustomTitle";
   Paragraph (Gen.get user_profile "email" (lit "email@example.com") ++ lit " | "
              ++ Gen.get user_profile "phone" (lit "(123) 456-7890") ++ lit " | "
              ++ Gen.get user_profile "location" (lit "City, State")) "ContactInfo";
   Spacer 30;
   Paragraph date_str "BodyText";
   Spacer 20]
  ++ List.flat_map
       (fun para =>
          if truthy (strip para) then [Paragraph (strip para) "BodyText"; Spacer 10] else [])
       (split [nl; nl] cover_letter_text).

End Render.

(* ===================================================================== *)
(** ** The record that main.py stores for a generated document *)
(* ===================================================================== *)

Module App.

Import Store.

(** [job_description[:500] + '...' if len(job_description) > 500
     else job_description] *)
Definition stored_description (job_description : pystr) : pystr :=
  if (500 <? length job_description)%nat
  then List.firstn 500 job_description ++ lit "..."
  else job_description.

(** The [app_data] of the resume page; [now] is
    [datetime.now().isoformat()]. *)
Definition resume_app_data (company_name position_title now job_description : pystr)
    : record :=
  <[lit "company_name" :=
      JStr (if truthy company_name then company_name else lit "Unknown Company")]>
  (<[lit "position_title" :=
       JStr (if truthy position_title then position_title else lit "Unknown Position")]>
  (<[lit "application_date" := JStr now]>
  (<[lit "status" := JStr (lit "pending")]>
  (<[lit "job_description" := JStr (stored_description job_description)]>
  (<[lit "documents_generated" := JArr [JStr (lit "resume")]]> ∅))))).

(** The [app_data] of the cover letter page. *)
Definition cover_letter_app_data (company_name position_title now job_description : pystr)
    : record :=
  <[lit "company_name" := JStr company_name]>
  (<[lit "position_title" := JStr position_title]>
  (<[lit "application_date" := JStr now]>
  (<[lit "status" := JStr (lit "pending")]>
  (<[lit "job_description" := JStr (stored_description job_description)]>
  (<[lit "documents_generated" := JArr [JStr (lit "cover_letter")]]> ∅))))).

End App.

(* ===================================================================== *)
(** ** Vocabulary of the statements *)
(* ===================================================================== *)

Import Parser.

(** The text a returned mapping binds to a key; [None] when the parse
    raised or the key is unbound. *)
Definition field (r : exc (gmap string pystr)) (k : string) : option pystr :=
  match r with
  | Ok m => m !! k
  | KeyError _ => None
  end.

(** Every section key is bound. *)
Definition has_keys (m : gmap string pystr) : Prop :=
  forall k, k ∈ section_keys -> is_Some (m !! k).

(** The sections a header can open. *)
Definition body_keys : list string :=
  ["summary"; "skills"; "experience"; "education"]%string.

(** The cursor is unset or names a section a header opens. *)
Definition body_cursor (cs : option string) : Prop :=
  match cs with
  | Some k => k ∈ body_keys
  | None => True
  end.

(** The invariant of the loop of the normaliser. *)
Definition loop_inv (st : pstate) : Prop :=
  has_keys (sections st) /\ body_cursor (current_section st).

(** A line the loop keeps, that opens no section and holds neither [@]
    nor [http]: a line that is taken as the name while none is set. *)
Definition name_candidate (U : casing) (raw : pystr) : bool :=
  negb (skipped (strip raw))
  && bool_decide (header_of (upper U (strip raw)) = None)
  && name_like (strip raw).

(** A line the loop keeps, that opens no section and is a contact line. *)
Definition contact_line (U : casing) (raw : pystr) : bool :=
  negb (skipped (strip raw))
  && bool_decide (header_of (upper U (strip raw)) = None)
  && contact_like (strip raw).

(** A line the loop keeps, that opens no section and is no contact line:
    once a name is set, a line of the section under the cursor. *)
Definition body_line (U : casing) (raw : pystr) : bool :=
  negb (skipped (strip raw))
  && bool_decide (header_of (upper U (strip raw)) = None)
  && negb (contact_like (strip raw)).

(** The section a line opens: none when the loop skips the line, else
    the section of the header label it holds, if any. *)
Definition opens (U : casing) (raw : pystr) : option string :=
  if skipped (strip raw) then None else header_of (upper U (strip raw)).

(** The lines that follow a block: none, or lines of which the first
    opens a section. *)
Definition header_next (U : casing) (post : list pystr) : Prop :=
  match post with
  | [] => True
  | raw :: _ => is_Some (opens U raw)
  end.

(** A kept line that neither opens a section nor is taken as the name. *)
Definition past_name (U : casing) (st : pstate) (raw : pystr) : Prop :=
  skipped (strip raw) = false /\
  header_of (upper U (strip raw)) = None /\
  exists n, sections st !! "name"%string = Some n /\
            (truthy n = true \/ name_like (strip raw) = false).

(** The rule of the specification for a flush: new lines are appended to
    the content already there, after a line break. *)
Definition merged_per_spec (old new : pystr) : pystr :=
  if truthy old then old ++ [nl] ++ new else new.

(** A canonical document: a name line, a contact line, and the lines of
    the four sections. *)
Record document := Document {
  doc_name : pystr;
  doc_contact : pystr;
  doc_summary : list pystr;
  doc_skills : list pystr;
  doc_experience : list pystr;
  doc_education : list pystr
}.

(** The canonical shape, the one of the template resume and of the resume
    of the API path: name, contact, then after a blank line each fixed
    header followed by the lines of its section. *)
Definition canonical_lines (d : document) : list pystr :=
  [doc_name d; doc_contact d]
  ++ [[]; lit "PROFESSIONAL SUMMARY"] ++ doc_summary d
  ++ [[]; lit "TECHNICAL SKILLS"] ++ doc_skills d
  ++ [[]; lit "PROFESSIONAL EXPERIENCE"] ++ doc_experience d
  ++ [[]; lit "EDUCATION"] ++ doc_education d.

(** A text is the layout of [d] up to the white space around its lines. *)
Definition laid_out (resume_text : pystr) (d : document) : Prop :=
  List.map strip (split [nl] resume_text) = List.map strip (canonical_lines d).

(** The content of a section, up to the white space around its lines. *)
Definition section_text (lines : list pystr) : pystr :=
  join [nl] (List.map strip lines).

(** What [_generate_resume_template] writes for a profile, section by
    section. *)
Definition template_document (p : Gen.profile) : document :=
  let skills := Gen.get p "skills" (lit "Skills not specified") in
  Document
    (Gen.get p "name" (lit "Your Name"))
    (Gen.get p "email" (lit "email@example.com") ++ lit " | " ++ Gen.get p "phone" (lit "Phone"))
    [lit "Experienced professional with skills in " ++ skills ++ lit ". ";
     lit "Seeking to leverage expertise in a challenging new role."]
    [[Gen.bullet; space] ++ skills]
    [[Gen.bullet; space] ++ Gen.get p "experience" (lit "Experience not specified")]
    [[Gen.bullet; space] ++ Gen.get p "education" (lit "Education not specified")].

(** The profile of the self-test of ai_generator.py. *)
Definition test_profile : Gen.profile :=
  <["name"%string := lit "John Doe"]>
  (<["email"%string := lit "john@example.com"]>
  (<["phone"%string := lit "123-456-7890"]>
  (<["location"%string := lit "New York, NY"]>
  (<["current_title"%string := lit "Python Developer"]>
  (<["skills"%string := lit "Python, JavaScript, SQL, React, Docker"]>
  (<["experience"%string :=
       lit "5 years of software development experience focusing on web applications and data analysis"]>
  (<["education"%string := lit "Bachelor's in Computer Science"]> ∅))))))).


(** What the specification says of a status update: the record has its
    status replaced and nothing else. *)
Definition status_only_per_spec (new_status : pystr) (r : Store.record) : Store.record :=
  <[lit "status" := Store.JStr new_status]> r.


(** No credential is configured: the environment variable is unset or
    empty. *)
Definition no_credential (api_key : option pystr) : Prop :=
  api_key = None \/ api_key = Some [].

(** A text without its braces. *)
Definition unbraced (s : pystr) : pystr :=
  List.filter (fun c => negb (Gen.is_brace c)) s.

(** The records a read returns. *)
Definition stored_records (f : Store.file) : list Store.record :=
  (Store.get_job_applications f).1.

(** The number of records whose lower-cased status is [k] (a record
    without a status counts as pending). *)
Definition status_count (U : casing) (k : pystr) (applications : list Store.record) : Z :=
  Z.of_nat (length (List.filter
    (fun app => bool_decide (StoreOps.lowered_field U app (lit "status") (lit "pending") = Some k))
    applications)).

(** The statuses the tracker shows. *)
Definition shown_statuses : list pystr :=
  [lit "pending"; lit "interview"; lit "rejected"; lit "offered"; lit "accepted"].

(** A record whose status, when it has one, is a string. *)
Definition text_status (U : casing) (app : Store.record) : Prop :=
  is_Some (StoreOps.lowered_field U app (lit "status") (lit "pending")).

(** A record whose company name and position title, when it has them,
    are strings. *)
Definition text_names (U : casing) (app : Store.record) : Prop :=
  is_Some (StoreOps.lowered_field U app (lit "company_name") [])
  /\ is_Some (StoreOps.lowered_field U app (lit "position_title") []).

(** The lines of a text, trimmed. *)
Definition trimmed_lines (resume_text : pystr) : list pystr :=
  List.map strip (split [nl] resume_text).

(** A text made of lines among [seen], in their order: each a trimmed
    body line. *)
Definition made_of (U : casing) (seen : list pystr) (body : pystr) : Prop :=
  exists ls, body = join [nl] ls
    /\ sublist ls seen
    /\ Forall (fun l => body_line U l = true /\ strip l = l) ls.

(** What the loop of the normaliser keeps true of the sections a header
    opens and of the lines it has collected. *)
Definition shape_inv (U : casing) (seen : list pystr) (st : pstate) : Prop :=
  (forall k, k ∈ body_keys ->
     forall body, sections st !! k = Some body -> made_of U seen body)
  /\ sublist (current_content st) seen
  /\ Forall (fun l => body_line U l = true /\ strip l = l) (current_content st).

(** The titles of the sections of a story, in its order. *)
Definition titles_of (story : list Render.flowable) : list pystr :=
  List.flat_map
    (fun item => match item with Render.HeaderTable title => [title] | _ => [] end)
    story.

(** The number of paragraphs of a story set as a job title. *)
Definition job_titles (story : list Render.flowable) : nat :=
  length (List.filter
    (fun item =>
       match item with
       | Render.Paragraph _ style => String.eqb style "JobTitle"
       | _ => false
       end)
    story).

(** A skill that holds one of the job keywords, in any letter case. *)
Definition relevant (U : casing) (job_keywords : list pystr) (skill : pystr) : bool :=
  List.existsb (fun keyword => contains keyword (lower U skill)) job_keywords.

(** A line that is not blank. *)
Definition nonblank (line : pystr) : bool := truthy (strip line).

(** A line that begins with the bullet or with a dash. *)
Definition itemised (line : pystr) : bool :=
  startswith [Gen.bullet] line || startswith (lit "-") line.

(** The lines of a completion that the cleaning steps of
    [generate_cover_letter] leave alone: the text is trimmed, has no
    comment wrapper and no code fence, and no line begins with [#]. *)
Definition plain_letter (lines : list pystr) : Prop :=
  Forall (fun l => contains [nl] l = false /\ startswith (lit "#") (strip l) = false) lines
  /\ strip (join [nl] lines) = join [nl] lines
  /\ startswith (lit "/*") (join [nl] lines) = false
  /\ endswith (lit "*/") (join [nl] lines) = false
  /\ contains (lit "```") (join [nl] lines) = false.

(** A text without the sentences that step 6 of [generate_cover_letter]
    looks for. *)
Definition unmarked (text : pystr) : Prop :=
  contains (lit "Here is the cover letter") text = false
  /\ contains (lit "This code defines") text = false
  /\ contains (lit "Note that") text = false.

(** The paragraphs of the template letter. *)
Definition spelled_skills (p : Gen.profile) : pystr :=
  match p !! "skills"%string with
  | Some s => join (lit ", ") (List.map (fun c => [c]) s)
  | None => lit "Python"
  end.

Definition letter_opening (position_title company_name skills : pystr) : pystr :=
  lit "I am writing to express my interest in the " ++ position_title
  ++ lit " position at " ++ company_name
  ++ lit ". With my background in " ++ skills
  ++ lit ", I am confident in my ability to contribute effectively to your team.".

Definition letter_experience (experience : pystr) : pystr :=
  lit "My experience includes " ++ experience
  ++ lit ", and I have a proven track record of solving complex problems and delivering high-quality results.".

Definition letter_thanks : pystr :=
  lit "Thank you for considering my application. I look forward to the opportunity to discuss how I can contribute to your organization.".

(** The label occurs once in the text, between [before] and [after]. *)
Definition once (label text before after : pystr) : Prop :=
  text = before ++ label ++ after
  /\ contains label (before ++ List.removelast label) = false
  /\ contains label after = false.

(** A completion, trimmed, that the cleaning steps of [generate_resume]
    leave alone: no code, no line from which the text would be restarted,
    no trigger word. *)
Definition plain_completion (U : casing) (p : Gen.profile) (text : pystr) : Prop :=
  contains (lit "def ") text = false
  /\ contains (lit "```") text = false
  /\ contains (lit "print(") text = false
  /\ Forall (fun line => startswith (lit "**") (strip line) = false
                         /\ startswith (Gen.get p "name" []) (strip line) = false
                         /\ contains (lit "Dear") line = false)
            (split [nl] text)
  /\ Forall (fun trigger => contains trigger (lower U text) = false) Gen.triggers.

(** The resume of the API path before its braces are dropped, as a
    function of the four parts. *)
Definition laid_out_parts (p : Gen.profile) (summary skills experience education : pystr)
    : pystr :=
  join [nl]
    [ Gen.get p "name" (lit "Your Name");
      Gen.pad 12 ++ Gen.get p "email" (lit "email@example.com") ++ lit " | "
        ++ Gen.get p "phone" (lit "Phone") ++ lit " | "
        ++ Gen.get p "location" (lit "Location");
      [];
      Gen.pad 12 ++ lit "PROFESSIONAL SUMMARY";
      Gen.pad 12 ++ summary;
      [];
      Gen.pad 12 ++ lit "TECHNICAL SKILLS";
      Gen.pad 12 ++ skills;
      [];
      Gen.pad 12 ++ lit "PROFESSIONAL EXPERIENCE";
      Gen.pad 12 ++ experience;
      [];
      Gen.pad 12 ++ lit "EDUCATION";
      Gen.pad 12 ++ education;
      Gen.pad 12 ].

(* ===================================================================== *)
(** ** Tactics *)
(* ===================================================================== *)

#[local] Arguments N.eqb : simpl never.
#[local] Arguments N.leb : simpl never.


Ltac lookup_inserts :=
  repeat (rewrite lookup_insert_ne by done);
  first [apply lookup_insert_eq | reflexivity].

(* ===================================================================== *)
(** ** Facts about the string operations *)
(* ===================================================================== *)

Section PyFacts.

Implicit Types (s t sub : pystr) (c : N).

Lemma startswith_app sub s : startswith sub (sub ++ s) = true.
Proof. induction sub as [|a sub IH]; simpl; [done|]. by rewrite N.eqb_refl. Qed.

Lemma startswith_spec sub s : startswith sub s = true <-> exists t, s = sub ++ t.
Proof.
  split.
  - revert s. induction sub as [|a sub IH]; intros s H; simpl in *.
    + by exists s.
    + destruct s as [|b s]; [done|].
      apply andb_true_iff in H as [Hab H]. apply N.eqb_eq in Hab as ->.
      destruct (IH _ H) as [t ->]. by exists t.
  - intros [t ->]. apply startswith_app.
Qed.

Lemma contains_startswith sub s : startswith sub s = true -> contains sub s = true.
Proof. intros H. destruct s; simpl; by rewrite H. Qed.

Lemma contains_spec sub s :
  contains sub s = true <-> exists a b, s = a ++ sub ++ b.
Proof.
  split.
  - induction s as [|c s IH]; simpl; intros H.
    + rewrite orb_false_r in H. apply startswith_spec in H as [t ->].
      by exists [], t.
    + apply orb_true_iff in H as [H|H].
      * apply startswith_spec in H as [t ->]. by exists [], t.
      * destruct (IH H) as (a & b & ->). by exists (c :: a), b.
  - intros (a & b & ->). induction a as [|c a IH]; simpl.
    + apply contains_startswith, startswith_app.
    + rewrite IH. apply orb_true_r.
Qed.

Lemma contains_app_r sub a s : contains sub s = true -> contains sub (a ++ s) = true.
Proof.
  rewrite !contains_spec. intros (x & y & ->). exists (a ++ x), y.
  by rewrite <- app_assoc.
Qed.

Lemma contains_app_l sub s b : contains sub s = true -> contains sub (s ++ b) = true.
Proof.
  rewrite !contains_spec. intros (x & y & ->). exists x, (y ++ b).
  by rewrite <- !app_assoc.
Qed.

Lemma contains_cons sub x s :
  contains sub (x :: s) = startswith sub (x :: s) || contains sub s.
Proof. done. Qed.

Lemma contains_cons_false sub x s :
  contains sub (x :: s) = false ->
  startswith sub (x :: s) = false /\ contains sub s = false.
Proof. simpl. by intros [? ?]%orb_false_iff. Qed.

(** Trimming. *)

Lemma forallb_rev {A} (p : A -> bool) (l : list A) :
  forallb p (rev l) = forallb p l.
Proof.
  induction l as [|x l IH]; simpl; [done|].
  rewrite forallb_app, IH. simpl. rewrite andb_true_r. apply andb_comm.
Qed.

Lemma lstrip_idemp s : lstrip (lstrip s) = lstrip s.
Proof.
  induction s as [|c s IH]; simpl; [done|].
  destruct (isspace c) eqn:E; [done|]. simpl. by rewrite E.
Qed.

(** Trimming on the left removes a prefix of white space. *)
Lemma lstrip_split s :
  exists w, s = w ++ lstrip s /\ forallb isspace w = true.
Proof.
  induction s as [|c s (w & Hw & Hsp)]; simpl.
  - by exists [].
  - destruct (isspace c) eqn:E.
    + exists (c :: w). simpl. rewrite E, Hsp. split; [by f_equal|done].
    + by exists [].
Qed.

Lemma lstrip_cons_keep c s : isspace c = false -> lstrip (c :: s) = c :: s.
Proof. simpl. by intros ->. Qed.

Lemma lstrip_head (s : pystr) :
  lstrip s = [] \/ exists c t, lstrip s = c :: t /\ isspace c = false.
Proof.
  induction s as [|c s IH]; simpl; [by left|].
  destruct (isspace c) eqn:E; [done|]. right. by exists c, s.
Qed.

Lemma lstrip_snoc_keep (a : pystr) (c : N) :
  isspace c = false -> exists z, lstrip (a ++ [c]) = z ++ [c].
Proof.
  intros H. induction a as [|d a [z IH]]; simpl.
  - rewrite H. by exists [].
  - destruct (isspace d); [by exists z|]. by exists (d :: a).
Qed.

(** Trimming around a core that starts and ends with code points that
    are not white space. *)
Lemma lstrip_app_keep (a : pystr) (c : N) (m : pystr) :
  isspace c = false -> lstrip (a ++ c :: m) = lstrip a ++ c :: m.
Proof.
  intros H. induction a as [|d a IH]; simpl.
  - by rewrite H.
  - by destruct (isspace d).
Qed.

Lemma rstrip_split s :
  exists w, s = rstrip s ++ w /\ forallb isspace w = true.
Proof.
  unfold rstrip. destruct (lstrip_split (rev s)) as (w & Hw & Hsp).
  exists (rev w). split.
  - rewrite <- (rev_involutive s) at 1. rewrite Hw at 1. by rewrite rev_app_distr.
  - by rewrite forallb_rev.
Qed.

Lemma rstrip_idemp (s : pystr) : rstrip (rstrip s) = rstrip s.
Proof. unfold rstrip. by rewrite rev_involutive, lstrip_idemp. Qed.

Lemma rstrip_cons_head (c : N) (t : pystr) :
  isspace c = false -> exists y, rstrip (c :: t) = c :: y.
Proof.
  intros H. unfold rstrip. simpl.
  destruct (lstrip_snoc_keep (rev t) c H) as [z ->].
  rewrite rev_app_distr. simpl. by eexists.
Qed.

Lemma rstrip_app_keep (m : pystr) (c : N) (e : pystr) :
  isspace c = false -> rstrip (m ++ c :: e) = m ++ c :: rstrip e.
Proof.
  intros H. unfold rstrip.
  rewrite rev_app_distr. simpl. rewrite <- app_assoc. simpl.
  rewrite lstrip_app_keep by done.
  rewrite rev_app_distr. simpl. rewrite rev_involutive, <- app_assoc. done.
Qed.

(** Trimming keeps a first code point that is not white space. *)
Lemma strip_cons_head (c : N) (x : pystr) :
  isspace c = false -> exists y, strip (c :: x) = c :: y.
Proof.
  intros H. unfold strip. rewrite lstrip_cons_keep by done.
  unfold rstrip. simpl.
  destruct (lstrip_snoc_keep (rev x) c H) as [z ->].
  rewrite rev_app_distr. simpl. by eexists.
Qed.

Lemma strip_idemp (s : pystr) : strip (strip s) = strip s.
Proof.
  unfold strip.
  destruct (lstrip_head s) as [E|(c & t & E & Hc)]; rewrite E; [done|].
  destruct (rstrip_cons_head c t Hc) as [y Hy].
  rewrite Hy, lstrip_cons_keep by done.
  rewrite <- Hy. apply rstrip_idemp.
Qed.

Lemma strip_core (a : pystr) (c1 : N) (m : pystr) (c2 : N) (e : pystr) :
  isspace c1 = false -> isspace c2 = false ->
  strip (a ++ c1 :: m ++ c2 :: e) = lstrip a ++ c1 :: m ++ c2 :: rstrip e.
Proof.
  intros H1 H2. unfold strip. rewrite lstrip_app_keep by done.
  replace (lstrip a ++ c1 :: m ++ c2 :: e) with ((lstrip a ++ c1 :: m) ++ c2 :: e)
    by (by rewrite <- app_assoc).
  rewrite rstrip_app_keep by done. by rewrite <- app_assoc.
Qed.

Lemma strip_between (a m1 mid m2 e : pystr) (c1 c2 : N) (r1 r2 : pystr) :
  m1 = c1 :: r1 -> isspace c1 = false ->
  m2 = r2 ++ [c2] -> isspace c2 = false ->
  strip (a ++ m1 ++ mid ++ m2 ++ e) = lstrip a ++ m1 ++ mid ++ m2 ++ rstrip e.
Proof.
  intros -> H1 -> H2.
  replace (a ++ (c1 :: r1) ++ mid ++ (r2 ++ [c2]) ++ e)
    with (a ++ c1 :: (r1 ++ mid ++ r2) ++ c2 :: e)
    by (simpl; by rewrite <- !app_assoc).
  rewrite strip_core by done. simpl. by rewrite <- !app_assoc.
Qed.

(** Trimming keeps a segment of the text. *)
Lemma strip_segment s : exists w w', s = w ++ strip s ++ w'.
Proof.
  destruct (lstrip_split s) as (w & Hw & _).
  destruct (rstrip_split (lstrip s)) as (w' & Hw' & _).
  exists w, w'. unfold strip. by rewrite <- Hw', <- Hw.
Qed.

Lemma contains_strip sub s : contains sub (strip s) = true -> contains sub s = true.
Proof.
  intros H. destruct (strip_segment s) as (w & w' & E). rewrite E.
  by apply contains_app_r, contains_app_l.
Qed.

Lemma not_contains_strip sub s : contains sub s = false -> contains sub (strip s) = false.
Proof.
  intros H. destruct (contains sub (strip s)) eqn:E; [|done].
  apply contains_strip in E. congruence.
Qed.

Lemma elem_of_strip (c : N) (s : pystr) : c ∈ strip s -> c ∈ s.
Proof.
  intros H. destruct (strip_segment s) as (w & w' & E). rewrite E.
  rewrite !elem_of_app. auto.
Qed.

(** Lines of a text. *)

Lemma split_nl_cons c s :
  split [nl] (c :: s) =
    if (nl =? c)%N then [] :: split [nl] s
    else match split [nl] s with
         | h :: t => (c :: h) :: t
         | [] => [[c]]
         end.
Proof.
  unfold split. simpl. rewrite andb_true_r.
  destruct (nl =? c)%N; by destruct (split_from [nl] 0 s).
Qed.

Lemma split_nl_nonempty s : split [nl] s <> [].
Proof. unfold split. by destruct (split_from [nl] 0 s). Qed.

(** A text without a line break is one line. *)
Lemma split_nl_line s : contains [nl] s = false -> split [nl] s = [s].
Proof.
  induction s as [|c s IH]; [done|].
  simpl. rewrite andb_true_r. intros [Hc Hs]%orb_false_iff.
  rewrite split_nl_cons, Hc, IH; done.
Qed.

Lemma split_nl_app s t :
  split [nl] (s ++ nl :: t) = split [nl] s ++ split [nl] t.
Proof.
  induction s as [|c s IH].
  - simpl. by rewrite split_nl_cons, N.eqb_refl.
  - rewrite <- app_comm_cons, !split_nl_cons, IH.
    destruct (nl =? c)%N; [done|].
    destruct (split [nl] s) eqn:E; [by apply split_nl_nonempty in E|done].
Qed.

End PyFacts.

(* ===================================================================== *)
(** ** Removing the bullet artifact *)
(* ===================================================================== *)

Section Artifact.

Implicit Types (s t : pystr).






End Artifact.

(* ===================================================================== *)
(** ** The seven keys *)
(* ===================================================================== *)

Lemma has_keys_initial : has_keys initial_sections.
Proof.
  intros k Hk. unfold section_keys in Hk.
  repeat (apply elem_of_cons in Hk as [->|Hk]; [by eexists|]).
  by apply elem_of_nil in Hk.
Qed.

Lemma has_keys_insert m k v : has_keys m -> has_keys (<[k := v]> m).
Proof.
  intros H k' Hk'. destruct (decide (k = k')) as [->|Hne].
  - rewrite lookup_insert_eq. by eexists.
  - rewrite lookup_insert_ne by done. by apply H.
Qed.

Lemma has_keys_flush st : has_keys (sections st) -> has_keys (flush st).
Proof.
  intros H. unfold flush.
  destruct (cursor_set _); [|done].
  destruct (current_content st); [done|]. by apply has_keys_insert.
Qed.

Lemma getitem_has_keys m k :
  has_keys m -> k ∈ section_keys -> exists v, getitem m k = Ok v /\ m !! k = Some v.
Proof.
  intros H Hk. destruct (H k Hk) as [v Hv]. exists v.
  unfold getitem. by rewrite Hv.
Qed.

(* ===================================================================== *)
(** ** The branches of the loop body; the normaliser never raises *)
(* ===================================================================== *)

Lemma cursor_set_of_body k : k ∈ body_keys -> cursor_set (Some k) = Some k.
Proof.
  unfold body_keys. intros H.
  repeat (apply elem_of_cons in H as [->|H]; [done|]).
  by apply elem_of_nil in H.
Qed.

Lemma header_of_body line k : header_of line = Some k -> k ∈ body_keys.
Proof.
  unfold header_of, body_keys.
  repeat (destruct (_ : bool); [intros [= <-]; repeat constructor|]). done.
Qed.

Lemma name_not_body : "name"%string ∉ body_keys.
Proof.
  unfold body_keys. intros H.
  repeat (apply elem_of_cons in H as [?|H]; [done|]).
  by apply elem_of_nil in H.
Qed.

Lemma contact_not_body : "contact"%string ∉ body_keys.
Proof.
  unfold body_keys. intros H.
  repeat (apply elem_of_cons in H as [H|H]; [discriminate H|]).
  by apply elem_of_nil in H.
Qed.

Lemma additional_not_body : "additional"%string ∉ body_keys.
Proof.
  unfold body_keys. intros H.
  repeat (apply elem_of_cons in H as [H|H]; [discriminate H|]).
  by apply elem_of_nil in H.
Qed.

(** Flushing writes at the cursor only. *)
Lemma flush_lookup_ne st k :
  current_section st <> Some k -> flush st !! k = sections st !! k.
Proof.
  intros H. unfold flush.
  destruct (current_section st) as [c|] eqn:E; simpl; [|done].
  destruct (String.eqb c EmptyString); [done|].
  destruct (current_content st); [done|].
  apply lookup_insert_ne. congruence.
Qed.

Lemma flush_lookup_not_body st k :
  body_cursor (current_section st) -> k ∉ body_keys ->
  flush st !! k = sections st !! k.
Proof.
  intros Hc Hk. apply flush_lookup_ne. intros E. rewrite E in Hc. by apply Hk.
Qed.

Lemma flush_empty st : current_content st = [] -> flush st = sections st.
Proof. intros H. unfold flush. rewrite H. by destruct (cursor_set _). Qed.

Lemma flush_as_insert secs k acc :
  k ∈ body_keys -> secs !! k = Some [] ->
  flush (PState secs (Some k) acc) = <[k := join [nl] acc]> secs.
Proof.
  intros Hk Hnone. unfold flush. cbn [current_section current_content sections].
  rewrite (cursor_set_of_body k Hk).
  destruct acc as [|x acc]; [|done].
  symmetry. by apply insert_id.
Qed.

Lemma field_Some r k v :
  field r k = Some v <-> exists m, r = Ok m /\ m !! k = Some v.
Proof.
  split.
  - destruct r as [m|]; simpl; [|done]. intros H. by exists m.
  - by intros (m & -> & H).
Qed.

Lemma for_each_app {S X} (body : S -> X -> exc S) (xs ys : list X) (s : S) :
  for_each body s (xs ++ ys) = (s' ← for_each body s xs; for_each body s' ys).
Proof.
  revert s. induction xs as [|x xs IH]; intros s; simpl; [done|].
  destruct (body s x); simpl; [apply IH|done].
Qed.

Section Branches.

Variable U : casing.

Lemma step_skipped st raw : skipped (strip raw) = true -> step U st raw = Ok st.
Proof. unfold step. by intros ->. Qed.

Lemma step_header st raw k :
  skipped (strip raw) = false ->
  header_of (upper U (strip raw)) = Some k ->
  step U st raw = Ok (enter st k).
Proof. unfold step. by intros -> ->. Qed.

Lemma step_name st raw :
  name_candidate U raw = true ->
  sections st !! "name"%string = Some [] ->
  step U st raw =
    Ok (PState (<["name"%string := strip raw]> (sections st))
               (current_section st) (current_content st)).
Proof.
  unfold name_candidate, step, getitem.
  intros [[Hs Hh%bool_decide_eq_true]%andb_true_iff Hn]%andb_true_iff Hname.
  apply negb_true_iff in Hs. rewrite Hs, Hh, Hname. simpl. by rewrite Hn.
Qed.

Lemma step_contact st raw :
  past_name U st raw ->
  contact_like (strip raw) = true ->
  step U st raw =
    Ok (PState (<["contact"%string := strip (replace artifact [] (strip raw))]> (sections st))
               (current_section st) (current_content st)).
Proof.
  intros (Hs & Hh & n & Hn & Hor) Hc. unfold step, getitem.
  rewrite Hs, Hh, Hn. simpl.
  replace (negb (truthy n) && name_like (strip raw)) with false.
  - by rewrite Hc.
  - destruct Hor as [->| ->]; [done|]. by rewrite andb_false_r.
Qed.

Lemma step_body st raw k :
  past_name U st raw ->
  contact_like (strip raw) = false ->
  cursor_set (current_section st) = Some k ->
  step U st raw =
    Ok (PState (sections st) (current_section st) (current_content st ++ [strip raw])).
Proof.
  intros (Hs & Hh & n & Hn & Hor) Hc Hk. unfold step, getitem.
  rewrite Hs, Hh, Hn. simpl.
  replace (negb (truthy n) && name_like (strip raw)) with false.
  - by rewrite Hc, Hk.
  - destruct Hor as [->| ->]; [done|]. by rewrite andb_false_r.
Qed.

Lemma step_additional st raw extra :
  past_name U st raw ->
  contact_like (strip raw) = false ->
  cursor_set (current_section st) = None ->
  sections st !! "additional"%string = Some extra ->
  step U st raw =
    Ok (PState (<["additional"%string := extra ++ strip raw ++ [nl]]> (sections st))
               (current_section st) (current_content st)).
Proof.
  intros (Hs & Hh & n & Hn & Hor) Hc Hk He. unfold step, getitem.
  rewrite Hs, Hh, Hn. simpl.
  replace (negb (truthy n) && name_like (strip raw)) with false.
  - by rewrite Hc, Hk, He.
  - destruct Hor as [->| ->]; [done|]. by rewrite andb_false_r.
Qed.

Lemma step_strip st raw : step U st (strip raw) = step U st raw.
Proof. unfold step. by rewrite strip_idemp. Qed.

Lemma for_each_strip lines st :
  for_each (step U) st (List.map strip lines) = for_each (step U) st lines.
Proof.
  revert st. induction lines as [|raw lines IH]; intros st; simpl; [done|].
  rewrite step_strip. destruct (step U st raw); simpl; [apply IH|done].
Qed.

(** The parse looks at the lines up to the white space around them. *)
Lemma parse_lines_strip lines lines' :
  List.map strip lines = List.map strip lines' ->
  parse_lines U lines = parse_lines U lines'.
Proof.
  intros H. unfold parse_lines.
  by rewrite <- (for_each_strip lines), <- (for_each_strip lines'), H.
Qed.

(** The loop keeps its invariant. *)
Lemma step_inv st raw :
  loop_inv st -> exists st', step U st raw = Ok st' /\ loop_inv st'.
Proof.
  intros [H Hc]. unfold step.
  destruct (skipped _); [by exists st|].
  destruct (header_of _) as [k|] eqn:Hh.
  { eexists; split; [done|]. split; simpl.
    - by apply has_keys_flush.
    - by eapply header_of_body. }
  destruct (getitem_has_keys _ "name" H) as (n & -> & _); [set_solver|].
  simpl.
  destruct (negb (truthy n) && name_like _).
  { eexists; split; [done|]. split; simpl; [by apply has_keys_insert|done]. }
  destruct (contact_like _).
  { eexists; split; [done|]. split; simpl; [by apply has_keys_insert|done]. }
  destruct (cursor_set _).
  { eexists; split; [done|]. done. }
  destruct (getitem_has_keys _ "additional" H) as (a & -> & _); [set_solver|].
  simpl. eexists; split; [done|]. split; simpl; [by apply has_keys_insert|done].
Qed.

Lemma for_each_inv lines st :
  loop_inv st -> exists st', for_each (step U) st lines = Ok st' /\ loop_inv st'.
Proof.
  revert st. induction lines as [|raw lines IH]; intros st H; simpl.
  - by eauto.
  - destruct (step_inv st raw H) as (st1 & -> & H1). simpl. by apply IH.
Qed.

Lemma loop_inv_initial : loop_inv initial_state.
Proof. split; [apply has_keys_initial|done]. Qed.

(** The state the loop reaches, when the parse of the same lines binds a
    name. *)
Lemma parse_lines_state lines n :
  field (parse_lines U lines) "name" = Some n ->
  exists st, for_each (step U) initial_state lines = Ok st /\ loop_inv st /\
             sections st !! "name"%string = Some n /\
             parse_lines U lines = Ok (flush st).
Proof.
  intros Hf. unfold parse_lines in *.
  destruct (for_each_inv lines initial_state loop_inv_initial) as (st & Hst & Hinv).
  rewrite Hst in *. simpl in *. exists st. repeat split; try done; try apply Hinv.
  rewrite flush_lookup_not_body in Hf; [done|apply Hinv|apply name_not_body].
Qed.

End Branches.

(** C1.  For every raw text the normaliser returns (no [KeyError], the
    only exception its dictionary reads could raise) and the mapping it
    returns binds each of the seven section keys [name], [contact],
    [summary], [skills], [experience], [education], [additional] to a
    string. *)
Theorem parse_resume_text_total (U : casing) (resume_text : pystr) :
  exists m : gmap string pystr,
    _parse_resume_text U resume_text = Ok m /\
    Forall (fun k => exists body : pystr, m !! k = Some body) section_keys.
Proof.
  unfold _parse_resume_text, parse_lines.
  destruct (for_each_inv U (split [nl] resume_text) initial_state loop_inv_initial)
    as (st & -> & Hkeys & _).
  exists (flush st). split; [done|].
  apply Forall_forall. intros k Hin. by apply has_keys_flush.
Qed.

(* ===================================================================== *)
(** ** The name is captured once *)
(* ===================================================================== *)

Section NameOneShot.

Variable U : casing.

(** A turn of the loop leaves the name as it is when a name is set, and
    when the line is no name candidate. *)
Lemma step_keeps_name st st' raw n :
  loop_inv st ->
  sections st !! "name"%string = Some n ->
  truthy n = true \/ name_candidate U raw = false ->
  step U st raw = Ok st' ->
  sections st' !! "name"%string = Some n.
Proof.
  intros [Hk Hc] Hn Hor. unfold step, getitem. rewrite Hn.
  destruct (skipped (strip raw)) eqn:Hs; [by intros [= <-]|].
  destruct (header_of _) as [k|] eqn:Hh.
  { intros [= <-]. simpl. rewrite flush_lookup_not_body; auto using name_not_body. }
  simpl.
  replace (negb (truthy n) && name_like (strip raw)) with false; cycle 1.
  { destruct Hor as [->|Hc']; [done|]. unfold name_candidate in Hc'.
    rewrite Hs, Hh in Hc'. simpl in Hc'. rewrite Hc'. by rewrite andb_false_r. }
  destruct (contact_like _).
  { intros [= <-]. simpl. by rewrite lookup_insert_ne. }
  destruct (cursor_set _).
  { by intros [= <-]. }
  destruct (sections st !! "additional"%string); simpl; [|done].
  intros [= <-]. simpl. by rewrite lookup_insert_ne.
Qed.

Lemma for_each_keeps_name lines st n :
  loop_inv st ->
  sections st !! "name"%string = Some n ->
  truthy n = true \/ Forall (fun raw => name_candidate U raw = false) lines ->
  exists st', for_each (step U) st lines = Ok st' /\ loop_inv st' /\
              sections st' !! "name"%string = Some n.
Proof.
  revert st. induction lines as [|raw lines IH]; intros st Hinv Hn Hor; simpl.
  - by exists st.
  - destruct (step_inv U st raw Hinv) as (st1 & Hst & Hinv1). rewrite Hst. simpl.
    apply IH; [done| |].
    + apply (step_keeps_name st st1 raw n); [done|done| |done].
      destruct Hor as [?|HF]; [by left|]. right. by inversion HF.
    + destruct Hor as [?|HF]; [by left|]. right. by inversion HF.
Qed.

Lemma name_candidate_truthy raw : name_candidate U raw = true -> truthy (strip raw) = true.
Proof.
  unfold name_candidate, skipped.
  intros [[H _]%andb_true_iff _]%andb_true_iff.
  apply negb_true_iff in H. by destruct (strip raw).
Qed.

(** The first name candidate among the lines is the name returned,
    whatever follows it. *)
Lemma parse_lines_name pre l post :
  Forall (fun raw => name_candidate U raw = false) pre ->
  name_candidate U l = true ->
  exists m, parse_lines U (pre ++ l :: post) = Ok m /\
            m !! "name"%string = Some (strip l).
Proof.
  intros Hpre Hl. unfold parse_lines.
  rewrite for_each_app.
  destruct (for_each_keeps_name pre initial_state [] loop_inv_initial)
    as (st1 & -> & Hinv1 & Hn1); [done|by right|].
  simpl. rewrite (step_name U st1 l Hl Hn1). simpl.
  match goal with |- context [for_each _ ?st post] => set (st2 := st) end.
  assert (Hinv2 : loop_inv st2).
  { destruct Hinv1 as [? ?]. split; simpl; [by apply has_keys_insert|done]. }
  destruct (for_each_keeps_name post st2 (strip l) Hinv2) as (st3 & -> & Hinv3 & Hn3).
  { subst st2. simpl. apply lookup_insert_eq. }
  { left. by apply name_candidate_truthy. }
  simpl. eexists; split; [done|].
  destruct Hinv3 as [_ Hc3].
  rewrite flush_lookup_not_body; auto using name_not_body.
Qed.

End NameOneShot.

(** C9.  The name is captured once, by the first match: when the lines
    before [l] are skipped, open a section or hold [@] or [http], and [l]
    is kept, opens no section and holds neither, the name returned is [l]
    (trimmed) whatever lines follow; a name that a parse has set is the
    name of every parse of a longer text; and on the lines [John Doe],
    [PROFESSIONAL SUMMARY], [Jane Smith] the name is [John Doe] and
    [Jane Smith] is the summary. *)
Theorem name_one_shot (U : casing) :
  (forall (resume_text : pystr) (pre : list pystr) (l : pystr) (post : list pystr),
      split [nl] resume_text = pre ++ l :: post ->
      Forall (fun raw => name_candidate U raw = false) pre ->
      name_candidate U l = true ->
      field (_parse_resume_text U resume_text) "name" = Some (strip l))
  /\ (forall (lines more : list pystr) (n : pystr),
      field (parse_lines U lines) "name" = Some n ->
      truthy n = true ->
      field (parse_lines U (lines ++ more)) "name" = Some n)
  /\ (let r := parse_lines U [lit "John Doe"; lit "PROFESSIONAL SUMMARY"; lit "Jane Smith"] in
      field r "name" = Some (lit "John Doe")
      /\ field r "summary" = Some (lit "Jane Smith")).
Proof.
  split; [|split].
  - intros text pre l post Hsplit Hpre Hl.
    unfold _parse_resume_text. rewrite Hsplit.
    destruct (parse_lines_name U pre l post Hpre Hl) as (m & -> & Hm). done.
  - intros lines more n Hf Hn.
    apply field_Some in Hf as (m & Hm & Hname).
    unfold parse_lines in *. rewrite for_each_app.
    destruct (for_each_inv U lines initial_state loop_inv_initial) as (st & Hst & Hinv).
    rewrite Hst in *. simpl in *. injection Hm as <-.
    rewrite flush_lookup_not_body in Hname by (destruct Hinv; auto using name_not_body).
    destruct (for_each_keeps_name U more st n Hinv Hname) as (st' & -> & Hinv' & Hn');
      [by left|].
    simpl. rewrite flush_lookup_not_body by (destruct Hinv'; auto using name_not_body).
    done.
  - split; vm_compute; reflexivity.
Qed.

Lemma name_one_shot_witness :
  field (_parse_resume_text latin1
           (lit "jane@example.com" ++ [nl] ++ lit "SKILLS" ++ [nl] ++ lit "Jane Roe"
            ++ [nl] ++ lit "Second Name")) "name" = Some (lit "Jane Roe")
  /\ field (parse_lines latin1 ([lit "Jane Roe"] ++ [lit "Second Name"])) "name"
     = Some (lit "Jane Roe").
Proof.
  split.
  - apply (proj1 (name_one_shot latin1) _ [lit "jane@example.com"; lit "SKILLS"]
             (lit "Jane Roe") [lit "Second Name"]).
    + vm_compute; reflexivity.
    + repeat constructor.
    + vm_compute; reflexivity.
  - apply (proj1 (proj2 (name_one_shot latin1)) [lit "Jane Roe"] [lit "Second Name"]).
    + vm_compute; reflexivity.
    + reflexivity.
Defined.

(* ===================================================================== *)
(** ** Lines the normaliser discards *)
(* ===================================================================== *)

Section Discarded.

Variable U : casing.

(** A skipped line can be taken out of the lines without effect. *)
Lemma parse_lines_skipped pre x post :
  skipped (strip x) = true ->
  parse_lines U (pre ++ x :: post) = parse_lines U (pre ++ post).
Proof.
  intros H. unfold parse_lines. rewrite !for_each_app.
  destruct (for_each (step U) initial_state pre); simpl; [|done].
  by rewrite step_skipped.
Qed.

(** A line of braces is skipped. *)
Lemma braces_skipped (x : pystr) :
  x <> [] -> Forall (fun c => c = Gen.lbrace \/ c = Gen.rbrace) x ->
  skipped (strip x) = true.
Proof.
  intros Hne HF. destruct x as [|c x]; [done|].
  apply Forall_cons in HF as [Hc _].
  destruct (strip_cons_head c x) as [y ->]; [by destruct Hc as [-> | ->]|].
  unfold skipped. by destruct Hc as [-> | ->].
Qed.

(** C3, as the code has it.  A line that is empty once trimmed, or whose
    trimmed text begins with a brace (so every line made of braces only),
    contributes to nothing: wherever it stands in the text (between two
    lines, first, or last), the mapping returned is the one returned for
    the text without it. *)
Theorem skipped_line_contributes_nothing (before after x : pystr) :
  contains [nl] x = false ->
  skipped (strip x) = true ->
  _parse_resume_text U (before ++ [nl] ++ x ++ [nl] ++ after)
    = _parse_resume_text U (before ++ [nl] ++ after)
  /\ _parse_resume_text U (x ++ [nl] ++ after) = _parse_resume_text U after
  /\ _parse_resume_text U (before ++ [nl] ++ x) = _parse_resume_text U before.
Proof.
  intros Hx Hs. unfold _parse_resume_text. simpl.
  rewrite !split_nl_app, (split_nl_line x Hx).
  split; [|split].
  - by apply parse_lines_skipped.
  - by apply (parse_lines_skipped []).
  - rewrite <- (app_nil_r (split [nl] before)) at 2.
    by apply parse_lines_skipped.
Qed.

End Discarded.

Lemma skipped_line_contributes_nothing_witness :
  _parse_resume_text latin1 (lit "Jane Roe" ++ [nl] ++ lit "  }}{ " ++ [nl] ++ lit "SKILLS")
    = _parse_resume_text latin1 (lit "Jane Roe" ++ [nl] ++ lit "SKILLS").
Proof.
  apply (skipped_line_contributes_nothing latin1 (lit "Jane Roe") (lit "SKILLS") (lit "  }}{ "));
    vm_compute; reflexivity.
Defined.

(** C3, as the specification has it, fails on a row of pipes: after a
    name, the row [| | |] is kept as the contact line. *)
Lemma pipe_row_is_kept :
  field (_parse_resume_text latin1 (lit "Jane Roe" ++ [nl] ++ lit "| | |")) "contact"
    = Some (lit "| | |")
  /\ field (_parse_resume_text latin1 (lit "Jane Roe")) "contact" = Some []
  /\ field (_parse_resume_text latin1 (lit "| | |")) "name" = Some (lit "| | |").
Proof. repeat split; vm_compute; reflexivity. Qed.

(* ===================================================================== *)
(** ** A flush overwrites *)
(* ===================================================================== *)

Section Overwrite.

Variable U : casing.

Lemma body_line_past_name st raw n :
  body_line U raw = true ->
  sections st !! "name"%string = Some n -> truthy n = true ->
  past_name U st raw /\ contact_like (strip raw) = false.
Proof.
  unfold body_line.
  intros [[Hs Hh%bool_decide_eq_true]%andb_true_iff Hc]%andb_true_iff Hn Ht.
  apply negb_true_iff in Hs, Hc. split; [|done].
  split; [done|]. split; [done|]. exists n. by auto.
Qed.

(** Under a cursor and with a name set, body lines go to the accumulator
    and nowhere else. *)
Lemma for_each_body lines secs k acc n :
  k ∈ body_keys ->
  secs !! "name"%string = Some n -> truthy n = true ->
  Forall (fun raw => body_line U raw = true) lines ->
  for_each (step U) (PState secs (Some k) acc) lines
    = Ok (PState secs (Some k) (acc ++ List.map strip lines)).
Proof.
  intros Hk Hn Ht. revert acc.
  induction lines as [|raw lines IH]; intros acc HF; simpl.
  - by rewrite app_nil_r.
  - apply Forall_cons in HF as [Hraw HF].
    destruct (body_line_past_name (PState secs (Some k) acc) raw n Hraw Hn Ht)
      as [Hp Hc].
    rewrite (step_body U _ raw k Hp Hc) by (by apply cursor_set_of_body).
    simpl. rewrite (IH _ HF). by rewrite <- app_assoc.
Qed.


Lemma opens_header raw k :
  opens U raw = Some k ->
  skipped (strip raw) = false /\ header_of (upper U (strip raw)) = Some k.
Proof. unfold opens. by destruct (skipped (strip raw)). Qed.

(** What a line that opens no section is to the loop. *)
Lemma opens_none_cases raw :
  opens U raw = None ->
  skipped (strip raw) = true
  \/ (skipped (strip raw) = false /\ header_of (upper U (strip raw)) = None
      /\ body_line U raw = negb (contact_like (strip raw))).
Proof.
  unfold opens, body_line. destruct (skipped (strip raw)); [by left|].
  intros H. right. rewrite H. by rewrite bool_decide_eq_true_2.
Qed.

(** Under a cursor and with a name set, the lines of a block that open no
    section leave the cursor where it is, add the body lines of the block
    to the accumulator, and change no key but [contact]. *)
Lemma for_each_block_lines block secs k acc n :
  k ∈ body_keys ->
  secs !! "name"%string = Some n -> truthy n = true ->
  Forall (fun raw => opens U raw = None) block ->
  exists secs',
    for_each (step U) (PState secs (Some k) acc) block
      = Ok (PState secs' (Some k) (acc ++ List.map strip (List.filter (body_line U) block)))
    /\ forall j, j <> "contact"%string -> secs' !! j = secs !! j.
Proof.
  intros Hk Hn Ht HF. revert secs acc Hn.
  induction HF as [|raw block Hraw _ IH]; intros secs acc Hn.
  - exists secs. cbn. by rewrite app_nil_r.
  - cbn [for_each List.filter].
    destruct (opens_none_cases raw Hraw) as [Hs|(Hs & Hh & Hb)].
    + rewrite (step_skipped U _ raw Hs). cbn [mbind exc_bind].
      assert (Hnb : body_line U raw = false) by (unfold body_line; by rewrite Hs).
      rewrite Hnb. by apply IH.
    + assert (Hp : past_name U (PState secs (Some k) acc) raw).
      { split; [done|]. split; [done|]. exists n. by auto. }
      rewrite Hb. destruct (contact_like (strip raw)) eqn:Hc; cbn [negb].
      * rewrite (step_contact U _ raw Hp Hc).
        cbn [mbind exc_bind sections current_section current_content].
        destruct (IH (<["contact"%string := strip (replace artifact [] (strip raw))]> secs)
                    acc) as (secs' & Hrun & Hsame).
        { by rewrite lookup_insert_ne. }
        exists secs'. split; [done|]. intros j Hj.
        rewrite (Hsame j Hj). by rewrite lookup_insert_ne.
      * rewrite (step_body U _ raw k Hp Hc) by (by apply cursor_set_of_body).
        cbn [mbind exc_bind sections current_section current_content].
        destruct (IH secs (acc ++ [strip raw]) Hn) as (secs' & Hrun & Hsame).
        exists secs'. split; [|done]. rewrite Hrun. cbn [List.map].
        by rewrite <- app_assoc.
Qed.

(** While the cursor is not on [k] and no line opens [k], the section [k]
    is left alone. *)
Lemma step_leaves_section st st' raw k :
  k ∈ body_keys ->
  current_section st <> Some k ->
  opens U raw <> Some k ->
  step U st raw = Ok st' ->
  current_section st' <> Some k /\ sections st' !! k = sections st !! k.
Proof.
  intros Hk Hcur Hopen. unfold opens in Hopen. unfold step.
  destruct (skipped (strip raw)); [by intros [= <-]|].
  destruct (header_of _) as [k'|] eqn:Hh.
  { intros [= <-]. cbn. split; [congruence|]. by apply flush_lookup_ne. }
  unfold getitem. destruct (sections st !! "name"%string) as [n|]; [|done].
  cbn [mbind exc_bind].
  destruct (negb (truthy n) && name_like (strip raw)).
  { intros [= <-]. cbn. split; [done|]. apply lookup_insert_ne.
    intros <-. exact (name_not_body Hk). }
  destruct (contact_like (strip raw)).
  { intros [= <-]. cbn. split; [done|]. apply lookup_insert_ne.
    intros <-. exact (contact_not_body Hk). }
  destruct (cursor_set _); [by intros [= <-]|].
  destruct (sections st !! "additional"%string); [|done]. cbn [mbind exc_bind].
  intros [= <-]. cbn. split; [done|]. apply lookup_insert_ne.
  intros <-. exact (additional_not_body Hk).
Qed.

Lemma for_each_leaves_section lines st st' k :
  k ∈ body_keys ->
  current_section st <> Some k ->
  Forall (fun raw => opens U raw <> Some k) lines ->
  for_each (step U) st lines = Ok st' ->
  current_section st' <> Some k /\ sections st' !! k = sections st !! k.
Proof.
  intros Hk Hcur HF. revert st Hcur.
  induction HF as [|raw lines Hraw _ IH]; intros st Hcur; cbn [for_each].
  - by intros [= <-].
  - destruct (step U st raw) as [st1|] eqn:Hst; [|done]. cbn [mbind exc_bind].
    destruct (step_leaves_section st st1 raw k Hk Hcur Hraw Hst) as [Hcur1 Hsame1].
    intros Hrest. destruct (IH st1 Hcur1 Hrest) as [Hcur' Hsame'].
    split; [done|]. by rewrite Hsame'.
Qed.

(** The lines of a block that the loop skips change nothing. *)
Lemma for_each_skipped block st :
  Forall (fun raw => skipped (strip raw) = true) block ->
  for_each (step U) st block = Ok st.
Proof.
  induction 1 as [|raw block Hraw _ IH]; [done|].
  cbn [for_each]. rewrite (step_skipped U st raw Hraw). exact IH.
Qed.

(** The section [k] after a header for [k], a block that holds body
    lines, and lines that do not open [k] again. *)
Lemma parse_lines_block pre h block post k n :
  field (parse_lines U pre) "name" = Some n ->
  truthy n = true ->
  opens U h = Some k ->
  Forall (fun raw => opens U raw = None) block ->
  header_next U post ->
  Forall (fun raw => opens U raw <> Some k) post ->
  List.filter (body_line U) block <> [] ->
  field (parse_lines U (pre ++ h :: block ++ post)) k
  = Some (join [nl] (List.map strip (List.filter (body_line U) block))).
Proof.
  intros Hf Ht Hh Hblock Hnext Hpost Hne.
  destruct (opens_header h k Hh) as [Hs Hhd].
  destruct (parse_lines_state U pre n Hf) as (st & Hst & Hinv & Hn & _).
  assert (Hk : k ∈ body_keys) by (by eapply header_of_body).
  unfold parse_lines.
  rewrite for_each_app, Hst. cbn [mbind exc_bind for_each].
  rewrite (step_header U st h k Hs Hhd). cbn [mbind exc_bind]. unfold enter.
  rewrite for_each_app.
  assert (Hinv0 : loop_inv (PState (flush st) (Some k) [])).
  { split; cbn; [apply has_keys_flush, Hinv|done]. }
  destruct (for_each_inv U block _ Hinv0) as (stB & HrunB & HinvB).
  destruct (for_each_block_lines block (flush st) k [] n Hk) as (secs' & Hrun & _);
    [by rewrite flush_lookup_not_body; [|apply Hinv|apply name_not_body]|done|done|].
  rewrite Hrun in HrunB. injection HrunB as <-. rewrite Hrun.
  cbn [mbind exc_bind app] in *.
  set (kept := List.map strip (List.filter (body_line U) block)) in *.
  assert (Hflush : flush (PState secs' (Some k) kept) !! k = Some (join [nl] kept)).
  { unfold flush. cbn [current_section current_content sections].
    rewrite (cursor_set_of_body k Hk).
    destruct kept eqn:E; [|apply lookup_insert_eq].
    subst kept. by destruct (List.filter (body_line U) block). }
  destruct post as [|h2 post].
  - cbn [for_each mbind exc_bind field]. exact Hflush.
  - cbn [header_next] in Hnext. destruct Hnext as [k2 Hk2].
    destruct (opens_header h2 k2 Hk2) as [Hs2 Hhd2].
    apply Forall_cons in Hpost as [Hh2 Hpost].
    cbn [for_each]. rewrite (step_header U _ h2 k2 Hs2 Hhd2). cbn [mbind exc_bind].
    assert (Hinv2 : loop_inv (enter (PState secs' (Some k) kept) k2)).
    { split; cbn; [apply has_keys_flush, HinvB|by eapply header_of_body]. }
    destruct (for_each_inv U post _ Hinv2) as (st3 & Hst3 & Hinv3).
    rewrite Hst3. cbn [mbind exc_bind field].
    assert (Hcur2 : current_section (enter (PState secs' (Some k) kept) k2) <> Some k).
    { cbn. intros [= ->]. by apply Hh2. }
    destruct (for_each_leaves_section post _ st3 k Hk Hcur2 Hpost Hst3)
      as [Hcur3 Hsame3].
    rewrite flush_lookup_ne by done. rewrite Hsame3. exact Hflush.
Qed.

(** A header under which every line is skipped changes nothing. *)
Lemma parse_lines_idle_header pre h block post k :
  opens U h = Some k ->
  Forall (fun raw => skipped (strip raw) = true) block ->
  header_next U post ->
  parse_lines U (pre ++ h :: block ++ post) = parse_lines U (pre ++ post).
Proof.
  intros Hh Hblock Hnext.
  destruct (opens_header h k Hh) as [Hs Hhd].
  unfold parse_lines. rewrite !for_each_app.
  destruct (for_each (step U) initial_state pre) as [st|]; [|done].
  cbn [mbind exc_bind for_each].
  rewrite (step_header U st h k Hs Hhd). cbn [mbind exc_bind].
  rewrite for_each_app, (for_each_skipped block _ Hblock). cbn [mbind exc_bind].
  destruct post as [|h2 post].
  - cbn [for_each mbind exc_bind]. f_equal. by apply flush_empty.
  - cbn [header_next] in Hnext. destruct Hnext as [k2 Hk2].
    destruct (opens_header h2 k2 Hk2) as [Hs2 Hhd2].
    cbn [for_each]. rewrite !(step_header U _ h2 k2 Hs2 Hhd2).
    unfold enter at 1 3. by rewrite (flush_empty (enter st k)).
Qed.

(** C2, as the code has it.  Nothing is concatenated onto what a section
    held: at the next header or at the end of the text, the lines kept
    under the current header, joined by line breaks, replace the content
    of its section.  Take a header line [h] for a section [k], the lines
    [block] under it up to the next header line or the end of the text,
    and the lines [post] after them.  Once a name has been captured
    before [h], if [block] holds a line kept as a section line (a body
    line) and no line of [post] opens [k] again, the section [k] returned
    is exactly the body lines of [block], trimmed and joined by line
    breaks, whatever earlier occurrences of the header had put there.
    And a header under which every line is skipped, or that has no line
    under it, changes nothing: the result is the one of the text without
    the header and those lines. *)
Theorem header_flush_overwrites (pre : list pystr) (h : pystr) (block post : list pystr)
    (k : string) :
  opens U h = Some k ->
  Forall (fun raw => opens U raw = None) block ->
  header_next U post ->
  (forall n,
     field (parse_lines U pre) "name" = Some n -> truthy n = true ->
     Forall (fun raw => opens U raw <> Some k) post ->
     List.filter (body_line U) block <> [] ->
     field (parse_lines U (pre ++ h :: block ++ post)) k
     = Some (join [nl] (List.map strip (List.filter (body_line U) block))))
  /\ (Forall (fun raw => skipped (strip raw) = true) block ->
      parse_lines U (pre ++ h :: block ++ post) = parse_lines U (pre ++ post)).
Proof.
  intros Hh Hblock Hnext. split.
  - intros n Hf Ht Hpost Hne. by apply (parse_lines_block pre h block post k n).
  - intros Hskip. by apply (parse_lines_idle_header pre h block post k).
Qed.

End Overwrite.

Lemma header_flush_overwrites_witness :
  field (parse_lines latin1
           ([lit "Jane Roe"; lit "SKILLS"; lit "- Python"]
            ++ lit "Technical Skills:" :: [lit "- Java"; []; lit "  - Rocq "]
            ++ [lit "EDUCATION"; lit "- BSc"])) "skills"
    = Some (join [nl] [lit "- Java"; lit "- Rocq"]).
Proof.
  destruct (header_flush_overwrites latin1
              [lit "Jane Roe"; lit "SKILLS"; lit "- Python"]
              (lit "Technical Skills:") [lit "- Java"; []; lit "  - Rocq "]
              [lit "EDUCATION"; lit "- BSc"] "skills") as [Hkept _].
  - reflexivity.
  - repeat (apply Forall_cons; split; [reflexivity|]). apply Forall_nil_2.
  - by exists "education"%string.
  - apply (Hkept (lit "Jane Roe")).
    + reflexivity.
    + reflexivity.
    + repeat (apply Forall_cons; split; [by vm_compute|]). apply Forall_nil_2.
    + by vm_compute.
Defined.

(** C2, as the specification has it, fails: under a repeated [SKILLS]
    header the section holds the lines of the last occurrence, not the
    lines of the first followed by those of the last. *)
Lemma duplicate_header_not_merged :
  let r := _parse_resume_text latin1
             (lit "Jane Roe" ++ [nl] ++ lit "SKILLS" ++ [nl] ++ lit "- Python" ++ [nl]
              ++ lit "EDUCATION" ++ [nl] ++ lit "- BSc" ++ [nl]
              ++ lit "SKILLS" ++ [nl] ++ lit "- Java") in
  field r "skills" = Some (lit "- Java")
  /\ field r "skills" <> Some (merged_per_spec (lit "- Python") (lit "- Java")).
Proof. split; vm_compute; [reflexivity|discriminate]. Qed.

(* ===================================================================== *)
(** ** The artifact in contact lines and in skills lines *)
(* ===================================================================== *)

Section ArtifactLines.

Variable U : casing.



End ArtifactLines.



(** A contact line in which the artifact is nested keeps one occurrence
    after the pass. *)
Lemma nested_artifact_survives :
  let l := lit "jane@example.com " ++ [8218%N] ++ artifact ++ [196%N; 162%N] in
  field (parse_lines latin1 [lit "Jane Roe"; l]) "contact"
    = Some (lit "jane@example.com " ++ artifact).
Proof. vm_compute; reflexivity. Qed.

(* ===================================================================== *)
(** ** Parsing a canonical document again *)
(* ===================================================================== *)

Section Canonical.

Variable U : casing.

(** A blank line, a header line and the lines of its section. *)
Lemma for_each_block secs cs acc h k n body :
  body_cursor cs ->
  secs !! "name"%string = Some n -> truthy n = true ->
  skipped (strip h) = false ->
  header_of (upper U (strip h)) = Some k ->
  Forall (fun raw => body_line U raw = true) body ->
  for_each (step U) (PState secs cs acc) ([[]; h] ++ body)
    = Ok (PState (flush (PState secs cs acc)) (Some k) (List.map strip body)).
Proof.
  intros Hcs Hn Ht Hs Hh HF. cbn [app for_each].
  rewrite step_skipped by done. cbn [mbind exc_bind].
  rewrite (step_header U _ h k Hs Hh). cbn [mbind exc_bind]. unfold enter.
  rewrite (for_each_body U body _ k [] n); [done|by eapply header_of_body| |done|done].
  rewrite flush_lookup_not_body; [done|done|apply name_not_body].
Qed.

Lemma for_each_block_then secs cs acc h k n body rest :
  body_cursor cs ->
  secs !! "name"%string = Some n -> truthy n = true ->
  skipped (strip h) = false ->
  header_of (upper U (strip h)) = Some k ->
  Forall (fun raw => body_line U raw = true) body ->
  for_each (step U) (PState secs cs acc) ([[]; h] ++ body ++ rest)
    = for_each (step U)
        (PState (flush (PState secs cs acc)) (Some k) (List.map strip body)) rest.
Proof.
  intros Hcs Hn Ht Hs Hh HF.
  rewrite app_assoc, for_each_app.
  by rewrite (for_each_block secs cs acc h k n body).
Qed.

(** C4, as the code has it.  Parsing a text laid out in the canonical
    shape gives back the content of each section, up to the white space
    around the lines, when the first line is a name candidate, the second
    a contact line, and every line of a section is a body line: a line
    that is not empty, does not begin with a brace, holds no header label
    in any letter case and none of [@], [|], [Phone], [Email]. *)
Theorem canonical_document_reparsed (d : document) (resume_text : pystr) :
  laid_out resume_text d ->
  name_candidate U (doc_name d) = true ->
  contact_line U (doc_contact d) = true ->
  Forall (fun raw => body_line U raw = true) (doc_summary d) ->
  Forall (fun raw => body_line U raw = true) (doc_skills d) ->
  Forall (fun raw => body_line U raw = true) (doc_experience d) ->
  Forall (fun raw => body_line U raw = true) (doc_education d) ->
  let r := _parse_resume_text U resume_text in
  field r "name" = Some (strip (doc_name d))
  /\ field r "contact" = Some (strip (replace artifact [] (strip (doc_contact d))))
  /\ field r "summary" = Some (section_text (doc_summary d))
  /\ field r "skills" = Some (section_text (doc_skills d))
  /\ field r "experience" = Some (section_text (doc_experience d))
  /\ field r "education" = Some (section_text (doc_education d))
  /\ field r "additional" = Some [].
Proof.
  intros Hlay Hname Hcontact Hsum Hski Hexp Hedu r.
  assert (Hr : r = parse_lines U (canonical_lines d)).
  { subst r. unfold _parse_resume_text. by apply parse_lines_strip. }
  pose proof (name_candidate_truthy U _ Hname) as Htruthy.
  unfold contact_line in Hcontact.
  apply andb_true_iff in Hcontact as [[Hcs Hch%bool_decide_eq_true]%andb_true_iff Hcc].
  apply negb_true_iff in Hcs.
  set (N := strip (doc_name d)) in *.
  set (C := strip (replace artifact [] (strip (doc_contact d)))).
  set (secs0 := <["contact"%string := C]> (<["name"%string := N]> initial_sections)).
  assert (Hn0 : secs0 !! "name"%string = Some N) by (subst secs0; lookup_inserts).
  assert (Hrun :
    for_each (step U) initial_state (canonical_lines d)
    = Ok (PState
            (<["experience"%string := section_text (doc_experience d)]>
             (<["skills"%string := section_text (doc_skills d)]>
              (<["summary"%string := section_text (doc_summary d)]> secs0)))
            (Some "education"%string) (List.map strip (doc_education d)))).
  { unfold canonical_lines. rewrite for_each_app. cbn [for_each].
    rewrite (step_name U initial_state _ Hname) by reflexivity. cbn [mbind exc_bind].
    rewrite (step_contact U _ (doc_contact d)); cycle 1.
    { split; [done|]. split; [done|]. exists N. split; [apply lookup_insert_eq|by left]. }
    { done. }
    cbn [mbind exc_bind sections current_section current_content].
    fold N C. fold secs0.
    rewrite (for_each_block_then _ _ _ _ "summary" N);
      [|done|done|done|vm_compute; reflexivity|vm_compute; reflexivity|done].
    rewrite flush_empty by done. cbn [sections].
    rewrite (for_each_block_then _ _ _ _ "skills" N);
      [|by repeat constructor|done|done|vm_compute; reflexivity|vm_compute; reflexivity|done].
    rewrite flush_as_insert; [|by repeat constructor|subst secs0; lookup_inserts].
    rewrite (for_each_block_then _ _ _ _ "experience" N);
      [|by repeat constructor|subst secs0; lookup_inserts|done
       |vm_compute; reflexivity|vm_compute; reflexivity|done].
    rewrite flush_as_insert; [|by repeat constructor|subst secs0; lookup_inserts].
    rewrite (for_each_block _ _ _ _ "education" N);
      [|by repeat constructor|subst secs0; lookup_inserts|done
       |vm_compute; reflexivity|vm_compute; reflexivity|done].
    rewrite flush_as_insert; [|by repeat constructor|subst secs0; lookup_inserts].
    done. }
  rewrite Hr. unfold parse_lines. rewrite Hrun. cbn [mbind exc_bind field].
  rewrite flush_as_insert; [|by repeat constructor|subst secs0; lookup_inserts].
  subst secs0. repeat split; lookup_inserts.
Qed.

End Canonical.

Lemma canonical_document_reparsed_witness :
  let d := Document (lit "John Doe") (lit "john@example.com | 123-456-7890")
             [lit "Builds reliable software."; lit "Ten years in the field."]
             [[Gen.bullet; space] ++ lit "Python, SQL"]
             [[Gen.bullet; space] ++ lit "Five years at ACME"]
             [[Gen.bullet; space] ++ lit "BSc, Computing"] in
  let text := join [nl] (List.map (fun l => Gen.pad 8 ++ l) (canonical_lines d)) in
  field (_parse_resume_text latin1 text) "summary"
    = Some (lit "Builds reliable software." ++ [nl] ++ lit "Ten years in the field.")
  /\ field (_parse_resume_text latin1 text) "skills"
     = Some ([Gen.bullet; space] ++ lit "Python, SQL").
Proof.
  intros d text.
  destruct (canonical_document_reparsed latin1 d text) as (_ & _ & Hs & Hk & _).
  - vm_compute; reflexivity.
  - vm_compute; reflexivity.
  - vm_compute; reflexivity.
  - repeat constructor.
  - repeat constructor.
  - repeat constructor.
  - repeat constructor.
  - split; [exact Hs|exact Hk].
Defined.

(** C4, as the specification has it, fails on its own example.  The
    resume that the template writes for the profile of the self-test is
    laid out in the canonical shape, with two lines under PROFESSIONAL
    SUMMARY and one under PROFESSIONAL EXPERIENCE; parsed, its summary and
    its experience are empty, because the first summary line holds
    [skills] and the experience line holds [experience], which the parser
    takes for headers. *)
Lemma template_resume_not_reproduced :
  let d := template_document test_profile in
  let text := Gen._generate_resume_template test_profile (lit "a job") in
  laid_out text d
  /\ field (_parse_resume_text latin1 text) "summary" = Some []
  /\ section_text (doc_summary d) <> []
  /\ field (_parse_resume_text latin1 text) "experience" = Some []
  /\ section_text (doc_experience d) <> [].
Proof. repeat split; vm_compute; (reflexivity || discriminate). Qed.

(* ===================================================================== *)
(** ** The application store *)
(* ===================================================================== *)

Section StoreFacts.

Import Store.

Implicit Types (items : list json) (rs : list record) (f : file).

Lemma omap_as_dict_objects rs : omap as_dict (JObj <$> rs) = rs.
Proof. induction rs as [|r rs IH]; csimpl; [done|]. by rewrite IH. Qed.


Lemma length_omap_as_dict items : length (omap as_dict items) <= length items.
Proof.
  induction items as [|v items IH]; csimpl; [done|].
  destruct (as_dict v); csimpl; lia.
Qed.

(** When no entry is dropped, every entry is an object. *)
Lemma omap_as_dict_full items :
  length (omap as_dict items) = length items -> JObj <$> omap as_dict items = items.
Proof.
  induction items as [|v items IH]; csimpl; [done|].
  pose proof (length_omap_as_dict items) as Hle.
  destruct v; csimpl; try (intros; lia).
  intros [= H]. by rewrite IH.
Qed.

(** A read of an array: the records returned and the array left. *)
Lemma get_job_applications_array items :
  get_job_applications (Holds (JArr items))
    = (omap as_dict items, Holds (JArr (JObj <$> omap as_dict items))).
Proof.
  unfold get_job_applications, dump.
  destruct (length (omap as_dict items) =? length items)%nat eqn:E; simpl; [|done].
  apply Nat.eqb_eq in E. by rewrite omap_as_dict_full.
Qed.

Lemma get_job_applications_records rs :
  get_job_applications (Holds (JArr (JObj <$> rs))) = (rs, Holds (JArr (JObj <$> rs))).
Proof. by rewrite get_job_applications_array, omap_as_dict_objects. Qed.

(** A second read returns what the first returned. *)
Lemma get_job_applications_again f :
  (get_job_applications (get_job_applications f).2).1 = (get_job_applications f).1.
Proof.
  destruct f as [| | | |v]; try done.
  destruct v; try done.
  rewrite get_job_applications_array. cbn [fst snd].
  by rewrite get_job_applications_records.
Qed.




Lemma update_out_of_range now f i new_status :
  (i < 0 \/ Z.of_nat (length (get_job_applications f).1) <= i)%Z ->
  update_application_status now f i new_status = (false, (get_job_applications f).2).
Proof.
  intros H. unfold update_application_status.
  destruct (get_job_applications f) as [apps f1]. simpl in *.
  replace ((0 <=? i)%Z && (i <? Z.of_nat (length apps))%Z) with false; [done|].
  symmetry. apply andb_false_iff. rewrite Z.leb_gt, Z.ltb_ge. lia.
Qed.

(** What an update at index 0 of three records stores. *)
Lemma update_first_of_three (now new_status : pystr) (r0 r1 r2 : record) :
  let r0' := <[lit "updated_at" := JStr now]> (<[lit "status" := JStr new_status]> r0) in
  update_application_status now (Holds (JArr [JObj r0; JObj r1; JObj r2])) 0 new_status
    = (true, Holds (JArr [JObj r0'; JObj r1; JObj r2]))
  /\ r0' !! lit "updated_at" = Some (JStr now).
Proof. split; [done|apply lookup_insert_eq]. Qed.

(** C6, as the code has it.  On a stored list of three records, an
    update at index 0 succeeds and stores the same three records, the
    first with its [status] set to the new status and its [updated_at]
    set to the current time, every other field of it as before, and the
    records at indices 1 and 2 as before.  At an index below 0 or not
    below the number of records the update fails; the file is left as the
    read leaves it, which is unchanged when it holds a list of records,
    and a later read returns the same records. *)
Theorem update_application_status_frame (now new_status : pystr) (r0 r1 r2 : record) :
  let stored := Holds (JArr [JObj r0; JObj r1; JObj r2]) in
  let r0' := <[lit "updated_at" := JStr now]> (<[lit "status" := JStr new_status]> r0) in
  update_application_status now stored 0 new_status
    = (true, Holds (JArr [JObj r0'; JObj r1; JObj r2]))
  /\ r0' !! lit "status" = Some (JStr new_status)
  /\ r0' !! lit "updated_at" = Some (JStr now)
  /\ (forall k, k <> lit "status" -> k <> lit "updated_at" -> r0' !! k = r0 !! k)
  /\ (forall (f : file) (i : Z),
        (i < 0 \/ Z.of_nat (length (get_job_applications f).1) <= i)%Z ->
        (update_application_status now f i new_status).1 = false
        /\ (get_job_applications (update_application_status now f i new_status).2).1
           = (get_job_applications f).1
        /\ (forall rs, f = Holds (JArr (JObj <$> rs)) ->
            (update_application_status now f i new_status).2 = f)).
Proof.
  intros stored r0'.
  destruct (update_first_of_three now new_status r0 r1 r2) as [Hrun Hstamp].
  split; [done|]. split; [|split; [|split]].
  - subst r0'. rewrite lookup_insert_ne by done. apply lookup_insert_eq.
  - done.
  - intros k H1 H2. subst r0'. by rewrite !lookup_insert_ne.
  - intros f i Hi. rewrite (update_out_of_range now f i new_status Hi). simpl.
    split; [done|]. split; [apply get_job_applications_again|].
    intros rs ->. by rewrite get_job_applications_records.
Qed.

Lemma update_application_status_frame_witness :
  let a : record := {[ lit "company_name" := JStr (lit "A") ]} in
  let stored := Holds (JArr [JObj a; JObj a; JObj a]) in
  let now := lit "2024-05-01T10:00:00" in
  (update_application_status now stored 3 (lit "interview")).1 = false
  /\ (update_application_status now stored (-1) (lit "interview")).2 = stored
  /\ (<[lit "updated_at" := JStr now]> (<[lit "status" := JStr (lit "interview")]> a))
       !! lit "company_name" = a !! lit "company_name".
Proof.
  intros a stored now.
  pose proof (update_application_status_frame now (lit "interview") a a a)
    as (_ & _ & _ & Hother & Hout).
  split; [|split].
  - apply (Hout stored 3%Z). right. simpl. lia.
  - destruct (Hout stored (-1)%Z) as (_ & _ & Hsame); [left; lia|].
    apply (Hsame [a; a; a]). reflexivity.
  - apply Hother; discriminate.
Defined.

(** C6, as the specification has it, fails: the record at index 0 does
    not only have its status changed, it also gets the time of the
    update under [updated_at]. *)
Lemma update_also_stamps_time :
  let r0 : record :=
    <[lit "status" := JStr (lit "pending")]> {[ lit "company_name" := JStr (lit "A") ]} in
  let r1 : record :=
    <[lit "status" := JStr (lit "pending")]> {[ lit "company_name" := JStr (lit "B") ]} in
  let r2 : record :=
    <[lit "status" := JStr (lit "rejected")]> {[ lit "company_name" := JStr (lit "C") ]} in
  update_application_status (lit "2024-05-01T10:00:00")
      (Holds (JArr [JObj r0; JObj r1; JObj r2])) 0 (lit "interview")
    <> (true, Holds (JArr [JObj (status_only_per_spec (lit "interview") r0); JObj r1; JObj r2])).
Proof.
  intros r0 r1 r2 H.
  destruct (update_first_of_three (lit "2024-05-01T10:00:00")
              (lit "interview") r0 r1 r2) as [Hrun Hstamp].
  rewrite Hrun in H.
  apply (f_equal (fun out : bool * file =>
                    match out.2 with
                    | Holds (JArr (JObj r :: _)) => r !! lit "updated_at"
                    | _ => None
                    end)) in H.
  cbn [snd] in H. rewrite Hstamp in H. unfold status_only_per_spec, r0 in H.
  rewrite !lookup_insert_ne in H by done.
  by rewrite lookup_singleton_ne in H.
Qed.

End StoreFacts.

(* ===================================================================== *)
(** ** The text source *)
(* ===================================================================== *)

Section GenFacts.

Import Gen.

Variable U : casing.

(** C8.  With no credential configured, the resume and the cover letter
    returned do not depend on what the completion service would do: two
    calls with the same profile, job description, company name and
    position title return the same strings, which are the template
    texts. *)
Theorem fallback_deterministic (api_key : option pystr) (world1 world2 : reply)
    (p : profile) (company_name position_title job_description : pystr) :
  no_credential api_key ->
  generate_resume U api_key world1 p job_description
    = generate_resume U api_key world2 p job_description
  /\ generate_cover_letter api_key world1 p company_name position_title job_description
     = generate_cover_letter api_key world2 p company_name position_title job_description
  /\ generate_resume U api_key world1 p job_description
     = _generate_resume_template p job_description
  /\ generate_cover_letter api_key world1 p company_name position_title job_description
     = _generate_cover_letter_template p company_name position_title job_description.
Proof. by intros [-> | ->]. Qed.

Lemma unbraced_app (s t : pystr) : unbraced (s ++ t) = unbraced s ++ unbraced t.
Proof. apply List.filter_app. Qed.

Lemma unbraced_head (name email phone location : pystr) :
  unbraced (name ++ [nl] ++ pad 12 ++ email ++ lit " | " ++ phone ++ lit " | "
            ++ location ++ [nl; nl] ++ pad 12)
  = unbraced name ++ [nl] ++ pad 12 ++ unbraced email ++ lit " | " ++ unbraced phone
    ++ lit " | " ++ unbraced location ++ [nl; nl] ++ pad 12.
Proof. by rewrite !unbraced_app. Qed.

(** The layout, cut at its four headers. *)
Lemma layout_headers (p : profile) (ct : pystr) :
  layout p ct =
    (get p "name" (lit "Your Name") ++ [nl] ++ pad 12
       ++ get p "email" (lit "email@example.com") ++ lit " | "
       ++ get p "phone" (lit "Phone") ++ lit " | "
       ++ get p "location" (lit "Location") ++ [nl; nl] ++ pad 12)
    ++ lit "PROFESSIONAL SUMMARY"
    ++ ([nl] ++ pad 12 ++ summary_part ct ++ [nl; nl] ++ pad 12)
    ++ lit "TECHNICAL SKILLS"
    ++ ([nl] ++ pad 12 ++ skills_part ct ++ [nl; nl] ++ pad 12)
    ++ lit "PROFESSIONAL EXPERIENCE"
    ++ ([nl] ++ pad 12 ++ experience_part ct ++ [nl; nl] ++ pad 12)
    ++ lit "EDUCATION"
    ++ ([nl] ++ pad 12 ++ education_part ct ++ [nl] ++ pad 12).
Proof.
  unfold layout. cbn [join]. repeat rewrite <- app_assoc. reflexivity.
Qed.

(** The resume of the API path, cut at its four headers. *)
Lemma formatted_resume_headers (p : profile) (text : pystr) :
  exists head b c d tail,
    layout p (cleaned U p text)
      = head ++ lit "PROFESSIONAL SUMMARY" ++ b ++ lit "TECHNICAL SKILLS" ++ c
        ++ lit "PROFESSIONAL EXPERIENCE" ++ d ++ lit "EDUCATION" ++ tail
    /\ head = get p "name" (lit "Your Name") ++ [nl] ++ pad 12
                ++ get p "email" (lit "email@example.com") ++ lit " | "
                ++ get p "phone" (lit "Phone") ++ lit " | "
                ++ get p "location" (lit "Location") ++ [nl; nl] ++ pad 12
    /\ formatted_resume U p text
       = lstrip (unbraced head) ++ lit "PROFESSIONAL SUMMARY" ++ unbraced b
         ++ lit "TECHNICAL SKILLS" ++ unbraced c
         ++ lit "PROFESSIONAL EXPERIENCE" ++ unbraced d
         ++ lit "EDUCATION" ++ rstrip (unbraced tail).
Proof.
  do 5 eexists. split; [apply layout_headers|]. split; [done|].
  unfold formatted_resume. rewrite layout_headers.
  fold (unbraced
          ((get p "name" (lit "Your Name") ++ [nl] ++ pad 12
            ++ get p "email" (lit "email@example.com") ++ lit " | "
            ++ get p "phone" (lit "Phone") ++ lit " | "
            ++ get p "location" (lit "Location") ++ [nl; nl] ++ pad 12)
           ++ lit "PROFESSIONAL SUMMARY"
           ++ ([nl] ++ pad 12 ++ summary_part (cleaned U p text) ++ [nl; nl] ++ pad 12)
           ++ lit "TECHNICAL SKILLS"
           ++ ([nl] ++ pad 12 ++ skills_part (cleaned U p text) ++ [nl; nl] ++ pad 12)
           ++ lit "PROFESSIONAL EXPERIENCE"
           ++ ([nl] ++ pad 12 ++ experience_part (cleaned U p text) ++ [nl; nl] ++ pad 12)
           ++ lit "EDUCATION"
           ++ ([nl] ++ pad 12 ++ education_part (cleaned U p text) ++ [nl] ++ pad 12))).
  rewrite !unbraced_app.
  change (unbraced (lit "PROFESSIONAL SUMMARY")) with (lit "PROFESSIONAL SUMMARY").
  change (unbraced (lit "TECHNICAL SKILLS")) with (lit "TECHNICAL SKILLS").
  change (unbraced (lit "PROFESSIONAL EXPERIENCE")) with (lit "PROFESSIONAL EXPERIENCE").
  change (unbraced (lit "EDUCATION")) with (lit "EDUCATION").
  set (h := unbraced (get p "name" (lit "Your Name")) ++ _ ++ _ ++ _ ++ _ ++ _ ++ _ ++ _ ++ _ ++ _).
  set (b := unbraced [nl] ++ unbraced (pad 12) ++ unbraced (summary_part _) ++ _ ++ _).
  set (c := unbraced [nl] ++ unbraced (pad 12) ++ unbraced (skills_part _) ++ _ ++ _).
  set (d := unbraced [nl] ++ unbraced (pad 12) ++ unbraced (experience_part _) ++ _ ++ _).
  set (t := unbraced [nl] ++ unbraced (pad 12) ++ unbraced (education_part _) ++ _ ++ _).
  replace (h ++ lit "PROFESSIONAL SUMMARY" ++ b ++ lit "TECHNICAL SKILLS" ++ c
           ++ lit "PROFESSIONAL EXPERIENCE" ++ d ++ lit "EDUCATION" ++ t)
    with (h ++ lit "PROFESSIONAL SUMMARY"
          ++ (b ++ lit "TECHNICAL SKILLS" ++ c ++ lit "PROFESSIONAL EXPERIENCE" ++ d)
          ++ lit "EDUCATION" ++ t)
    by (by rewrite <- !app_assoc).
  rewrite (strip_between h (lit "PROFESSIONAL SUMMARY") _ (lit "EDUCATION") t
             80%N 78%N (lit "ROFESSIONAL SUMMARY") (lit "EDUCATIO")); [|done..].
  by rewrite <- !app_assoc.
Qed.

(** C10, as the code has it.  On the API path, whatever the completion
    text, the resume returned holds no brace; it holds the four headers
    PROFESSIONAL SUMMARY, TECHNICAL SKILLS, PROFESSIONAL EXPERIENCE and
    EDUCATION in that order; and when the profile's name, its braces
    removed, starts with a code point that is not white space, the resume
    begins with that name, a line break, and the line (indented by twelve
    spaces) [email | phone | location] made of the profile's fields with
    their braces removed, before the first header. *)
Theorem api_resume_shape (api_key text : pystr) (p : profile) (job_description : pystr) :
  api_key <> [] ->
  let resume := generate_resume U (Some api_key) (Completes text) p job_description in
  let name := unbraced (get p "name" (lit "Your Name")) in
  let email := unbraced (get p "email" (lit "email@example.com")) in
  let phone := unbraced (get p "phone" (lit "Phone")) in
  let location := unbraced (get p "location" (lit "Location")) in
  Forall (fun c => c <> lbrace /\ c <> rbrace) resume
  /\ (exists a b c d e,
        resume = a ++ lit "PROFESSIONAL SUMMARY" ++ b ++ lit "TECHNICAL SKILLS" ++ c
                 ++ lit "PROFESSIONAL EXPERIENCE" ++ d ++ lit "EDUCATION" ++ e)
  /\ (forall x rest, name = x :: rest -> isspace x = false ->
      exists b c d e,
        resume = name ++ [nl] ++ pad 12 ++ email ++ lit " | " ++ phone ++ lit " | "
                 ++ location ++ [nl; nl] ++ pad 12
                 ++ lit "PROFESSIONAL SUMMARY" ++ b ++ lit "TECHNICAL SKILLS" ++ c
                 ++ lit "PROFESSIONAL EXPERIENCE" ++ d ++ lit "EDUCATION" ++ e).
Proof.
  intros Hkey resume name email phone location.
  assert (Hres : resume = formatted_resume U p text).
  { subst resume. unfold generate_resume. by destruct api_key. }
  destruct (formatted_resume_headers p text) as (hd & b & c & d & tl & _ & Hhd & Hfmt).
  split; [|split].
  - rewrite Hres. apply Forall_forall. intros ch Hin.
    unfold formatted_resume in Hin. apply elem_of_strip in Hin.
    apply list_elem_of_In, List.filter_In in Hin as [_ Hnb].
    apply negb_true_iff, orb_false_iff in Hnb as [H1 H2].
    apply N.eqb_neq in H1, H2. done.
  - rewrite Hres, Hfmt. by do 5 eexists.
  - intros x rest Hname Hx. rewrite Hres, Hfmt, Hhd, unbraced_head.
    fold name email phone location. rewrite Hname.
    cbn [app]. rewrite lstrip_cons_keep by done.
    exists (unbraced b), (unbraced c), (unbraced d), (rstrip (unbraced tl)).
    cbn [app]. f_equal. rewrite <- !app_assoc. cbn [app].
    repeat (rewrite <- ?app_assoc; cbn [app]; f_equal).
Qed.

End GenFacts.

Lemma fallback_deterministic_witness :
  let p : Gen.profile := <["name"%string := lit "Jane Roe"]> ∅ in
  Gen.generate_resume latin1 None (Gen.Completes (lit "Summary: one")) p (lit "a job")
    = Gen.generate_resume latin1 None Gen.Raises p (lit "a job")
  /\ Gen.generate_cover_letter (Some []) (Gen.Completes (lit "Dear Sir,")) p
       (lit "ACME") (lit "Engineer") (lit "a job")
     = Gen.generate_cover_letter (Some []) Gen.Raises p
         (lit "ACME") (lit "Engineer") (lit "a job").
Proof.
  intros p. split.
  - apply (fallback_deterministic latin1 None (Gen.Completes (lit "Summary: one")) Gen.Raises
             p (lit "ACME") (lit "Engineer") (lit "a job")).
    by left.
  - apply (fallback_deterministic latin1 (Some []) (Gen.Completes (lit "Dear Sir,")) Gen.Raises
             p (lit "ACME") (lit "Engineer") (lit "a job")).
    by right.
Defined.

Lemma api_resume_shape_witness :
  let p : Gen.profile :=
    <["name"%string := lit "Jane {Roe}"]> (<["email"%string := lit "jane@example.com"]> ∅) in
  exists b c d e,
    Gen.generate_resume latin1 (Some (lit "key")) (Gen.Completes (lit "Summary: one {two}"))
      p (lit "a job")
    = lit "Jane Roe" ++ [nl] ++ Gen.pad 12 ++ lit "jane@example.com" ++ lit " | "
      ++ lit "Phone" ++ lit " | " ++ lit "Location" ++ [nl; nl] ++ Gen.pad 12
      ++ lit "PROFESSIONAL SUMMARY" ++ b ++ lit "TECHNICAL SKILLS" ++ c
      ++ lit "PROFESSIONAL EXPERIENCE" ++ d ++ lit "EDUCATION" ++ e.
Proof.
  intros p.
  destruct (api_resume_shape latin1 (lit "key") (lit "Summary: one {two}") p (lit "a job"))
    as (_ & _ & H); [discriminate|].
  apply (H 74%N (lit "ane Roe")); reflexivity.
Defined.

(** C10, as stated, fails on a profile whose name holds braces: the
    resume begins with the name without them, not with the name. *)
Lemma api_resume_drops_braces_of_name :
  let p : Gen.profile :=
    <["name"%string := lit "Jane {Roe}"]> (<["email"%string := lit "jane@example.com"]> ∅) in
  let resume :=
    Gen.generate_resume latin1 (Some (lit "key")) (Gen.Completes (lit "Summary: one"))
      p (lit "a job") in
  startswith (Gen.get p "name" (lit "Your Name")) resume = false
  /\ startswith (lit "Jane Roe" ++ [nl]) resume = true.
Proof. split; vm_compute; reflexivity. Qed.

(* ===================================================================== *)
(** ** More of the application store *)
(* ===================================================================== *)

Section StoreOpsFacts.

Import Store StoreOps.

Implicit Types (rs : list record) (f : file) (r : record).

Lemma in_range_test (i : Z) (n : nat) :
  ((0 <=? i) && (i <? Z.of_nat n))%Z = true <-> (0 <= i < Z.of_nat n)%Z.
Proof. rewrite andb_true_iff, Z.leb_le, Z.ltb_lt. tauto. Qed.

Lemma out_of_range_test (i : Z) (n : nat) :
  (i < 0 \/ Z.of_nat n <= i)%Z -> ((0 <=? i) && (i <? Z.of_nat n))%Z = false.
Proof. intros H. apply andb_false_iff. rewrite Z.leb_gt, Z.ltb_ge. lia. Qed.

(** A read of the file a write of records left returns those records and
    leaves the file. *)
Lemma read_after_write rs :
  get_job_applications (dump (JArr (JObj <$> rs))) = (rs, dump (JArr (JObj <$> rs))).
Proof. apply get_job_applications_records. Qed.

(** X1.  [delete_application] at an index in range succeeds and removes
    that record and no other: the records read afterwards are the records
    before without the one at the index, those before it at their index
    and those after it one index lower.  At an index out of range it
    fails and the records read afterwards are the records before. *)
Theorem delete_application_frame (f : file) (app_index : Z) :
  let before := stored_records f in
  let after := stored_records (delete_application f app_index).2 in
  ((0 <= app_index < Z.of_nat (length before))%Z ->
   (delete_application f app_index).1 = true
   /\ after = delete (Z.to_nat app_index) before
   /\ S (length after) = length before
   /\ (forall j, (j < Z.to_nat app_index)%nat -> after !! j = before !! j)
   /\ (forall j, (Z.to_nat app_index <= j)%nat -> after !! j = before !! S j))
  /\ ((app_index < 0 \/ Z.of_nat (length before) <= app_index)%Z ->
      (delete_application f app_index).1 = false /\ after = before).
Proof.
  intros before after. subst before after. unfold stored_records, delete_application.
  destruct (get_job_applications f) as [apps f1] eqn:Hget. cbn [fst snd].
  split.
  - intros Hi. rewrite (proj2 (in_range_test _ _) Hi). cbn [fst snd].
    rewrite read_after_write. cbn [fst].
    split; [done|]. split; [done|]. split; [|split].
    + rewrite length_delete; [lia|]. apply lookup_lt_is_Some. lia.
    + intros j Hj. by apply list_lookup_delete_lt.
    + intros j Hj. by apply list_lookup_delete_ge.
  - intros Hi. rewrite (out_of_range_test _ _ Hi). cbn [fst snd].
    split; [done|].
    pose proof (get_job_applications_again f) as Hagain.
    by rewrite Hget in Hagain.
Qed.

Lemma delete_application_frame_witness :
  let a : record := {[ lit "company_name" := JStr (lit "A") ]} in
  let b : record := {[ lit "company_name" := JStr (lit "B") ]} in
  stored_records (delete_application (Holds (JArr [JObj a; JStr (lit "x"); JObj b])) 0).2 = [b]
  /\ stored_records (delete_application (Holds (JArr [JObj a; JObj b])) 2).2 = [a; b].
Proof.
  intros a b. split.
  - destruct (delete_application_frame (Holds (JArr [JObj a; JStr (lit "x"); JObj b])) 0)
      as [Hin _].
    destruct Hin as (_ & H & _); [by vm_compute|]. exact H.
  - destruct (delete_application_frame (Holds (JArr [JObj a; JObj b])) 2) as [_ Hout].
    destruct Hout as [_ H]; [right; by vm_compute|]. exact H.
Defined.

(** X2.  [save_job_application] succeeds on every file, and the records
    read afterwards are the records read before followed by the new one;
    on a file that is missing, empty or not JSON the new record is the
    only one. *)
Theorem save_job_application_appends (f : file) (application_data : record) :
  (save_job_application f application_data).1 = true
  /\ stored_records (save_job_application f application_data).2
     = stored_records f ++ [application_data]
  /\ get_job_applications (save_job_application f application_data).2
     = (stored_records f ++ [application_data],
        (save_job_application f application_data).2)
  /\ stored_records (save_job_application Missing application_data).2 = [application_data]
  /\ stored_records (save_job_application Empty application_data).2 = [application_data]
  /\ stored_records (save_job_application Garbled application_data).2 = [application_data].
Proof.
  assert (Hgen : forall g,
    get_job_applications (save_job_application g application_data).2
    = (stored_records g ++ [application_data], (save_job_application g application_data).2)).
  { intros g. unfold stored_records, save_job_application.
    destruct (get_job_applications g) as [apps f1]. cbn [fst snd].
    apply read_after_write. }
  split; [|split; [|split; [|split; [|split]]]].
  - unfold save_job_application. by destruct (get_job_applications f).
  - unfold stored_records at 1. by rewrite Hgen.
  - apply Hgen.
  - unfold stored_records at 1. by rewrite Hgen.
  - unfold stored_records at 1. by rewrite Hgen.
  - unfold stored_records at 1. by rewrite Hgen.
Qed.

(** X3.  [update_application_status] at any index in range, on any file:
    it succeeds, the records read afterwards are as many as before, the
    record at the index has the new status and the time of the update,
    its other fields are as before, and every other record is as
    before. *)
Theorem update_application_status_in_range (now new_status : pystr) (f : file)
    (app_index : Z) :
  (0 <= app_index < Z.of_nat (length (stored_records f)))%Z ->
  let before := stored_records f in
  let after := stored_records (update_application_status now f app_index new_status).2 in
  (update_application_status now f app_index new_status).1 = true
  /\ length after = length before
  /\ (forall j, j <> Z.to_nat app_index -> after !! j = before !! j)
  /\ exists old new,
       before !! Z.to_nat app_index = Some old
       /\ after !! Z.to_nat app_index = Some new
       /\ new !! lit "status" = Some (JStr new_status)
       /\ new !! lit "updated_at" = Some (JStr now)
       /\ forall k, k <> lit "status" -> k <> lit "updated_at" -> new !! k = old !! k.
Proof.
  intros Hi before after. subst before after.
  unfold stored_records in *. unfold update_application_status.
  destruct (get_job_applications f) as [apps f1]. cbn [fst snd] in *.
  rewrite (proj2 (in_range_test _ _) Hi). cbn [fst snd].
  rewrite read_after_write. cbn [fst].
  split; [done|]. split; [by rewrite length_alter|]. split.
  - intros j Hj. by rewrite list_lookup_alter_ne.
  - destruct (lookup_lt_is_Some_2 apps (Z.to_nat app_index)) as [old Hold]; [lia|].
    exists old. eexists. split; [done|]. split.
    + rewrite list_lookup_alter_eq, Hold. done.
    + split; [|split].
      * rewrite lookup_insert_ne by done. apply lookup_insert_eq.
      * apply lookup_insert_eq.
      * intros k H1 H2. by rewrite !lookup_insert_ne.
Qed.

Lemma update_application_status_in_range_witness :
  let a : record := {[ lit "company_name" := JStr (lit "A") ]} in
  let b : record := {[ lit "company_name" := JStr (lit "B") ]} in
  let f := Holds (JArr [JObj a; JInt 7; JObj b]) in
  (update_application_status (lit "2024-05-01T10:00:00") f 1 (lit "offered")).1 = true
  /\ stored_records (update_application_status (lit "2024-05-01T10:00:00") f 1 (lit "offered")).2
       !! 0%nat = Some a.
Proof.
  intros a b f.
  destruct (update_application_status_in_range (lit "2024-05-01T10:00:00") (lit "offered") f 1)
    as (Hok & _ & Hother & _); [by vm_compute|].
  split; [exact Hok|]. rewrite Hother; [|discriminate]. reflexivity.
Defined.

(** X4.  A profile that has at least one field is read back as saved; an
    empty profile, like the file a fresh start creates, reads as no
    profile; and a fresh start leaves files that exist as they are and
    makes the applications file an empty list. *)
Theorem profile_round_trip (profile_data : record) (profiles applications : file) :
  (save_user_profile profile_data).1 = true
  /\ (profile_data <> ∅ ->
      load_user_profile (save_user_profile profile_data).2 = Some (JObj profile_data))
  /\ load_user_profile (save_user_profile ∅).2 = None
  /\ load_user_profile (_ensure_data_directory Missing applications).1 = None
  /\ get_job_applications (_ensure_data_directory profiles Missing).2
     = ([], (_ensure_data_directory profiles Missing).2)
  /\ (profiles <> Missing -> (_ensure_data_directory profiles applications).1 = profiles)
  /\ (applications <> Missing ->
      (_ensure_data_directory profiles applications).2 = applications).
Proof.
  split; [done|]. split; [|split; [done|split; [done|split; [done|split]]]].
  - intros Hne. unfold save_user_profile, load_user_profile, dump. cbn [snd truthy_json].
    destruct (Nat.eqb (size profile_data) 0) eqn:E; [|done].
    apply Nat.eqb_eq, map_size_empty_iff in E. done.
  - intros H. by destruct profiles.
  - intros H. by destruct applications.
Qed.

Lemma profile_round_trip_witness :
  let p : record := {[ lit "name" := JStr (lit "Ada") ]} in
  load_user_profile (save_user_profile p).2 = Some (JObj p)
  /\ (_ensure_data_directory Garbled Empty).1 = Garbled.
Proof.
  intros p.
  destruct (profile_round_trip p Garbled Empty) as (_ & Hload & _ & _ & _ & Hkeep & _).
  split.
  - apply Hload. intros E. apply (f_equal (fun m => m !! lit "name")) in E.
    by vm_compute in E.
  - by apply Hkeep.
Defined.

Section Counting.

Variable U : casing.

Lemma count_status_lookup (stats : gmap pystr Z) (status k : pystr) :
  count_status stats status !! k
  = (fun n => (n + (if bool_decide (Some status = Some k) then 1 else 0))%Z) <$> stats !! k.
Proof.
  unfold count_status.
  destruct (stats !! status) as [n|] eqn:E.
  - destruct (decide (status = k)) as [->|Hne].
    + rewrite lookup_insert_eq, E, bool_decide_eq_true_2 by done. done.
    + rewrite lookup_insert_ne by done.
      rewrite bool_decide_eq_false_2 by congruence.
      destruct (stats !! k); csimpl; [f_equal; lia|done].
  - destruct (decide (status = k)) as [->|Hne].
    + by rewrite E.
    + rewrite bool_decide_eq_false_2 by congruence.
      destruct (stats !! k); csimpl; [f_equal; lia|done].
Qed.

Lemma status_count_cons (k : pystr) (app : record) (rest : list record) :
  status_count U k (app :: rest)
  = ((if bool_decide (lowered_field U app (lit "status") (lit "pending") = Some k)
      then 1 else 0) + status_count U k rest)%Z.
Proof.
  unfold status_count. cbn [List.filter].
  destruct (bool_decide _); cbn [length]; lia.
Qed.

Lemma status_count_app (k : pystr) (xs ys : list record) :
  status_count U k (xs ++ ys) = (status_count U k xs + status_count U k ys)%Z.
Proof. unfold status_count. rewrite List.filter_app, length_app. lia. Qed.

Lemma status_count_nonneg (k : pystr) (apps : list record) : (0 <= status_count U k apps)%Z.
Proof. unfold status_count. lia. Qed.

(** The loop returns exactly when every status is a string, and then
    every key the dictionary had has grown by the number of records with
    that status. *)
Lemma count_all_spec (apps : list record) (stats : gmap pystr Z) :
  Forall (text_status U) apps ->
  exists stats', count_all U stats apps = Some stats'
    /\ forall k, stats' !! k = (fun n => (n + status_count U k apps)%Z) <$> stats !! k.
Proof.
  revert stats. induction apps as [|app rest IH]; intros stats Hall.
  - exists stats. split; [done|]. intros k. unfold status_count. cbn.
    destruct (stats !! k); csimpl; [f_equal; lia|done].
  - apply Forall_cons in Hall as [[status Hs] Hrest].
    destruct (IH (count_status stats status) Hrest) as (stats' & Hrun & Hk).
    exists stats'. cbn [count_all]. rewrite Hs. split; [done|].
    intros k. rewrite Hk, count_status_lookup, status_count_cons, Hs.
    destruct (stats !! k); csimpl; [f_equal; lia|done].
Qed.

Lemma count_all_returns (apps : list record) (stats : gmap pystr Z) :
  is_Some (count_all U stats apps) <-> Forall (text_status U) apps.
Proof.
  split.
  - revert stats. induction apps as [|app rest IH]; intros stats H; [done|].
    cbn [count_all] in H.
    destruct (lowered_field U app (lit "status") (lit "pending")) as [status|] eqn:E.
    + apply Forall_cons. split; [unfold text_status; by rewrite E|by eapply IH].
    + by destruct H.
  - intros H. destruct (count_all_spec apps stats H) as (s & -> & _). done.
Qed.

(** No record is counted under two of the statuses shown. *)
Lemma shown_counts_bounded (apps : list record) :
  (status_count U (lit "pending") apps + status_count U (lit "interview") apps
   + status_count U (lit "rejected") apps + status_count U (lit "offered") apps
   + status_count U (lit "accepted") apps + status_count U (lit "total_applications") apps
   <= Z.of_nat (length apps))%Z.
Proof.
  induction apps as [|app rest IH]; [done|].
  rewrite !status_count_cons. cbn [length].
  destruct (lowered_field U app (lit "status") (lit "pending")) as [s|].
  - repeat match goal with
    | |- context [bool_decide (Some ?a = Some ?k)] =>
        let E := fresh "E" in
        destruct (decide (Some a = Some k)) as [E|E];
        [rewrite (bool_decide_eq_true_2 _ E);
         try (exfalso; by vm_compute in E); injection E as ->
        |rewrite (bool_decide_eq_false_2 _ E); clear E]
    end; lia.
  - rewrite !bool_decide_eq_false_2 by done. lia.
Qed.

End Counting.

(** X5.  [get_application_stats] returns exactly when the status of every
    record, where there is one, is a string (otherwise [lower] raises).
    When it returns, each status shown counts the records whose status is
    that word in any case, a record without a status counting as
    pending; the total is the number of records plus the number of
    records whose status reads total_applications; the dictionary has no
    other key; and the statuses shown sum to at most the number of
    records. *)
Theorem get_application_stats_counts (U : casing) (f : file) :
  let apps := stored_records f in
  (is_Some (get_application_stats U f).1 <-> Forall (text_status U) apps)
  /\ forall stats, (get_application_stats U f).1 = Some stats ->
       stats !! lit "total_applications"
       = Some (Z.of_nat (length apps) + status_count U (lit "total_applications") apps)%Z
       /\ (forall k, k ∈ shown_statuses -> stats !! k = Some (status_count U k apps))
       /\ (forall k, k ∉ lit "total_applications" :: shown_statuses -> stats !! k = None)
       /\ (status_count U (lit "pending") apps + status_count U (lit "interview") apps
           + status_count U (lit "rejected") apps + status_count U (lit "offered") apps
           + status_count U (lit "accepted") apps <= Z.of_nat (length apps))%Z.
Proof.
  intros apps. subst apps. unfold stored_records, get_application_stats.
  destruct (get_job_applications f) as [apps f1]. cbn [fst snd].
  split; [apply count_all_returns|].
  intros stats Hrun.
  assert (Hall : Forall (text_status U) apps).
  { apply (count_all_returns U apps (initial_stats (Z.of_nat (length apps)))).
    by rewrite Hrun. }
  destruct (count_all_spec U apps (initial_stats (Z.of_nat (length apps))) Hall)
    as (stats' & Hrun' & Hk).
  rewrite Hrun in Hrun'. injection Hrun' as <-.
  split; [|split; [|split]].
  - by rewrite Hk.
  - intros k Hin. rewrite Hk. unfold shown_statuses in Hin.
    repeat (apply elem_of_cons in Hin as [->|Hin]; [vm_compute; by rewrite ?Z.add_0_l|]).
    by apply elem_of_nil in Hin.
  - intros k Hout. rewrite Hk. unfold initial_stats.
    rewrite !lookup_insert_ne; [done|..];
      intros <-; apply Hout; unfold shown_statuses; set_solver.
  - pose proof (shown_counts_bounded U apps).
    pose proof (status_count_nonneg U (lit "total_applications") apps). lia.
Qed.

Lemma get_application_stats_counts_witness :
  let a : record := {[ lit "status" := JStr (lit "Interview") ]} in
  let b : record := {[ lit "company_name" := JStr (lit "B") ]} in
  let f := Holds (JArr [JObj a; JObj b]) in
  exists stats, (get_application_stats latin1 f).1 = Some stats
    /\ stats !! lit "total_applications" = Some 2%Z
    /\ stats !! lit "interview" = Some 1%Z
    /\ stats !! lit "pending" = Some 1%Z.
Proof.
  intros a b f.
  destruct (get_application_stats latin1 f).1 as [stats|] eqn:Hrun;
    [|exfalso; by vm_compute in Hrun].
  exists stats. split; [reflexivity|].
  destruct (get_application_stats_counts latin1 f) as [_ Hcount].
  destruct (Hcount stats Hrun) as (Htotal & Hshown & _).
  split; [exact Htotal|]. split; (rewrite Hshown; [reflexivity|]).
  - unfold shown_statuses. apply elem_of_cons. right. apply elem_of_cons. by left.
  - unfold shown_statuses. apply elem_of_cons. by left.
Defined.

Section Searching.

Variable U : casing.

Lemma ascii_lower_upper (c : N) : is_ascii c = true -> ascii_lower (ascii_upper c) = ascii_lower c.
Proof.
  unfold is_ascii, ascii_lower, ascii_upper. intros H%N.ltb_lt.
  destruct (N.leb_spec 97 c), (N.leb_spec c 122); cbn [andb];
    repeat match goal with
    | |- context [(?a <=? ?b)%N] => destruct (N.leb_spec a b); cbn [andb]
    end; lia.
Qed.

Lemma ascii_upper_ascii (c : N) : is_ascii c = true -> is_ascii (ascii_upper c) = true.
Proof.
  unfold is_ascii, ascii_upper. intros H%N.ltb_lt.
  destruct (_ && _); apply N.ltb_lt; lia.
Qed.

Lemma upper_ascii (t : pystr) :
  forallb is_ascii t = true -> upper U t = List.map ascii_upper t.
Proof.
  unfold upper. induction t as [|c t IH]; [done|].
  cbn [forallb flat_map List.map]. intros [Hc Ht]%andb_true_iff.
  by rewrite Hc, IH.
Qed.

(** Lower-casing does not see the case of an ASCII text. *)
Lemma lower_upper_ascii (t : pystr) :
  forallb is_ascii t = true -> lower U (upper U t) = lower U t.
Proof.
  intros H. rewrite upper_ascii by done. unfold lower. rewrite H.
  assert (Hup : forallb is_ascii (List.map ascii_upper t) = true).
  { rewrite forallb_forall in *. intros c [d [<- Hd]]%in_map_iff.
    apply ascii_upper_ascii. by apply H. }
  rewrite Hup, List.map_map.
  apply List.map_ext_in. intros c Hc. apply ascii_lower_upper.
  rewrite forallb_forall in H. by apply H.
Qed.

Lemma contains_nil s : contains [] s = true.
Proof. by destruct s. Qed.

Lemma contains_refl s : contains s s = true.
Proof. apply contains_spec. exists [], []. by rewrite app_nil_r. Qed.

Lemma search_loop_returns (t : pystr) (apps : list record) :
  is_Some (search_loop U t apps) <-> Forall (text_names U) apps.
Proof.
  induction apps as [|app rest IH]; [by split|].
  cbn [search_loop]. rewrite Forall_cons. unfold text_names at 1.
  destruct (lowered_field U app (lit "company_name") []) as [c|];
    [|split; [by intros []|by intros [[[] _] _]]].
  destruct (lowered_field U app (lit "position_title") []) as [p|];
    [|split; [by intros []|by intros [[_ []] _]]].
  rewrite <- IH.
  destruct (search_loop U t rest) as [res|].
  - destruct (_ || _); split; eauto.
  - split; [by intros []|by intros [_ []]].
Qed.

Lemma search_loop_sublist (t : pystr) (apps res : list record) :
  search_loop U t apps = Some res -> sublist res apps.
Proof.
  revert res. induction apps as [|app rest IH]; intros res H; cbn [search_loop] in H.
  - injection H as <-. constructor.
  - destruct (lowered_field U app (lit "company_name") []); [|done].
    destruct (lowered_field U app (lit "position_title") []); [|done].
    destruct (search_loop U t rest) as [r|]; [|done].
    destruct (_ || _); injection H as <-.
    + apply sublist_skip. by apply IH.
    + apply sublist_cons. by apply IH.
Qed.

Lemma search_loop_all (apps : list record) :
  Forall (text_names U) apps -> search_loop U [] apps = Some apps.
Proof.
  induction apps as [|app rest IH]; [done|].
  intros [[[c Hc] [p Hp]] Hrest]%Forall_cons. cbn [search_loop].
  rewrite Hc, Hp, (IH Hrest), contains_nil. done.
Qed.

Lemma search_loop_finds (t : pystr) (apps res : list record) (app : record) (c : pystr) :
  search_loop U (lower U t) apps = Some res ->
  app ∈ apps ->
  app !! lit "company_name" = Some (JStr c) ->
  contains (lower U t) (lower U c) = true ->
  app ∈ res.
Proof.
  revert res. induction apps as [|a rest IH]; intros res H Hin Hc Hsub.
  - by apply elem_of_nil in Hin.
  - cbn [search_loop] in H.
    destruct (lowered_field U a (lit "company_name") []) as [ca|] eqn:Eca; [|done].
    destruct (lowered_field U a (lit "position_title") []) as [pa|]; [|done].
    destruct (search_loop U (lower U t) rest) as [r|]; [|done].
    apply elem_of_cons in Hin as [->|Hin].
    + unfold lowered_field in Eca. rewrite Hc in Eca. injection Eca as <-.
      rewrite Hsub in H. injection H as <-. apply elem_of_cons. by left.
    + specialize (IH r eq_refl Hin Hc Hsub).
      destruct (_ || _); injection H as <-; [apply elem_of_cons; by right|done].
Qed.

End Searching.

(** X6.  [search_applications] returns exactly when the company name and
    the position title of every record, where present, are strings.  The
    records it returns are records of the file, in the order of the file;
    the empty term returns them all; a record is found by its own company
    name; and an ASCII term finds the same records in upper case. *)
Theorem search_applications_term (U : casing) (f : file) (search_term : pystr) :
  let apps := stored_records f in
  (is_Some (search_applications U f search_term).1 <-> Forall (text_names U) apps)
  /\ (forall results, (search_applications U f search_term).1 = Some results ->
        sublist results apps)
  /\ (Forall (text_names U) apps -> (search_applications U f []).1 = Some apps)
  /\ (forall results app,
        (search_applications U f search_term).1 = Some results ->
        app ∈ apps -> app !! lit "company_name" = Some (JStr search_term) ->
        app ∈ results)
  /\ (forallb is_ascii search_term = true ->
      search_applications U f (upper U search_term) = search_applications U f search_term).
Proof.
  intros apps. subst apps. unfold stored_records, search_applications.
  destruct (get_job_applications f) as [apps f1]. cbn [fst snd].
  split; [apply search_loop_returns|].
  split; [intros results; apply search_loop_sublist|].
  split; [apply search_loop_all|].
  split.
  - intros results app Hrun Hin Hc.
    by apply (search_loop_finds U search_term apps results app search_term Hrun Hin Hc),
             contains_refl.
  - intros Hascii. by rewrite lower_upper_ascii.
Qed.

Lemma search_applications_term_witness :
  let a : record :=
    {[ lit "company_name" := JStr (lit "Acme"); lit "position_title" := JStr (lit "Engineer") ]} in
  let f := Holds (JArr [JObj a]) in
  (search_applications latin1 f []).1 = Some [a]
  /\ search_applications latin1 f (upper latin1 (lit "acme"))
     = search_applications latin1 f (lit "acme").
Proof.
  intros a f.
  destruct (search_applications_term latin1 f (lit "acme")) as (_ & _ & Hall & _ & Hup).
  split.
  - change (stored_records f) with [a] in Hall. apply Hall.
    apply Forall_cons. split; [|by apply Forall_nil].
    split; eexists; reflexivity.
  - by apply Hup.
Defined.

(* ===================================================================== *)
(** ** The record of a generated document *)
(* ===================================================================== *)

Section Recording.

Import App.

Variable U : casing.

Lemma initial_stats_total (n : Z) :
  initial_stats n !! lit "total_applications" = Some n.
Proof. apply lookup_insert_eq. Qed.

Lemma initial_stats_other (n m : Z) (k : pystr) :
  k <> lit "total_applications" -> initial_stats n !! k = initial_stats m !! k.
Proof. intros H. unfold initial_stats. by rewrite !(lookup_insert_ne _ (lit "total_applications")). Qed.

(** The statistics after a record with status pending is saved. *)
Lemma stats_after_pending (f : file) (r : record) (stats : gmap pystr Z) :
  lowered_field U r (lit "status") (lit "pending") = Some (lit "pending") ->
  (get_application_stats U f).1 = Some stats ->
  exists stats',
    (get_application_stats U (save_job_application f r).2).1 = Some stats'
    /\ forall k,
         stats' !! k
         = (fun n => (n + (if bool_decide (k ∈ [lit "total_applications"; lit "pending"])
                           then 1 else 0))%Z) <$> stats !! k.
Proof.
  intros Hr. unfold get_application_stats, save_job_application.
  destruct (get_job_applications f) as [apps f1]. cbn [fst snd].
  rewrite read_after_write. cbn [fst snd]. intros Hrun.
  assert (Hall : Forall (text_status U) apps).
  { apply (count_all_returns U apps (initial_stats (Z.of_nat (length apps)))).
    by rewrite Hrun. }
  destruct (count_all_spec U apps (initial_stats (Z.of_nat (length apps))) Hall)
    as (s0 & Hs0 & Hk0).
  rewrite Hrun in Hs0. injection Hs0 as <-.
  assert (Hall' : Forall (text_status U) (apps ++ [r])).
  { apply Forall_app. split; [done|]. apply Forall_singleton.
    unfold text_status. by rewrite Hr. }
  destruct (count_all_spec U (apps ++ [r]) (initial_stats (Z.of_nat (length (apps ++ [r]))))
              Hall') as (stats' & Hrun' & Hk').
  exists stats'. split; [done|]. intros k.
  rewrite Hk', Hk0, status_count_app, (status_count_cons U k r []), Hr.
  change (status_count U k []) with 0%Z.
  rewrite length_app. cbn [length].
  destruct (decide (k = lit "total_applications")) as [->|Hne].
  - rewrite !initial_stats_total. csimpl. f_equal. lia.
  - rewrite (initial_stats_other (Z.of_nat (length apps + 1)) (Z.of_nat (length apps)) k Hne).
    destruct (initial_stats (Z.of_nat (length apps)) !! k) as [n|]; csimpl; [|done].
    f_equal. destruct (decide (k = lit "pending")) as [->|Hnp].
    + rewrite ?bool_decide_eq_true_2 by (done || set_solver). lia.
    + rewrite bool_decide_eq_false_2 by congruence.
      rewrite bool_decide_eq_false_2; [lia|].
      intros [->|Hin]%elem_of_cons; [done|].
      apply elem_of_cons in Hin as [->|Hin]; [done|]. by apply elem_of_nil in Hin.
Qed.

Lemma stored_description_bound (job_description : pystr) :
  length (stored_description job_description) <= 503
  /\ firstn 500 (stored_description job_description) = firstn 500 job_description
  /\ (length job_description <= 500 -> stored_description job_description = job_description).
Proof.
  unfold stored_description.
  destruct (Nat.ltb_spec 500 (length job_description)) as [Hlong|Hshort].
  - split; [|split].
    + rewrite length_app, length_firstn.
      change (length (lit "...")) with 3. lia.
    + rewrite firstn_app, length_firstn, firstn_firstn.
      replace (500 - 500 `min` length job_description) with 0 by lia.
      cbn [firstn]. rewrite app_nil_r. f_equal.
    + lia.
  - split; [lia|done].
Qed.

End Recording.

(** X7.  The record that main.py saves when a resume or a cover letter
    has been generated becomes the last record of the file, holds at most
    503 code points of the job description, the first 500 being those of
    the description, and raises the total and the pending count of the
    statistics by one, every other count staying as it was. *)
Theorem recorded_document_is_pending (U : casing) (f : file)
    (company_name position_title now job_description : pystr)
    (r : record) (stats : gmap pystr Z) :
  r = App.resume_app_data company_name position_title now job_description
  \/ r = App.cover_letter_app_data company_name position_title now job_description ->
  (get_application_stats U f).1 = Some stats ->
  let f' := (save_job_application f r).2 in
  stored_records f' = stored_records f ++ [r]
  /\ (exists d, r !! lit "job_description" = Some (JStr d)
        /\ length d <= 503
        /\ firstn 500 d = firstn 500 job_description)
  /\ exists stats',
       (get_application_stats U f').1 = Some stats'
       /\ forall k,
            stats' !! k
            = (fun n => (n + (if bool_decide (k ∈ [lit "total_applications"; lit "pending"])
                              then 1 else 0))%Z) <$> stats !! k.
Proof.
  intros Hr Hstats f'. subst f'.
  split; [|split].
  - unfold stored_records, save_job_application.
    destruct (get_job_applications f) as [apps f1]. cbn [fst snd].
    by rewrite read_after_write.
  - exists (App.stored_description job_description).
    destruct (stored_description_bound job_description) as (Hlen & Hpre & _).
    split; [|done].
    destruct Hr as [-> | ->]; unfold App.resume_app_data, App.cover_letter_app_data;
      lookup_inserts.
  - apply stats_after_pending; [|done].
    destruct Hr as [-> | ->]; reflexivity.
Qed.

Lemma recorded_document_is_pending_witness :
  let r := App.resume_app_data (lit "Acme") (lit "Engineer") (lit "2024-05-01T10:00:00")
             (lit "Build things") in
  exists stats',
    (get_application_stats latin1 (save_job_application Missing r).2).1 = Some stats'
    /\ stats' !! lit "pending" = Some 1%Z.
Proof.
  intros r.
  destruct (recorded_document_is_pending latin1 Missing (lit "Acme") (lit "Engineer")
              (lit "2024-05-01T10:00:00") (lit "Build things") r
              (initial_stats 0)) as (_ & _ & stats' & Hrun & Hk);
    [by left|reflexivity|].
  exists stats'. split; [exact Hrun|]. rewrite Hk. reflexivity.
Defined.

End StoreOpsFacts.

(* ===================================================================== *)
(** ** More facts about lines *)
(* ===================================================================== *)

Section MoreLines.

Lemma split_from_none sep s : contains sep s = false -> split_from sep 0 s = (s, []).
Proof.
  induction s as [|c s IH]; [done|].
  intros [Hhere Hrest]%contains_cons_false.
  cbn [split_from]. rewrite Hhere, (IH Hrest). done.
Qed.

(** A text that does not hold the separator is one piece. *)
Lemma split_none sep s : contains sep s = false -> split sep s = [s].
Proof. intros H. unfold split. by rewrite split_from_none. Qed.

Lemma contains_nl_cons c s :
  contains [nl] (c :: s) = false <-> (nl =? c)%N = false /\ contains [nl] s = false.
Proof.
  rewrite contains_cons. cbn [startswith]. rewrite andb_true_r. apply orb_false_iff.
Qed.

(** No line of a text holds a line break. *)
Lemma split_nl_elem s l : l ∈ split [nl] s -> contains [nl] l = false.
Proof.
  revert l. induction s as [|c s IH]; intros l.
  - intros ->%list_elem_of_singleton. done.
  - rewrite split_nl_cons. destruct (nl =? c)%N eqn:Hc.
    + intros [->|Hin]%elem_of_cons; [done|by apply IH].
    + pose proof (split_nl_nonempty s) as Hne.
      destruct (split [nl] s) as [|h t]; [done|].
      intros [->|Hin]%elem_of_cons.
      * apply contains_nl_cons. split; [done|]. apply IH, elem_of_cons. by left.
      * apply IH, elem_of_cons. by right.
Qed.

(** Joining lines and splitting the text gives the lines back. *)
Lemma split_join_nl ls :
  ls <> [] -> Forall (fun l => contains [nl] l = false) ls ->
  split [nl] (join [nl] ls) = ls.
Proof.
  induction ls as [|l ls IH]; [done|]. intros _ [Hl Hls]%Forall_cons.
  destruct ls as [|l' ls].
  - cbn [join]. by apply split_nl_line.
  - change (join [nl] (l :: l' :: ls)) with (l ++ nl :: join [nl] (l' :: ls)).
    rewrite split_nl_app, (split_nl_line l Hl), IH; done.
Qed.

Lemma no_blank_after p x :
  contains [nl] p = false ->
  startswith [nl] x = false -> contains [nl; nl] x = false ->
  contains [nl; nl] (p ++ nl :: x) = false.
Proof.
  intros Hp Hx Hxx. induction p as [|c p IH].
  - cbn [app]. rewrite contains_cons. apply orb_false_iff. split; [|done].
    cbn [startswith]. rewrite N.eqb_refl. cbn [andb].
    destruct x as [|d x]; [done|]. cbn [startswith] in *. by rewrite Hx.
  - apply contains_nl_cons in Hp as [Hc Hp].
    cbn [app]. rewrite contains_cons. apply orb_false_iff. split; [|by apply IH].
    cbn [startswith]. by rewrite Hc.
Qed.

Lemma startswith_nl_app (l x : pystr) :
  l <> [] -> contains [nl] l = false -> startswith [nl] (l ++ x) = false.
Proof.
  destruct l as [|c l]; [done|]. intros _ [Hc _]%contains_nl_cons.
  cbn [app startswith]. by rewrite Hc.
Qed.

Lemma no_blank_line l : contains [nl] l = false -> contains [nl; nl] l = false.
Proof.
  induction l as [|c l IH]; [done|]. intros [Hc Hl]%contains_nl_cons.
  rewrite contains_cons. apply orb_false_iff. split; [|by apply IH].
  cbn [startswith]. by rewrite Hc.
Qed.

(** Lines that are not empty, joined, leave no empty line. *)
Lemma join_dense ls :
  Forall (fun l => l <> [] /\ contains [nl] l = false) ls ->
  contains [nl; nl] (join [nl] ls) = false
  /\ (ls <> [] -> startswith [nl] (join [nl] ls) = false).
Proof.
  induction ls as [|l ls IH]; [done|]. intros [[Hne Hl] Hls]%Forall_cons.
  destruct ls as [|l' ls].
  - cbn [join]. split; [by apply no_blank_line|].
    intros _. rewrite <- (app_nil_r l). by apply startswith_nl_app.
  - change (join [nl] (l :: l' :: ls)) with (l ++ nl :: join [nl] (l' :: ls)).
    destruct (IH Hls) as [Hxx Hx]. split.
    + apply no_blank_after; [done| |done]. by apply Hx.
    + intros _. by apply startswith_nl_app.
Qed.

Lemma strip_lstrip s : strip (lstrip s) = strip s.
Proof. unfold strip. by rewrite lstrip_idemp. Qed.

Lemma lstrip_blank s : lstrip s = [] -> strip s = [].
Proof. unfold strip. by intros ->. Qed.

(** Trimming on the left stops in a text that is not blank. *)
Lemma lstrip_app_nonblank a b : strip a <> [] -> lstrip (a ++ b) = lstrip a ++ b.
Proof.
  induction a as [|c a IH]; [done|]. intros H.
  cbn [app lstrip]. destruct (isspace c) eqn:E; [|done].
  apply IH. intros Hs. apply H. unfold strip in *. cbn [lstrip]. by rewrite E.
Qed.

End MoreLines.

(* ===================================================================== *)
(** ** What the normaliser puts in a section *)
(* ===================================================================== *)

Section Shape.

Variable U : casing.

Lemma made_of_more seen x body : made_of U seen body -> made_of U (seen ++ x) body.
Proof.
  intros (ls & -> & Hsub & Hall). exists ls. split; [done|]. split; [|done].
  by apply sublist_inserts_r.
Qed.

Lemma made_of_nil seen : made_of U seen [].
Proof. exists []. split; [done|]. split; [apply sublist_nil_l|done]. Qed.

Lemma shape_inv_more seen x secs cs cc :
  shape_inv U seen (PState secs cs cc) ->
  forall secs', (forall k, k ∈ body_keys -> secs' !! k = secs !! k) ->
  shape_inv U (seen ++ x) (PState secs' cs cc).
Proof.
  intros (Hsec & Hsub & Hall) secs' Hsame. split; [|split]; cbn.
  - intros k Hk body Hb. apply made_of_more. apply (Hsec k Hk). cbn.
    by rewrite <- Hsame.
  - by apply sublist_inserts_r.
  - done.
Qed.

Lemma flush_shape seen st k body :
  shape_inv U seen st -> k ∈ body_keys -> flush st !! k = Some body ->
  made_of U seen body.
Proof.
  intros (Hsec & Hsub & Hall) Hk. unfold flush.
  destruct (cursor_set (current_section st)) as [j|]; [|by apply Hsec].
  destruct (current_content st) as [|l cc] eqn:Hcc; [by apply Hsec|].
  destruct (decide (j = k)) as [->|Hne].
  - rewrite lookup_insert_eq. intros [= <-]. by exists (l :: cc).
  - rewrite lookup_insert_ne by done. by apply Hsec.
Qed.

Lemma insert_not_body (secs : gmap string pystr) (j : string) (v : pystr) :
  j ∉ body_keys -> forall k, k ∈ body_keys -> <[j := v]> secs !! k = secs !! k.
Proof. intros Hj k Hk. apply lookup_insert_ne. by intros ->. Qed.

(** A turn of the loop keeps the shape of the sections. *)
Lemma step_shape seen st st' raw :
  shape_inv U seen st -> step U st raw = Ok st' ->
  shape_inv U (seen ++ [strip raw]) st'.
Proof.
  intros Hinv. destruct st as [secs cs cc]. unfold step. cbn [sections current_section
    current_content].
  destruct (skipped (strip raw)) eqn:Hs.
  { intros [= <-]. by apply (shape_inv_more seen [strip raw] secs cs cc). }
  destruct (header_of _) as [k|] eqn:Hh.
  { intros [= <-]. unfold enter. split; [|split]; cbn.
    - intros j Hj body Hb. apply made_of_more. by apply (flush_shape seen _ j body Hinv).
    - apply sublist_nil_l.
    - done. }
  unfold getitem. destruct (secs !! "name"%string) as [n|]; [|done]. cbn [mbind exc_bind].
  destruct (negb (truthy n) && name_like (strip raw)).
  { intros [= <-]. apply (shape_inv_more seen [strip raw] secs cs cc Hinv).
    apply insert_not_body, name_not_body. }
  destruct (contact_like (strip raw)) eqn:Hc.
  { intros [= <-]. apply (shape_inv_more seen [strip raw] secs cs cc Hinv).
    apply insert_not_body, contact_not_body. }
  destruct (cursor_set cs).
  { intros [= <-]. destruct Hinv as (Hsec & Hsub & Hall). split; [|split]; cbn.
    - intros j Hj body Hb. apply made_of_more. by apply (Hsec j Hj).
    - by apply sublist_app.
    - apply Forall_app. split; [done|]. apply Forall_singleton.
      split; [|apply strip_idemp].
      unfold body_line. rewrite strip_idemp, Hs, Hh, Hc.
      by rewrite bool_decide_eq_true_2. }
  destruct (secs !! "additional"%string) as [extra|]; [|done]. cbn [mbind exc_bind].
  intros [= <-]. apply (shape_inv_more seen [strip raw] secs cs cc Hinv).
  apply insert_not_body, additional_not_body.
Qed.

Lemma for_each_shape lines seen st st' :
  shape_inv U seen st -> for_each (step U) st lines = Ok st' ->
  shape_inv U (seen ++ List.map strip lines) st'.
Proof.
  revert seen st. induction lines as [|raw lines IH]; intros seen st Hinv; cbn [for_each].
  - intros [= <-]. cbn. by rewrite app_nil_r.
  - destruct (step U st raw) as [st1|] eqn:Hst; [|done]. cbn [mbind exc_bind].
    intros Hrest. cbn [List.map].
    replace (seen ++ strip raw :: List.map strip lines)
      with ((seen ++ [strip raw]) ++ List.map strip lines)
      by (by rewrite <- app_assoc).
    apply (IH _ st1); [|done]. by apply (step_shape seen st st1 raw).
Qed.

Lemma shape_inv_initial : shape_inv U [] initial_state.
Proof.
  split; [|split]; cbn; [|done..].
  intros k Hk body Hb. unfold body_keys in Hk.
  repeat (apply elem_of_cons in Hk as [->|Hk];
          [vm_compute in Hb; injection Hb as <-; apply made_of_nil|]).
  by apply elem_of_nil in Hk.
Qed.

Lemma body_line_nonempty l : body_line U l = true -> strip l = l -> l <> [].
Proof.
  unfold body_line, skipped. intros H Hl. rewrite Hl in H. by destruct l.
Qed.

Lemma trimmed_lines_no_nl resume_text l :
  l ∈ trimmed_lines resume_text -> contains [nl] l = false.
Proof.
  unfold trimmed_lines. intros [raw [-> Hin]]%list_elem_of_fmap.
  by apply not_contains_strip, (split_nl_elem resume_text).
Qed.

(** The parse of a text, section by section. *)
Lemma parsed_section resume_text m k body :
  _parse_resume_text U resume_text = Ok m ->
  k ∈ body_keys -> m !! k = Some body ->
  made_of U (trimmed_lines resume_text) body.
Proof.
  unfold _parse_resume_text, parse_lines. intros Hrun Hk Hb.
  destruct (for_each (step U) initial_state (split [nl] resume_text)) as [st|] eqn:Hst;
    [|done].
  cbn [mbind exc_bind] in Hrun. injection Hrun as <-.
  apply (flush_shape _ st k body); [|done..].
  by apply (for_each_shape _ [] initial_state st shape_inv_initial).
Qed.

(** A section the parse returns holds no empty line. *)
Lemma parsed_section_dense resume_text m k body :
  _parse_resume_text U resume_text = Ok m ->
  k ∈ body_keys -> m !! k = Some body ->
  contains [nl; nl] body = false.
Proof.
  intros Hrun Hk Hb.
  destruct (parsed_section resume_text m k body Hrun Hk Hb) as (ls & -> & Hsub & Hall).
  apply join_dense. apply Forall_forall. intros l Hl.
  rewrite Forall_forall in Hall. destruct (Hall l Hl) as [Hbody Hstrip].
  split; [by apply (body_line_nonempty l)|].
  apply (trimmed_lines_no_nl resume_text). by apply (elem_of_sublist ls).
Qed.

End Shape.

(** X8.  Whatever the text, each of the sections summary, skills,
    experience and education that the normaliser returns is made of lines
    of the text, trimmed, in the order of the text and joined by line
    breaks; every such line is kept by the loop, opens no section and is
    no contact line; and the section holds no empty line. *)
Theorem section_made_of_text_lines (U : casing) (resume_text : pystr)
    (m : gmap string pystr) (k : string) (body : pystr) :
  _parse_resume_text U resume_text = Ok m ->
  k ∈ body_keys ->
  m !! k = Some body ->
  (exists ls, body = join [nl] ls
     /\ sublist ls (trimmed_lines resume_text)
     /\ Forall (fun l => body_line U l = true /\ strip l = l) ls)
  /\ contains [nl; nl] body = false.
Proof.
  intros Hrun Hk Hb. split.
  - by apply (parsed_section U resume_text m k body).
  - by apply (parsed_section_dense U resume_text m k body).
Qed.

Lemma section_made_of_text_lines_witness :
  let text := lit "Ann Lee" ++ [nl] ++ lit "SKILLS" ++ [nl] ++ lit "  Python  "
              ++ [nl; nl] ++ lit "Rocq" in
  exists m, _parse_resume_text latin1 text = Ok m
    /\ m !! "skills"%string = Some (lit "Python" ++ [nl] ++ lit "Rocq")
    /\ contains [nl; nl] (lit "Python" ++ [nl] ++ lit "Rocq") = false.
Proof.
  intros text.
  assert (Hrun : { m | _parse_resume_text latin1 text = Ok m
                       /\ m !! "skills"%string = Some (lit "Python" ++ [nl] ++ lit "Rocq") }).
  { destruct (_parse_resume_text latin1 text) as [m|] eqn:E; vm_compute in E; [|discriminate E].
    exists m. split; [reflexivity|]. injection E as <-. reflexivity. }
  destruct Hrun as (m & Hrun & Hskills).
  exists m. split; [exact Hrun|]. split; [exact Hskills|].
  apply (section_made_of_text_lines latin1 text m "skills" _ Hrun); [|exact Hskills].
  unfold body_keys. apply elem_of_cons. right. apply elem_of_cons. by left.
Defined.

(* ===================================================================== *)
(** ** Lines outside a section; the contact line *)
(* ===================================================================== *)

Section OutsideSections.

Variable U : casing.

(** Once the cursor is set it stays set, and the key [additional] is
    left alone. *)
Lemma step_under_cursor st st' raw k extra :
  current_section st = Some k -> k ∈ body_keys ->
  sections st !! "additional"%string = Some extra ->
  step U st raw = Ok st' ->
  (exists k', current_section st' = Some k' /\ k' ∈ body_keys)
  /\ sections st' !! "additional"%string = Some extra.
Proof.
  intros Hcs Hk Hextra. unfold step.
  destruct (skipped (strip raw)); [intros [= <-]; by eauto|].
  destruct (header_of _) as [k'|] eqn:Hh.
  { intros [= <-]. cbn. split; [exists k'; split; [done|by eapply header_of_body]|].
    rewrite flush_lookup_not_body; [done| |apply additional_not_body].
    by rewrite Hcs. }
  unfold getitem. destruct (sections st !! "name"%string) as [n|]; [|done].
  cbn [mbind exc_bind].
  destruct (negb (truthy n) && name_like (strip raw)).
  { intros [= <-]. cbn. split; [by eauto|]. by rewrite lookup_insert_ne. }
  destruct (contact_like (strip raw)).
  { intros [= <-]. cbn. split; [by eauto|]. by rewrite lookup_insert_ne. }
  rewrite Hcs, (cursor_set_of_body k Hk).
  intros [= <-]. cbn. by eauto.
Qed.

Lemma for_each_under_cursor lines st st' k extra :
  current_section st = Some k -> k ∈ body_keys ->
  sections st !! "additional"%string = Some extra ->
  for_each (step U) st lines = Ok st' ->
  (exists k', current_section st' = Some k' /\ k' ∈ body_keys)
  /\ sections st' !! "additional"%string = Some extra.
Proof.
  revert st k. induction lines as [|raw lines IH]; intros st k Hcs Hk Hextra; cbn [for_each].
  - intros [= <-]. by eauto.
  - destruct (step U st raw) as [st1|] eqn:Hst; [|done]. cbn [mbind exc_bind].
    destruct (step_under_cursor st st1 raw k extra Hcs Hk Hextra Hst)
      as ((k1 & Hcs1 & Hk1) & Hextra1).
    by apply (IH st1 k1).
Qed.

(** A turn of the loop on a line that is no contact line leaves the
    contact as it is. *)
Lemma step_keeps_contact st st' raw c :
  loop_inv st ->
  sections st !! "contact"%string = Some c ->
  contact_line U raw = false ->
  step U st raw = Ok st' ->
  sections st' !! "contact"%string = Some c.
Proof.
  intros [Hkeys Hcur] Hc Hline. unfold step, contact_line in *.
  destruct (skipped (strip raw)); [by intros [= <-]|].
  destruct (header_of _) as [k|] eqn:Hh.
  { intros [= <-]. cbn. rewrite flush_lookup_not_body; auto using contact_not_body. }
  rewrite bool_decide_eq_true_2 in Hline by done. cbn [negb andb] in Hline.
  rewrite Hline.
  unfold getitem. destruct (sections st !! "name"%string) as [n|]; [|done].
  cbn [mbind exc_bind].
  destruct (negb (truthy n) && name_like (strip raw)).
  { intros [= <-]. cbn. by rewrite lookup_insert_ne. }
  destruct (cursor_set _); [by intros [= <-]|].
  destruct (sections st !! "additional"%string); [|done]. cbn [mbind exc_bind].
  intros [= <-]. cbn. by rewrite lookup_insert_ne.
Qed.

Lemma for_each_keeps_contact lines st c :
  loop_inv st ->
  sections st !! "contact"%string = Some c ->
  Forall (fun raw => contact_line U raw = false) lines ->
  exists st', for_each (step U) st lines = Ok st' /\ loop_inv st'
              /\ sections st' !! "contact"%string = Some c.
Proof.
  revert st. induction lines as [|raw lines IH]; intros st Hinv Hc Hall; cbn [for_each].
  - by exists st.
  - apply Forall_cons in Hall as [Hraw Hall].
    destruct (step_inv U st raw Hinv) as (st1 & Hst & Hinv1). rewrite Hst.
    cbn [mbind exc_bind]. apply IH; [done| |done].
    by apply (step_keeps_contact st st1 raw c).
Qed.

End OutsideSections.

(** X9.  Only lines before the first header reach [additional]: after a
    line that opens a section, whatever follows, the text under
    [additional] is the one the lines before that header gave. *)
Theorem additional_only_before_first_header (U : casing) (pre : list pystr) (h : pystr)
    (post : list pystr) (k : string) :
  skipped (strip h) = false ->
  header_of (upper U (strip h)) = Some k ->
  field (parse_lines U (pre ++ h :: post)) "additional"
  = field (parse_lines U pre) "additional"
  /\ is_Some (field (parse_lines U pre) "additional").
Proof.
  intros Hs Hh. unfold parse_lines. rewrite for_each_app.
  destruct (for_each_inv U pre initial_state (loop_inv_initial)) as (st1 & -> & Hinv1).
  cbn [mbind exc_bind for_each]. rewrite (step_header U st1 h k Hs Hh).
  cbn [mbind exc_bind field].
  destruct Hinv1 as [Hkeys1 Hcur1].
  destruct (Hkeys1 "additional"%string) as [extra Hextra].
  { unfold section_keys. set_solver. }
  rewrite (flush_lookup_not_body st1) by (done || apply additional_not_body).
  rewrite Hextra. split; [|done].
  assert (Hinv2 : loop_inv (enter st1 k)).
  { split; cbn; [by apply has_keys_flush|by eapply header_of_body]. }
  destruct (for_each_inv U post (enter st1 k) Hinv2) as (st3 & Hst3 & Hinv3).
  rewrite Hst3. cbn [mbind exc_bind field].
  destruct (for_each_under_cursor U post (enter st1 k) st3 k extra) as (_ & Hextra3);
    [done|by eapply header_of_body| |done|].
  { cbn. rewrite (flush_lookup_not_body st1) by (done || apply additional_not_body). done. }
  rewrite (flush_lookup_not_body st3) by (apply Hinv3 || apply additional_not_body). done.
Qed.

Lemma additional_only_before_first_header_witness :
  field (parse_lines latin1 [lit "Ann Lee"; lit "Open to travel"; lit "SKILLS";
                             lit "Python"; lit "Rocq"]) "additional"
  = field (parse_lines latin1 [lit "Ann Lee"; lit "Open to travel"]) "additional".
Proof.
  apply (additional_only_before_first_header latin1
           [lit "Ann Lee"; lit "Open to travel"] (lit "SKILLS")
           [lit "Python"; lit "Rocq"] "skills"); reflexivity.
Defined.

(** X10.  The last contact line wins: a contact line that the loop
    reaches with a name set, or that cannot be a name, followed only by
    lines that are no contact lines, gives the contact returned, whatever
    contact lines came before it. *)
Theorem last_contact_line_wins (U : casing) (pre : list pystr) (l : pystr)
    (post : list pystr) (n : pystr) :
  field (parse_lines U pre) "name" = Some n ->
  truthy n = true \/ name_like (strip l) = false ->
  contact_line U l = true ->
  Forall (fun raw => contact_line U raw = false) post ->
  field (parse_lines U (pre ++ l :: post)) "contact"
  = Some (strip (replace artifact [] (strip l))).
Proof.
  intros Hname Hn Hl Hpost.
  destruct (parse_lines_state U pre n Hname) as (st1 & Hst1 & Hinv1 & Hn1 & _).
  unfold contact_line in Hl.
  apply andb_true_iff in Hl as [[Hs Hh]%andb_true_iff Hc].
  apply negb_true_iff in Hs. apply bool_decide_eq_true in Hh.
  unfold parse_lines. rewrite for_each_app, Hst1.
  cbn [mbind exc_bind for_each].
  rewrite (step_contact U st1 l); [|by split; [|split; [|exists n]]|done].
  cbn [mbind exc_bind].
  match goal with |- context [for_each _ ?st post] => set (st2 := st) end.
  assert (Hinv2 : loop_inv st2).
  { destruct Hinv1. split; cbn; [by apply has_keys_insert|done]. }
  destruct (for_each_keeps_contact U post st2 _ Hinv2 (lookup_insert_eq _ _ _) Hpost)
    as (st3 & -> & Hinv3 & Hc3).
  cbn [mbind exc_bind field].
  rewrite flush_lookup_not_body; [done|apply Hinv3|apply contact_not_body].
Qed.

Lemma last_contact_line_wins_witness :
  field (parse_lines latin1 [lit "Ann Lee"; lit "ann@example.com"; lit "Phone: 555 0100";
                             lit "SKILLS"; lit "Python"]) "contact"
  = Some (lit "Phone: 555 0100").
Proof.
  apply (last_contact_line_wins latin1 [lit "Ann Lee"; lit "ann@example.com"]
           (lit "Phone: 555 0100") [lit "SKILLS"; lit "Python"] (lit "Ann Lee")).
  - reflexivity.
  - by left.
  - reflexivity.
  - repeat constructor.
Defined.

(* ===================================================================== *)
(** ** The story of a resume *)
(* ===================================================================== *)

Section Story.

Import Render.

Variable U : casing.

Lemma titles_of_app (a b : list flowable) : titles_of (a ++ b) = titles_of a ++ titles_of b.
Proof. unfold titles_of. apply flat_map_app. Qed.

Lemma job_titles_app (a b : list flowable) : job_titles (a ++ b) = job_titles a + job_titles b.
Proof. unfold job_titles. by rewrite List.filter_app, length_app. Qed.

Lemma titles_of_flat_map {X} (f : X -> list flowable) (xs : list X) :
  (forall x, titles_of (f x) = []) -> titles_of (List.flat_map f xs) = [].
Proof.
  intros H. induction xs as [|x xs IH]; [done|].
  cbn [flat_map]. by rewrite titles_of_app, H, IH.
Qed.

Lemma job_titles_flat_map {X} (f : X -> list flowable) (xs : list X) :
  (forall x, job_titles (f x) = 0) -> job_titles (List.flat_map f xs) = 0.
Proof.
  intros H. induction xs as [|x xs IH]; [done|].
  cbn [flat_map]. by rewrite job_titles_app, H, IH.
Qed.

Lemma skills_content_plain content :
  titles_of (_format_skills_content content) = []
  /\ job_titles (_format_skills_content content) = 0.
Proof.
  unfold _format_skills_content. split.
  - apply titles_of_flat_map. intros x. by destruct (_ && _).
  - apply job_titles_flat_map. intros x. by destruct (_ && _).
Qed.

Lemma plain_paragraph_plain para :
  titles_of (plain_paragraph para) = [] /\ job_titles (plain_paragraph para) = 0.
Proof.
  unfold plain_paragraph.
  destruct (truthy (strip para)); [|done].
  destruct (_ || _); [|done]. split.
  - apply titles_of_flat_map. intros x. by destruct (truthy _).
  - apply job_titles_flat_map. intros x. by destruct (truthy _).
Qed.

Lemma experience_paragraph_plain para :
  titles_of (experience_paragraph U para) = []
  /\ job_titles (experience_paragraph U para) <= 1.
Proof.
  unfold experience_paragraph.
  destruct (negb (truthy (strip para))); [split; [done|cbn; lia]|].
  destruct (is_job_title U _); [|split; [done|cbn; lia]].
  split.
  - change (titles_of (?x :: ?l)) with (titles_of l).
    apply titles_of_flat_map. intros x. by destruct (truthy _).
  - change (job_titles (Paragraph ?t "JobTitle" :: ?l)) with (S (job_titles l)).
    rewrite job_titles_flat_map; [lia|]. intros x. by destruct (truthy _).
Qed.

Lemma experience_content_plain content :
  titles_of (_format_experience_content U content) = [].
Proof.
  unfold _format_experience_content. apply titles_of_flat_map.
  intros x. apply experience_paragraph_plain.
Qed.

Lemma format_section_titles title content :
  titles_of (_format_section U title content) = [title].
Proof.
  unfold _format_section. rewrite !titles_of_app.
  change (titles_of [HeaderTable title; Spacer 10]) with [title].
  change (titles_of [Spacer 15]) with (@nil pystr).
  destruct (_ || _); [by rewrite (proj1 (skills_content_plain content))|].
  destruct (_ || _); [by rewrite experience_content_plain|].
  rewrite titles_of_flat_map; [done|]. intros x. apply plain_paragraph_plain.
Qed.

(** A section that is not the experience has no job title. *)
Lemma format_section_no_job_title title content :
  title <> lit "PROFESSIONAL EXPERIENCE" -> title <> lit "EXPERIENCE" ->
  job_titles (_format_section U title content) = 0.
Proof.
  intros H1 H2. unfold _format_section. rewrite !job_titles_app.
  change (job_titles [HeaderTable title; Spacer 10]) with 0.
  change (job_titles [Spacer 15]) with 0.
  destruct (_ || _); [by rewrite (proj2 (skills_content_plain content))|].
  rewrite !bool_decide_eq_false_2 by done. cbn [orb].
  rewrite job_titles_flat_map; [done|]. intros x. apply plain_paragraph_plain.
Qed.

(** The experience of a text without an empty line is one paragraph. *)
Lemma format_experience_dense content :
  contains [nl; nl] content = false ->
  job_titles (_format_section U (lit "PROFESSIONAL EXPERIENCE") content) <= 1.
Proof.
  intros H. unfold _format_section. rewrite !job_titles_app.
  change (job_titles [HeaderTable (lit "PROFESSIONAL EXPERIENCE"); Spacer 10]) with 0.
  change (job_titles [Spacer 15]) with 0.
  rewrite (bool_decide_eq_false_2 (lit "PROFESSIONAL EXPERIENCE" = lit "TECHNICAL SKILLS"))
    by (intros E; by vm_compute in E).
  rewrite (bool_decide_eq_false_2 (lit "PROFESSIONAL EXPERIENCE" = lit "SKILLS"))
    by (intros E; by vm_compute in E).
  rewrite (bool_decide_eq_true_2 (lit "PROFESSIONAL EXPERIENCE" = lit "PROFESSIONAL EXPERIENCE"))
    by done.
  cbn [orb]. unfold _format_experience_content. rewrite (split_none _ _ H).
  cbn [flat_map]. rewrite app_nil_r.
  pose proof (proj2 (experience_paragraph_plain content)). lia.
Qed.

Lemma sublist_optional {X} (c : bool) (x : X) (rest l : list X) :
  sublist rest l -> sublist ((if c then [x] else []) ++ rest) (x :: l).
Proof. intros H. destruct c; cbn; [by apply sublist_skip|by apply sublist_cons]. Qed.

Lemma body_sections_titles (sections : gmap string pystr) :
  sublist (titles_of (_build_body_sections U sections)) (List.map snd section_order).
Proof.
  unfold _build_body_sections, section_order. cbn [flat_map List.map snd].
  rewrite !titles_of_app.
  repeat match goal with
  | |- context [titles_of (if ?c then _format_section U ?t ?x else [])] =>
      replace (titles_of (if c then _format_section U t x else []))
        with (if c then [t] else [])
        by (destruct c; [by rewrite format_section_titles|done])
  end.
  change (titles_of []) with (@nil pystr).
  repeat apply sublist_optional. apply sublist_nil_l.
Qed.

Lemma shown_test (content : pystr) :
  truthy content && (5 <? length content)%nat = true <-> 5 < length content.
Proof.
  rewrite andb_true_iff, Nat.ltb_lt. split; [by intros [_ ?]|].
  intros H. split; [|done]. destruct content; [cbn in H; lia|done].
Qed.

(** A section has its title in the story exactly when its content,
    trimmed, has more than five code points. *)
Lemma body_sections_shown (sections : gmap string pystr) (key : string) (title : pystr) :
  (key, title) ∈ section_order ->
  title ∈ titles_of (_build_body_sections U sections)
  <-> 5 < length (section_content sections key).
Proof.
  intros Hin. rewrite <- shown_test.
  unfold _build_body_sections, section_order in *. cbn [flat_map].
  rewrite !titles_of_app.
  repeat match goal with
  | |- context [titles_of (if ?c then _format_section U ?t ?x else [])] =>
      replace (titles_of (if c then _format_section U t x else []))
        with (if c then [t] else [])
        by (destruct c; [by rewrite format_section_titles|done])
  end.
  change (titles_of []) with (@nil pystr).
  repeat (apply elem_of_cons in Hin as [Hin|Hin];
          [injection Hin as -> ->;
           repeat match goal with
           | |- context [truthy (section_content sections ?k)
                         && (5 <? length (section_content sections ?k))%nat] =>
               generalize (truthy (section_content sections k)
                           && (5 <? length (section_content sections k))%nat)
           end;
           intros b5 b4 b3 b2 b1;
           destruct b1, b2, b3, b4, b5; apply (bool_decide_unpack _); by vm_compute|]).
  by apply elem_of_nil in Hin.
Qed.

Lemma section_content_dense resume_text (m : gmap string pystr) k :
  _parse_resume_text U resume_text = Ok m -> k ∈ body_keys ->
  contains [nl; nl] (section_content m k) = false.
Proof.
  intros Hrun Hk. unfold section_content. apply not_contains_strip.
  destruct (m !! k) as [body|] eqn:Hb; [|done].
  by apply (parsed_section_dense U resume_text m k body).
Qed.

Lemma body_sections_job_titles resume_text (m : gmap string pystr) :
  _parse_resume_text U resume_text = Ok m ->
  job_titles (_build_body_sections U m) <= 1.
Proof.
  intros Hrun. unfold _build_body_sections, section_order. cbn [flat_map].
  rewrite !job_titles_app. change (job_titles []) with 0.
  assert (Hexp : contains [nl; nl] (section_content m "experience") = false).
  { apply (section_content_dense resume_text); [done|]. unfold body_keys. set_solver. }
  pose proof (format_experience_dense _ Hexp) as Hone.
  repeat match goal with
  | |- context [job_titles (if ?c then _format_section U ?t ?x else [])] =>
      let H := fresh "H" in
      assert (H : job_titles (if c then _format_section U t x else [])
                  <= (if bool_decide (t = lit "PROFESSIONAL EXPERIENCE") then 1 else 0));
      [destruct c; [|destruct (bool_decide _); cbn; lia];
       first [ rewrite format_section_no_job_title
                 by (intros E; by vm_compute in E);
               destruct (bool_decide _); lia
             | rewrite bool_decide_eq_true_2 by done; exact Hone ]
      |revert H; generalize (job_titles (if c then _format_section U t x else []))]
  end.
  intros.
  repeat match goal with
  | H : _ <= (if bool_decide ?P then _ else _) |- _ =>
      first [ rewrite (bool_decide_eq_true_2 P) in H by done
            | rewrite (bool_decide_eq_false_2 P) in H by (intros E; by vm_compute in E) ]
  end.
  lia.
Qed.

End Story.

(** X11.  For every text and profile the normaliser returns and the list
    of items that [create_resume_pdf] hands to the layout library (its
    paragraphs taken as data) opens with the title paragraph, the contact
    paragraph and a space of 0.2 inch; the title is the name the
    normaliser found, or the name of the profile when it found none; the
    contact is never empty; the section titles that follow are among
    PROFESSIONAL SUMMARY, TECHNICAL SKILLS, PROFESSIONAL EXPERIENCE,
    EDUCATION, ADDITIONAL QUALIFICATIONS, each at most once and in that
    order, whatever the order of the sections in the text; and a section
    has its title there exactly when its content, trimmed, has more than
    five code points. *)
Theorem resume_story_shape (U : casing) (resume_text : pystr) (user_profile : Gen.profile) :
  exists m name contact body,
    _parse_resume_text U resume_text = Ok m
    /\ Render.resume_story U resume_text user_profile
       = Ok (Render.Paragraph name "CustomTitle" :: Render.Paragraph contact "ContactInfo"
             :: Render.Spacer 20 :: body)
    /\ (forall n, m !! "name"%string = Some n -> n <> [] -> name = n)
    /\ (m !! "name"%string = Some [] ->
        name = Gen.get user_profile "name" (lit "Your Name"))
    /\ contact <> []
    /\ sublist (titles_of body) (List.map snd Render.section_order)
    /\ (forall key title, (key, title) ∈ Render.section_order ->
          title ∈ titles_of body <-> 5 < length (Render.section_content m key)).
Proof.
  unfold Render.resume_story, _parse_resume_text, parse_lines.
  destruct (for_each_inv U (split [nl] resume_text) initial_state loop_inv_initial)
    as (st & -> & Hinv).
  cbn [mbind exc_bind]. set (m := flush st).
  exists m. do 3 eexists. split; [done|]. split; [reflexivity|].
  split; [|split; [|split; [|split]]].
  - intros n -> Hn. by destruct n.
  - by intros ->.
  - destruct (m !! "contact"%string) as [[|c l]|]; [|done|].
    + destruct (Gen.get user_profile "email" _); discriminate.
    + destruct (Gen.get user_profile "email" _); discriminate.
  - apply body_sections_titles.
  - apply body_sections_shown.
Qed.

(** X12.  The story of a resume sets at most one paragraph as a job
    title, whatever the text: the normaliser leaves no empty line in the
    experience it returns, so the experience is laid out as one
    paragraph, and only the first line of a paragraph of experience can
    be a job title. *)
Theorem resume_story_one_job_title (U : casing) (resume_text : pystr)
    (user_profile : Gen.profile) (story : list Render.flowable) :
  Render.resume_story U resume_text user_profile = Ok story ->
  job_titles story <= 1.
Proof.
  unfold Render.resume_story.
  destruct (_parse_resume_text U resume_text) as [m|] eqn:Hrun; [|done].
  cbn [mbind exc_bind]. intros E.
  replace story
    with (Render._build_header_section m user_profile ++ Render._build_body_sections U m)
    by congruence.
  rewrite job_titles_app.
  pose proof (body_sections_job_titles U resume_text m Hrun).
  assert (Hhead : job_titles (Render._build_header_section m user_profile) = 0) by done.
  lia.
Qed.

Lemma resume_story_one_job_title_witness :
  let text := lit "Ann Lee" ++ [nl] ++ lit "EXPERIENCE" ++ [nl]
              ++ lit "Senior Engineer, Acme" ++ [nl] ++ lit "Built things" ++ [nl; nl]
              ++ lit "Lead Developer, Initech" ++ [nl] ++ lit "Fixed things" in
  exists story, Render.resume_story latin1 text ∅ = Ok story /\ job_titles story <= 1.
Proof.
  intros text.
  destruct (Render.resume_story latin1 text ∅) as [story|] eqn:E;
    [|exfalso; vm_compute in E; discriminate E].
  exists story. split; [reflexivity|].
  exact (resume_story_one_job_title latin1 text ∅ story E).
Defined.

(* ===================================================================== *)
(** ** The helpers of the text source *)
(* ===================================================================== *)

Section HelperFacts.

Import Gen Helpers.

Variable U : casing.

Lemma filter_sublist {X} (f : X -> bool) (l : list X) : sublist (List.filter f l) l.
Proof.
  induction l as [|x l IH]; [constructor|]. cbn [List.filter].
  destruct (f x); [by apply sublist_skip|by apply sublist_cons].
Qed.

Lemma filter_split_perm {X} (f : X -> bool) (l : list X) :
  List.filter f l ++ List.filter (fun x => negb (f x)) l ≡ₚ l.
Proof.
  induction l as [|x l IH]; [done|]. cbn [List.filter].
  destruct (f x); cbn [negb app].
  - by rewrite IH.
  - by rewrite <- Permutation_middle, IH.
Qed.

Lemma filter_all {X} (f : X -> bool) (l : list X) :
  Forall (fun x => f x = true) l -> List.filter f l = l.
Proof.
  induction 1 as [|x l Hx _ IH]; [done|]. cbn [List.filter]. by rewrite Hx, IH.
Qed.

Lemma filter_none {X} (f : X -> bool) (l : list X) :
  Forall (fun x => f x = false) l -> List.filter f l = [].
Proof.
  induction 1 as [|x l Hx _ IH]; [done|]. cbn [List.filter]. by rewrite Hx, IH.
Qed.

Lemma filter_Forall {X} (f : X -> bool) (l : list X) :
  Forall (fun x => f x = true) (List.filter f l).
Proof.
  induction l as [|x l IH]; [done|]. cbn [List.filter].
  destruct (f x) eqn:E; [by constructor|done].
Qed.

End HelperFacts.

(** X13.  The keywords [_extract_job_keywords] returns are at most ten
    words of its fixed list, in the order of that list and without
    repetition; each occurs in the lower-cased description; a word of the
    list that occurs there is returned unless ten were found; and the
    result does not depend on the letter case of an ASCII description. *)
Theorem extract_job_keywords_sound (U : casing) (job_description : pystr) :
  let found := Helpers._extract_job_keywords U job_description in
  length found <= 10
  /\ sublist found Helpers.common_keywords
  /\ NoDup found
  /\ (forall keyword, keyword ∈ found -> contains keyword (lower U job_description) = true)
  /\ (forall keyword, keyword ∈ Helpers.common_keywords ->
        contains keyword (lower U job_description) = true ->
        keyword ∈ found \/ length found = 10)
  /\ (forallb is_ascii job_description = true ->
      Helpers._extract_job_keywords U (upper U job_description) = found).
Proof.
  intros found. subst found. unfold Helpers._extract_job_keywords.
  set (hits := List.filter (fun keyword => contains keyword (lower U job_description))
                           Helpers.common_keywords).
  assert (Hsub : sublist (take 10 hits) Helpers.common_keywords).
  { transitivity hits; [apply sublist_take|apply filter_sublist]. }
  split; [apply firstn_le_length|]. split; [done|]. split; [|split; [|split]].
  - eapply sublist_NoDup; [|exact Hsub].
    unfold Helpers.common_keywords. apply (bool_decide_unpack _). by vm_compute.
  - intros keyword Hin.
    assert (Hhit : keyword ∈ hits) by (by apply (elem_of_sublist (take 10 hits)), sublist_take).
    apply list_elem_of_In, List.filter_In in Hhit. apply Hhit.
  - intros keyword Hin Hocc.
    destruct (Nat.le_gt_cases (length hits) 10) as [Hle|Hgt].
    + left. rewrite take_ge by done. apply list_elem_of_In, List.filter_In.
      split; [by apply list_elem_of_In|done].
    + right. rewrite length_take. lia.
  - intros Hascii. by rewrite lower_upper_ascii.
Qed.

Lemma extract_job_keywords_sound_witness :
  Helpers._extract_job_keywords latin1 (upper latin1 (lit "We use Python and SQL on AWS"))
  = Helpers._extract_job_keywords latin1 (lit "We use Python and SQL on AWS").
Proof.
  destruct (extract_job_keywords_sound latin1 (lit "We use Python and SQL on AWS"))
    as (_ & _ & _ & _ & _ & Hcase).
  by apply Hcase.
Defined.

(** X14.  For a list of skills that is not empty, [_format_skills] writes
    one bullet line per skill listed, the skill trimmed.  The skills
    listed are the first eight of this list: the skills that hold a job
    keyword, in the order of the profile, followed by the skills that
    hold none, in the order of the profile.  So a skill that holds a
    keyword is dropped only when eight such skills come before it; the
    skills listed are skills of the profile, none more often than there,
    all of them when there are at most eight, and in the order of the
    profile when there is no job keyword. *)
Theorem format_skills_lists (U : casing) (skills_list job_keywords : list pystr) :
  skills_list <> [] ->
  let hits := List.filter (relevant U job_keywords) skills_list in
  let rest := List.filter (fun skill => negb (relevant U job_keywords skill)) skills_list in
  let listed := take 8 (hits ++ rest) in
  Helpers._format_skills U skills_list job_keywords
  = join [nl] (List.map (fun skill => [Gen.bullet; space] ++ strip skill) listed)
  /\ listed = take 8 hits ++ take (8 - length hits) rest
  /\ (forall skill, skill ∈ hits <-> skill ∈ skills_list /\ relevant U job_keywords skill = true)
  /\ (forall skill, skill ∈ rest <-> skill ∈ skills_list /\ relevant U job_keywords skill = false)
  /\ sublist hits skills_list
  /\ sublist rest skills_list
  /\ hits ++ rest ≡ₚ skills_list
  /\ length listed = Nat.min 8 (length skills_list)
  /\ listed ⊆+ skills_list
  /\ (length skills_list <= 8 -> listed = hits ++ rest)
  /\ (job_keywords = [] -> listed = take 8 skills_list).
Proof.
  intros Hne hits rest listed.
  assert (Hfmt : Helpers._format_skills U skills_list job_keywords
                 = join [nl] (List.map (fun skill => [Gen.bullet; space] ++ strip skill)
                                listed)).
  { subst listed hits rest. unfold relevant. by destruct skills_list. }
  assert (Hperm : hits ++ rest ≡ₚ skills_list) by apply filter_split_perm.
  split; [exact Hfmt|].
  split; [apply firstn_app|].
  split.
  { intros skill. subst hits. rewrite !list_elem_of_In. apply List.filter_In. }
  split.
  { intros skill. subst rest. rewrite !list_elem_of_In, List.filter_In.
    by rewrite negb_true_iff. }
  split; [apply filter_sublist|]. split; [apply filter_sublist|].
  split; [done|].
  split; [subst listed; rewrite length_take; by rewrite Hperm|].
  split; [subst listed; rewrite <- Hperm; apply sublist_submseteq, sublist_take|].
  split.
  - intros Hlen. subst listed. apply take_ge. by rewrite Hperm.
  - intros ->. subst listed hits rest. unfold relevant. cbn [existsb negb].
    rewrite (filter_none (fun _ => false)) by (by apply Forall_forall).
    rewrite (filter_all (fun _ => true)) by (by apply Forall_forall).
    done.
Qed.

Lemma format_skills_lists_witness :
  let skills := [lit "a"; lit "b"; lit "c"; lit "d"; lit "e"; lit "f"; lit "g"; lit "h";
                 lit " Python 3 "] in
  Helpers._format_skills latin1 skills [lit "python"]
  = join [nl] (List.map (fun skill => [Gen.bullet; space] ++ skill)
                 [lit "Python 3"; lit "a"; lit "b"; lit "c"; lit "d"; lit "e"; lit "f";
                  lit "g"]).
Proof.
  intros skills.
  destruct (format_skills_lists latin1 skills [lit "python"]) as (Heq & _); [done|].
  rewrite Heq. reflexivity.
Defined.

Section Experience.

Import Gen Helpers.

(** A trimmed text that is not empty stays trimmed behind any prefix. *)
Lemma rstrip_app_stripped (a y : pystr) :
  y <> [] -> rstrip y = y -> rstrip (a ++ y) = a ++ y.
Proof.
  intros Hne Hy. unfold rstrip in *. rewrite rev_app_distr.
  assert (Hrev : lstrip (rev y) = rev y).
  { rewrite <- Hy at 2. by rewrite rev_involutive. }
  destruct (lstrip_head (rev y)) as [E|(c & t & E & Hc)].
  - rewrite E in Hrev. exfalso. apply Hne.
    rewrite <- (rev_involutive y), <- Hrev. done.
  - rewrite Hrev in E. rewrite E. cbn [app]. rewrite lstrip_cons_keep by done.
    change (c :: t ++ rev a) with ((c :: t) ++ rev a).
    rewrite <- E, rev_app_distr, !rev_involutive. done.
Qed.

Lemma rstrip_strip (s : pystr) : rstrip (strip s) = strip s.
Proof. unfold strip. apply rstrip_idemp. Qed.

Lemma strip_bulleted (y : pystr) :
  y <> [] -> strip y = y -> strip ([bullet; space] ++ y) = [bullet; space] ++ y.
Proof.
  intros Hne Hy. unfold strip at 1. cbn [app]. rewrite lstrip_cons_keep by done.
  apply (rstrip_app_stripped [bullet; space] y Hne).
  rewrite <- Hy. apply rstrip_strip.
Qed.

Lemma itemised_strip (line : pystr) : itemised line = true -> itemised (strip line) = true.
Proof.
  unfold itemised. destruct line as [|c x]; [done|].
  intros H.
  assert (Hc : c = bullet \/ c = 45%N).
  { apply orb_true_iff in H as [H|H]; cbn [startswith lit] in H;
      apply andb_true_iff in H as [H _]; apply N.eqb_eq in H; auto. }
  assert (Hsp : isspace c = false) by (by destruct Hc as [-> | ->]).
  destruct (strip_cons_head c x Hsp) as [y ->].
  by destruct Hc as [-> | ->].
Qed.

(** What the loop of [_format_experience] makes of a line that is not
    blank. *)
Lemma bulleted_line (line : pystr) :
  nonblank line = true -> contains [nl] line = false ->
  itemised (bulleted line) = true
  /\ strip (bulleted line) = bulleted line
  /\ bulleted line <> []
  /\ contains [nl] (bulleted line) = false.
Proof.
  intros Hnb Hnl. unfold bulleted. fold (itemised line).
  assert (Hne : strip line <> []) by (unfold nonblank in Hnb; by destruct (strip line)).
  rewrite <- negb_orb. fold (itemised line).
  destruct (itemised line) eqn:Hit; cbn [negb].
  - split; [by apply itemised_strip|]. split; [apply strip_idemp|]. split; [done|].
    by apply not_contains_strip.
  - split; [done|]. split; [|split; [done|]].
    + apply strip_bulleted; [done|apply strip_idemp].
    + cbn [app]. apply contains_nl_cons. split; [done|].
      apply contains_nl_cons. split; [done|]. by apply not_contains_strip.
Qed.

Lemma bulleted_itemised (line : pystr) :
  itemised line = true -> bulleted line = strip line.
Proof.
  unfold bulleted. rewrite <- negb_orb. fold (itemised line). by intros ->.
Qed.

Lemma join_nonempty (l : pystr) (ls : list pystr) : l <> [] -> join [nl] (l :: ls) <> [].
Proof. intros H. destruct ls; cbn [join]; [done|]. by destruct l. Qed.

End Experience.

(** X15.  For an experience text with a line that is not blank and no job
    keyword, [_format_experience] returns a text that is not empty, with
    as many lines as the text has lines that are not blank; each line is
    trimmed, is not empty and begins with the bullet or a dash; and
    formatting the result again changes nothing. *)
Theorem format_experience_idempotent (experience_text : pystr) :
  Exists (fun line => nonblank line = true) (split [nl] experience_text) ->
  let formatted := Helpers._format_experience experience_text [] in
  formatted <> []
  /\ length (split [nl] formatted)
     = length (List.filter nonblank (split [nl] experience_text))
  /\ Forall (fun line => itemised line = true /\ strip line = line /\ line <> [])
            (split [nl] formatted)
  /\ Helpers._format_experience formatted [] = formatted.
Proof.
  intros Hex formatted.
  assert (Htext : truthy experience_text = true).
  { destruct experience_text; [|done]. by apply Exists_cons in Hex as [?|?%Exists_nil]. }
  set (kept := List.filter nonblank (split [nl] experience_text)).
  assert (Hfmt : formatted = join [nl] (List.map Helpers.bulleted kept)).
  { subst formatted. unfold Helpers._format_experience. by rewrite Htext. }
  assert (Hkept : Forall (fun line => nonblank line = true /\ contains [nl] line = false) kept).
  { apply Forall_forall. intros line Hin. subst kept.
    apply list_elem_of_In, List.filter_In in Hin as [Hin Hnb].
    split; [done|]. by apply (split_nl_elem experience_text), list_elem_of_In. }
  assert (Hlines : Forall (fun line => itemised line = true /\ strip line = line
                                       /\ line <> [] /\ contains [nl] line = false)
                          (List.map Helpers.bulleted kept)).
  { apply Forall_fmap. eapply Forall_impl; [exact Hkept|].
    intros line [Hnb Hnl]. by apply bulleted_line. }
  assert (Hne : List.map Helpers.bulleted kept <> []).
  { subst kept. apply Exists_exists in Hex as (line & Hin & Hnb).
    assert (Hk : line ∈ List.filter nonblank (split [nl] experience_text)).
    { apply list_elem_of_In, List.filter_In. split; [by apply list_elem_of_In|done]. }
    destruct (List.filter nonblank _); [by apply elem_of_nil in Hk|done]. }
  assert (Hsplit : split [nl] formatted = List.map Helpers.bulleted kept).
  { rewrite Hfmt. apply split_join_nl; [done|].
    eapply Forall_impl; [exact Hlines|]. by intros line (_ & _ & _ & ?). }
  split; [|split; [|split]].
  - rewrite Hfmt. destruct (List.map Helpers.bulleted kept) as [|l ls]; [done|].
    apply join_nonempty. apply Forall_cons in Hlines as [(_ & _ & ? & _) _]. done.
  - by rewrite Hsplit, length_map.
  - rewrite Hsplit. eapply Forall_impl; [exact Hlines|]. by intros line (? & ? & ? & _).
  - assert (Htruthy : truthy formatted = true).
    { rewrite Hfmt. destruct (List.map Helpers.bulleted kept) as [|l ls]; [done|].
      apply Forall_cons in Hlines as [(_ & _ & Hl & _) _].
      pose proof (join_nonempty l ls Hl). by destruct (join [nl] (l :: ls)). }
    unfold Helpers._format_experience at 1. rewrite Htruthy. cbn [negb].
    rewrite Hsplit.
    change (fun line : pystr => truthy (strip line)) with nonblank.
    rewrite (filter_all nonblank).
    + rewrite Hfmt. f_equal.
      rewrite <- (map_id (List.map Helpers.bulleted kept)) at 2.
      apply List.map_ext_in. intros line Hin.
      rewrite Forall_forall in Hlines.
      destruct (Hlines line) as (Hit & Hst & _); [by apply list_elem_of_In|].
      by rewrite bulleted_itemised.
    + eapply Forall_impl; [exact Hlines|]. intros line (_ & Hst & Hl & _).
      unfold nonblank. rewrite Hst. by destruct line.
Qed.

Lemma format_experience_idempotent_witness :
  let text := lit "Built a compiler" ++ [nl; nl] ++ lit "- Led a team" in
  Helpers._format_experience (Helpers._format_experience text []) []
  = Helpers._format_experience text [].
Proof.
  intros text.
  destruct (format_experience_idempotent text) as (_ & _ & _ & Hidem).
  - apply Exists_cons. by left.
  - exact Hidem.
Defined.

(** X16.  [generate_interview_questions] returns ten questions when the
    profile lists a skill and eight otherwise, whatever the position and
    the job description; with a skill listed the cut at ten drops the
    question on career goals, which is otherwise the last one. *)
Theorem interview_questions_count (U : casing) (p : Gen.profile)
    (position_title job_description : pystr) :
  let questions := Helpers.generate_interview_questions U p position_title job_description in
  let goals := lit "What are your long-term career goals in " ++ lower U position_title
               ++ lit "?" in
  let team := lit "How do you see yourself contributing to our " ++ position_title
              ++ lit " team?" in
  (Helpers.skills_of (Gen.get p "skills" []) = [] ->
     length questions = 8 /\ List.last questions [] = goals)
  /\ (Helpers.skills_of (Gen.get p "skills" []) <> [] ->
     length questions = 10 /\ List.last questions [] = team /\ goals ∉ questions).
Proof.
  intros questions goals team. subst questions goals team.
  unfold Helpers.generate_interview_questions.
  destruct (Helpers.skills_of (Gen.get p "skills" [])) as [|s ss]; split; try done.
  intros _. split; [done|]. split; [done|].
  cbn [app firstn]. intros Hin.
  repeat (apply elem_of_cons in Hin as [Hin|Hin]; [by vm_compute in Hin|]).
  by apply elem_of_nil in Hin.
Qed.

Lemma interview_questions_count_witness :
  length (Helpers.generate_interview_questions latin1
            {[ "skills"%string := lit "Python, SQL" ]} (lit "Engineer") (lit "a job")) = 10.
Proof.
  destruct (interview_questions_count latin1 {[ "skills"%string := lit "Python, SQL" ]}
              (lit "Engineer") (lit "a job")) as [_ Hsome].
  destruct Hsome as (Hlen & _); [by vm_compute|exact Hlen].
Defined.

(* ===================================================================== *)
(** ** The cover letter of the API path *)
(* ===================================================================== *)

Section Letter.

Import Gen.

(** The loop of step 5 stops after the line that follows the first
    closing line, when that line is not blank. *)
Lemma keep_to_closing_cut (pre : list pystr) (c n : pystr) (post : list pystr)
    (prev : option pystr) :
  Forall (fun l => is_closing (strip l) = false) pre ->
  is_closing (strip c) = true ->
  is_closing (strip n) = false ->
  truthy (strip n) = true ->
  keep_to_closing false prev (pre ++ c :: n :: post) = pre ++ [c; n].
Proof.
  intros Hpre Hc Hn Hnb. revert prev.
  induction Hpre as [|l pre Hl _ IH]; intros prev.
  - cbn [app keep_to_closing]. by rewrite Hc, Hn, Hnb.
  - cbn [app keep_to_closing]. rewrite Hl. cbn [andb]. by rewrite IH.
Qed.

(** Without a closing line the loop keeps every line. *)
Lemma keep_to_closing_all (lines : list pystr) (prev : option pystr) :
  Forall (fun l => is_closing (strip l) = false) lines ->
  keep_to_closing false prev lines = lines.
Proof.
  intros H. revert prev. induction H as [|l lines Hl _ IH]; intros prev; [done|].
  cbn [keep_to_closing]. rewrite Hl. cbn [andb]. by rewrite IH.
Qed.

Lemma unmarked_strip text : unmarked text -> unmarked (strip text).
Proof. intros (H1 & H2 & H3). repeat split; by apply not_contains_strip. Qed.

(** The cleaning steps on a plain letter, up to the loop of step 5. *)
Lemma cover_letter_text_plain (lines : list pystr) :
  lines <> [] -> plain_letter lines ->
  unmarked (join [nl] (keep_to_closing false None lines)) ->
  cover_letter_text (join [nl] lines)
  = strip (join [nl] (keep_to_closing false None lines)).
Proof.
  intros Hne (Hlines & Hstrip & Hopen & Hclose & Hfence) Hmarks.
  assert (Hsplit : split [nl] (join [nl] lines) = lines).
  { apply split_join_nl; [done|]. eapply Forall_impl; [exact Hlines|]. by intros l [? _]. }
  unfold cover_letter_text. cbv zeta.
  rewrite Hstrip, Hopen, Hclose, Hfence, Hsplit.
  rewrite (filter_all _ lines); cycle 1.
  { eapply Forall_impl; [exact Hlines|]. intros l [_ Hl]. by rewrite Hl. }
  rewrite Hstrip, Hsplit.
  destruct (unmarked_strip _ Hmarks) as (-> & -> & ->). done.
Qed.

End Letter.

(** X17.  On the API path a completion that is a plain letter is cut
    after its signature: when no line before [c] begins with a closing
    formula, [c] does, and the next line [n] is not blank and is no
    closing line itself, the letter returned is the text up to [n], its
    lines unchanged, and nothing of what follows [n]. *)
Theorem cover_letter_cut_after_signature (api_key : pystr) (p : Gen.profile)
    (company_name position_title job_description : pystr)
    (pre : list pystr) (c n : pystr) (post : list pystr) :
  api_key <> [] ->
  plain_letter (pre ++ c :: n :: post) ->
  Forall (fun l => Gen.is_closing (strip l) = false) pre ->
  Gen.is_closing (strip c) = true ->
  Gen.is_closing (strip n) = false ->
  truthy (strip n) = true ->
  unmarked (join [nl] (pre ++ [c; n])) ->
  Gen.generate_cover_letter (Some api_key) (Gen.Completes (join [nl] (pre ++ c :: n :: post)))
    p company_name position_title job_description
  = strip (join [nl] (pre ++ [c; n])).
Proof.
  intros Hkey Hplain Hpre Hc Hn Hnb Hmarks.
  unfold Gen.generate_cover_letter. destruct api_key as [|k0 key]; [done|].
  rewrite cover_letter_text_plain.
  - by rewrite (keep_to_closing_cut pre c n post None).
  - by destruct pre.
  - done.
  - by rewrite (keep_to_closing_cut pre c n post None).
Qed.

Lemma cover_letter_cut_after_signature_witness :
  Gen.generate_cover_letter (Some (lit "key"))
    (Gen.Completes (join [nl] [lit "Dear Hiring Manager,"; []; lit "I am glad to apply.";
                               []; lit "Sincerely,"; lit "Ann Lee"; [];
                               lit "P.S. I wrote this letter myself."]))
    ∅ (lit "Acme") (lit "Engineer") (lit "a job")
  = join [nl] [lit "Dear Hiring Manager,"; []; lit "I am glad to apply."; [];
               lit "Sincerely,"; lit "Ann Lee"].
Proof.
  rewrite (cover_letter_cut_after_signature (lit "key") ∅ (lit "Acme") (lit "Engineer")
             (lit "a job")
             [lit "Dear Hiring Manager,"; []; lit "I am glad to apply."; []]
             (lit "Sincerely,") (lit "Ann Lee")
             [[]; lit "P.S. I wrote this letter myself."]).
  - reflexivity.
  - discriminate.
  - split; [|by vm_compute]. repeat (apply Forall_cons; split; [by vm_compute|]).
    apply Forall_nil_2.
  - repeat (apply Forall_cons; split; [by vm_compute|]). apply Forall_nil_2.
  - reflexivity.
  - reflexivity.
  - reflexivity.
  - by vm_compute.
Defined.

(** X18.  On the API path a completion that is a plain letter with no
    closing formula at the start of a line, and without the sentences
    that step 6 looks for, is returned as it came. *)
Theorem cover_letter_plain_unchanged (api_key : pystr) (p : Gen.profile)
    (company_name position_title job_description : pystr) (lines : list pystr) :
  api_key <> [] ->
  lines <> [] ->
  plain_letter lines ->
  Forall (fun l => Gen.is_closing (strip l) = false) lines ->
  unmarked (join [nl] lines) ->
  Gen.generate_cover_letter (Some api_key) (Gen.Completes (join [nl] lines))
    p company_name position_title job_description
  = join [nl] lines.
Proof.
  intros Hkey Hne Hplain Hlines Hmarks.
  unfold Gen.generate_cover_letter. destruct api_key as [|k0 key]; [done|].
  rewrite cover_letter_text_plain; [| done | done |].
  - rewrite keep_to_closing_all by done. apply Hplain.
  - by rewrite keep_to_closing_all.
Qed.

Lemma cover_letter_plain_unchanged_witness :
  Gen.generate_cover_letter (Some (lit "key"))
    (Gen.Completes (join [nl] [lit "Dear team,"; []; lit "I would like to apply."]))
    ∅ (lit "Acme") (lit "Engineer") (lit "a job")
  = join [nl] [lit "Dear team,"; []; lit "I would like to apply."].
Proof.
  apply (cover_letter_plain_unchanged (lit "key") ∅ (lit "Acme") (lit "Engineer")
           (lit "a job") [lit "Dear team,"; []; lit "I would like to apply."]).
  - discriminate.
  - discriminate.
  - split; [|by vm_compute]. repeat (apply Forall_cons; split; [by vm_compute|]).
    apply Forall_nil_2.
  - repeat (apply Forall_cons; split; [by vm_compute|]). apply Forall_nil_2.
  - by vm_compute.
Defined.

(* ===================================================================== *)
(** ** From the text source to the normaliser *)
(* ===================================================================== *)

Section Pipeline.

Import Gen.

Variable U : casing.

Lemma lstrip_spaces (a x : pystr) : forallb isspace a = true -> lstrip (a ++ x) = lstrip x.
Proof.
  induction a as [|c a IH]; [done|]. cbn [forallb app lstrip].
  intros [-> Ha]%andb_true_iff. by apply IH.
Qed.

Lemma not_contains_lstrip sub s : contains sub s = false -> contains sub (lstrip s) = false.
Proof.
  intros H. destruct (contains sub (lstrip s)) eqn:E; [|done].
  destruct (lstrip_split s) as (w & Hw & _).
  rewrite Hw in H. by rewrite (contains_app_r sub w _ E) in H.
Qed.

(** The first line of a trimmed text that begins, after white space, with
    a line that is not blank. *)
Lemma first_line_of_strip (a name r1 : pystr) (c : N) (r2 : pystr) :
  forallb isspace a = true ->
  strip name <> [] ->
  contains [nl] name = false ->
  isspace c = false ->
  exists post, split [nl] (strip (a ++ name ++ nl :: r1 ++ c :: r2)) = lstrip name :: post.
Proof.
  intros Ha Hname Hnl Hc. unfold strip at 1.
  rewrite lstrip_spaces by done. rewrite lstrip_app_nonblank by done.
  replace (lstrip name ++ nl :: r1 ++ c :: r2)
    with ((lstrip name ++ nl :: r1) ++ c :: r2) by (by rewrite <- app_assoc).
  rewrite rstrip_app_keep by done. rewrite <- app_assoc. cbn [app].
  rewrite split_nl_app, (split_nl_line (lstrip name)) by (by apply not_contains_lstrip).
  by eexists.
Qed.

Lemma name_candidate_lstrip (name : pystr) :
  name_candidate U (lstrip name) = name_candidate U name.
Proof. unfold name_candidate. by rewrite strip_lstrip. Qed.

Lemma name_candidate_nonblank (name : pystr) :
  name_candidate U name = true -> strip name <> [].
Proof. intros H%name_candidate_truthy. by destruct (strip name). Qed.

Lemma unbraced_id (s : pystr) : Forall (fun c => is_brace c = false) s -> unbraced s = s.
Proof.
  intros H. unfold unbraced. apply filter_all.
  eapply Forall_impl; [exact H|]. by intros c ->.
Qed.

(** The first line of the template resume. *)
Lemma template_first_line (p : profile) (job_description : pystr) :
  let name := get p "name" (lit "Your Name") in
  strip name <> [] -> contains [nl] name = false ->
  exists post,
    split [nl] (_generate_resume_template p job_description) = lstrip name :: post.
Proof.
  intros name Hname Hnl. unfold _generate_resume_template. fold name.
  cbn [join].
  match goal with
  | |- context [strip ([] ++ [nl] ++ (pad 8 ++ name) ++ [nl] ++ (pad 8 ++ ?email ++ lit " | " ++ ?phone) ++ ?rest)] =>
      replace ([] ++ [nl] ++ (pad 8 ++ name) ++ [nl] ++ (pad 8 ++ email ++ lit " | " ++ phone) ++ rest)
        with ((nl :: pad 8) ++ name ++ nl :: (pad 8 ++ email ++ [space]) ++ 124%N :: (space :: phone ++ rest))
  end.
  - by apply first_line_of_strip.
  - change (lit " | ") with [space; 124%N; space].
    rewrite <- !app_assoc. cbn [app]. reflexivity.
Qed.

(** The first line of the resume of the API path. *)
Lemma formatted_first_line (p : profile) (text : pystr) :
  let name := get p "name" (lit "Your Name") in
  strip name <> [] -> contains [nl] name = false ->
  Forall (fun c => is_brace c = false) name ->
  exists post, split [nl] (formatted_resume U p text) = lstrip name :: post.
Proof.
  intros name Hname Hnl Hbr.
  destruct (formatted_resume_headers U p text) as (hd & b & c & d & tl & _ & Hhd & ->).
  rewrite Hhd, unbraced_head. fold name. rewrite (unbraced_id name Hbr).
  rewrite lstrip_app_nonblank by done.
  rewrite <- !app_assoc. cbn [app].
  rewrite split_nl_app, (split_nl_line (lstrip name)) by (by apply not_contains_lstrip).
  by eexists.
Qed.

Lemma generated_first_line (api_key : option pystr) (r : reply) (p : profile)
    (job_description : pystr) :
  let name := get p "name" (lit "Your Name") in
  strip name <> [] -> contains [nl] name = false ->
  Forall (fun c => is_brace c = false) name ->
  exists post,
    split [nl] (generate_resume U api_key r p job_description) = lstrip name :: post.
Proof.
  intros name Hname Hnl Hbr. unfold generate_resume.
  destruct api_key as [[|k0 key]|]; [by apply template_first_line| |by apply template_first_line].
  destruct r; [by apply template_first_line|by apply formatted_first_line].
Qed.

End Pipeline.

(** X19.  Whatever the completion service does (no key, an error, any
    completion), the resume [generate_resume] returns, read by the
    normaliser, has the name of the profile, trimmed, as its name; and
    every story that [create_resume_pdf] assembles from that resume
    (paragraph constructors taken as data: the [Paragraph] of the layout
    library may raise on markup in the name, and then there is no story)
    opens with the title paragraph that holds this name.  This for a name
    that the normaliser would take as a name (not blank, no leading
    brace, no header word, no [@], no [http]) and that holds no line
    break and no brace. *)
Theorem generated_resume_keeps_name (U : casing) (api_key : option pystr) (r : Gen.reply)
    (p : Gen.profile) (job_description : pystr) :
  let name := Gen.get p "name" (lit "Your Name") in
  let resume := Gen.generate_resume U api_key r p job_description in
  name_candidate U name = true ->
  contains [nl] name = false ->
  Forall (fun c => Gen.is_brace c = false) name ->
  field (_parse_resume_text U resume) "name" = Some (strip name)
  /\ forall story,
       Render.resume_story U resume p = Ok story ->
       exists contact rest,
         story = Render.Paragraph (strip name) "CustomTitle"
                 :: Render.Paragraph contact "ContactInfo" :: rest.
Proof.
  intros name resume Hcand Hnl Hbr.
  pose proof (name_candidate_nonblank U name Hcand) as Hne.
  destruct (generated_first_line U api_key r p job_description Hne Hnl Hbr) as [post Hsplit].
  fold resume in Hsplit.
  destruct (parse_lines_name U [] (lstrip name) post) as (m & Hrun & Hm);
    [done|by rewrite name_candidate_lstrip|].
  cbn [app] in Hrun. rewrite strip_lstrip in Hm.
  assert (Hparse : _parse_resume_text U resume = Ok m).
  { unfold _parse_resume_text. by rewrite Hsplit. }
  split; [by rewrite Hparse|].
  intros story. unfold Render.resume_story. rewrite Hparse. cbn [mbind exc_bind].
  unfold Render._build_header_section. rewrite Hm.
  destruct (strip name) as [|c0 n0] eqn:E; [done|].
  intros Hstory. do 2 eexists. cbn [app] in Hstory. by injection Hstory as <-.
Qed.

Lemma generated_resume_keeps_name_witness :
  let p : Gen.profile := {[ "name"%string := lit "  Ann Lee " ]} in
  field (_parse_resume_text latin1
           (Gen.generate_resume latin1 (Some (lit "key")) (Gen.Completes (lit "Summary: x"))
              p (lit "a job"))) "name"
  = Some (lit "Ann Lee")
  /\ field (_parse_resume_text latin1
              (Gen.generate_resume latin1 None Gen.Raises p (lit "a job"))) "name"
     = Some (lit "Ann Lee").
Proof.
  intros p. split.
  - apply (generated_resume_keeps_name latin1 (Some (lit "key"))
             (Gen.Completes (lit "Summary: x")) p (lit "a job")).
    + reflexivity.
    + reflexivity.
    + apply Forall_forall. intros c Hc.
      repeat (apply elem_of_cons in Hc as [->|Hc]; [reflexivity|]).
      by apply elem_of_nil in Hc.
  - apply (generated_resume_keeps_name latin1 None Gen.Raises p (lit "a job")).
    + reflexivity.
    + reflexivity.
    + apply Forall_forall. intros c Hc.
      repeat (apply elem_of_cons in Hc as [->|Hc]; [reflexivity|]).
      by apply elem_of_nil in Hc.
Defined.

(* ===================================================================== *)
(** ** Operations of the store, one after the other *)
(* ===================================================================== *)

Section StoreSequences.

Import Store StoreOps.

Variable U : casing.

Lemma delete_last {X} (l : list X) (x : X) : delete (length l) (l ++ [x]) = l.
Proof. induction l as [|y l IH]; [done|]. cbn. by f_equal. Qed.

(** The count of a status after one record is replaced. *)
Lemma status_count_alter (k : pystr) (g : record -> record) (apps : list record)
    (i : nat) (old : record) :
  apps !! i = Some old ->
  status_count U k (alter g i apps)
  = (status_count U k apps
     - (if bool_decide (lowered_field U old (lit "status") (lit "pending") = Some k)
        then 1 else 0)
     + (if bool_decide (lowered_field U (g old) (lit "status") (lit "pending") = Some k)
        then 1 else 0))%Z.
Proof.
  revert i. induction apps as [|app rest IH]; intros i Hi; [done|].
  destruct i as [|i].
  - injection Hi as ->. change (alter g 0 (old :: rest)) with (g old :: rest).
    rewrite !status_count_cons. lia.
  - change (alter g (S i) (app :: rest)) with (app :: alter g i rest).
    rewrite !status_count_cons, (IH i Hi). lia.
Qed.

End StoreSequences.

(** X20.  Saving a record and then deleting the last index gives back the
    records there were: the delete succeeds and a read returns the
    records read before the save. *)
Theorem save_then_delete_round_trip (f : Store.file) (application_data : Store.record) :
  let saved := (StoreOps.save_job_application f application_data).2 in
  let last_index := Z.of_nat (length (stored_records f)) in
  (StoreOps.delete_application saved last_index).1 = true
  /\ stored_records (StoreOps.delete_application saved last_index).2 = stored_records f.
Proof.
  intros saved last_index. subst saved last_index.
  unfold stored_records, StoreOps.save_job_application, StoreOps.delete_application.
  destruct (Store.get_job_applications f) as [apps f1]. cbn [fst snd].
  rewrite read_after_write.
  rewrite (proj2 (in_range_test (Z.of_nat (length apps)) (length (apps ++ [application_data]))))
    by (rewrite length_app; cbn; lia).
  cbn [fst snd]. rewrite read_after_write. cbn [fst].
  split; [done|]. by rewrite Nat2Z.id, delete_last.
Qed.

(** X21.  The statistics follow a status update: after
    [update_application_status] at an index in range, every count is the
    count before, less one where the old status of the record (pending
    when it had none) lower-cases to that key, plus one where the new
    status does; so the total stays, unless one of the two statuses reads
    total_applications. *)
Theorem stats_follow_status_update (U : casing) (now new_status : pystr) (f : Store.file)
    (app_index : Z) (old : Store.record) (stats : gmap pystr Z) :
  (0 <= app_index)%Z ->
  stored_records f !! Z.to_nat app_index = Some old ->
  (StoreOps.get_application_stats U f).1 = Some stats ->
  exists stats',
    (StoreOps.get_application_stats U
       (Store.update_application_status now f app_index new_status).2).1 = Some stats'
    /\ forall k,
         stats' !! k
         = (fun n =>
              (n - (if bool_decide
                         (StoreOps.lowered_field U old (lit "status") (lit "pending") = Some k)
                    then 1 else 0)
                 + (if bool_decide (lower U new_status = k) then 1 else 0))%Z)
           <$> stats !! k.
Proof.
  intros Hpos Hold. unfold stored_records in Hold.
  unfold StoreOps.get_application_stats, Store.update_application_status.
  destruct (Store.get_job_applications f) as [apps f1]. cbn [fst snd] in *.
  intros Hrun.
  assert (Hi : (0 <= app_index < Z.of_nat (length apps))%Z).
  { apply lookup_lt_Some in Hold. lia. }
  rewrite (proj2 (in_range_test _ _) Hi). cbn [fst snd].
  rewrite read_after_write. cbn [fst snd].
  set (g := fun r : Store.record =>
              <[lit "updated_at" := Store.JStr now]>
                (<[lit "status" := Store.JStr new_status]> r)).
  assert (Hg : forall r, StoreOps.lowered_field U (g r) (lit "status") (lit "pending")
                         = Some (lower U new_status)).
  { intros r. unfold StoreOps.lowered_field, g.
    rewrite lookup_insert_ne by done. by rewrite lookup_insert_eq. }
  assert (Hall : Forall (text_status U) apps).
  { apply (count_all_returns U apps (StoreOps.initial_stats (Z.of_nat (length apps)))).
    by rewrite Hrun. }
  destruct (count_all_spec U apps (StoreOps.initial_stats (Z.of_nat (length apps))) Hall)
    as (s0 & Hs0 & Hk0).
  rewrite Hrun in Hs0. injection Hs0 as <-.
  assert (Hall' : Forall (text_status U) (alter g (Z.to_nat app_index) apps)).
  { apply Forall_alter; [done|]. intros r _ _. unfold text_status. by rewrite Hg. }
  destruct (count_all_spec U _ (StoreOps.initial_stats
              (Z.of_nat (length (alter g (Z.to_nat app_index) apps)))) Hall')
    as (stats' & Hrun' & Hk').
  exists stats'. split; [exact Hrun'|]. intros k.
  rewrite Hk', Hk0, length_alter, (status_count_alter U k g apps _ old Hold), Hg.
  destruct (StoreOps.initial_stats (Z.of_nat (length apps)) !! k) as [n|]; csimpl; [|done].
  f_equal.
  destruct (decide (lower U new_status = k)) as [Heq|Hne].
  - rewrite (bool_decide_eq_true_2 (Some _ = Some k)) by (by rewrite Heq).
    rewrite (bool_decide_eq_true_2 (lower U new_status = k)) by done. lia.
  - rewrite (bool_decide_eq_false_2 (Some _ = Some k)) by congruence.
    rewrite (bool_decide_eq_false_2 (lower U new_status = k)) by done. lia.
Qed.

Lemma stats_follow_status_update_witness :
  let a : Store.record := {[ lit "company_name" := Store.JStr (lit "A") ]} in
  let f := Store.Holds (Store.JArr [Store.JObj a]) in
  exists stats',
    (StoreOps.get_application_stats latin1
       (Store.update_application_status (lit "2024-05-01T10:00:00") f 0 (lit "Interview")).2).1
    = Some stats'
    /\ stats' !! lit "interview" = Some 1%Z
    /\ stats' !! lit "pending" = Some 0%Z.
Proof.
  intros a f.
  destruct (stats_follow_status_update latin1 (lit "2024-05-01T10:00:00") (lit "Interview")
              f 0 a (<[lit "pending" := 1%Z]> (StoreOps.initial_stats 1)))
    as (stats' & Hrun & Hk); [done|reflexivity|reflexivity|].
  exists stats'. split; [exact Hrun|]. split; rewrite Hk; reflexivity.
Defined.

(* ===================================================================== *)
(** ** The story of the template letter *)
(* ===================================================================== *)

Section LetterStory.

Import Gen Render.

Lemma contains_nl_app (x y : pystr) :
  contains [nl] (x ++ y) = false <-> contains [nl] x = false /\ contains [nl] y = false.
Proof.
  induction x as [|c x IH]; cbn [app].
  - split; [by intros ?|by intros [_ ?]].
  - rewrite !contains_nl_cons, IH. tauto.
Qed.

(** A text cut at its first empty line. *)
Lemma split_blank_line (a b : pystr) :
  contains [nl] a = false ->
  split [nl; nl] (a ++ nl :: nl :: b) = a :: split [nl; nl] b.
Proof.
  intros Ha. unfold split. induction a as [|c a IH].
  - cbn [app split_from startswith length Nat.sub]. rewrite N.eqb_refl. cbn [andb].
    by destruct (split_from [nl; nl] 0 b).
  - apply contains_nl_cons in Ha as [Hc Ha]. specialize (IH Ha).
    cbn [app split_from startswith]. rewrite Hc. cbn [andb].
    destruct (split_from [nl; nl] 0 (a ++ nl :: nl :: b)) as [h t].
    destruct (split_from [nl; nl] 0 b) as [h' t'].
    injection IH as -> ->. done.
Qed.

Lemma rstrip_spaces (x w : pystr) : forallb isspace w = true -> rstrip (x ++ w) = rstrip x.
Proof.
  intros H. unfold rstrip. rewrite rev_app_distr, lstrip_spaces; [done|].
  by rewrite forallb_rev.
Qed.

Lemma rstrip_app_rstrip (a x : pystr) : rstrip (a ++ rstrip x) = rstrip (a ++ x).
Proof.
  destruct (rstrip_split x) as (w & Hw & Hsp).
  transitivity (rstrip ((a ++ rstrip x) ++ w));
    [by rewrite (rstrip_spaces (a ++ rstrip x) w Hsp)|].
  by rewrite <- app_assoc, <- Hw.
Qed.

Lemma not_contains_prefix (sub x w : pystr) :
  contains sub (x ++ w) = false -> contains sub x = false.
Proof.
  intros H. destruct (contains sub x) eqn:E; [|done].
  by rewrite (contains_app_l sub x w E) in H.
Qed.

(** The code points of a text, joined by a comma and a space. *)
Lemma join_chars_no_nl (s : pystr) :
  contains [nl] s = false ->
  contains [nl] (join (lit ", ") (List.map (fun c => [c]) s)) = false.
Proof.
  induction s as [|c s IH]; [done|]. intros [Hc Hs]%contains_nl_cons.
  destruct s as [|d s]; [cbn [List.map join]; by apply contains_nl_cons|].
  change (join (lit ", ") (List.map (fun c => [c]) (c :: d :: s)))
    with (c :: 44%N :: space :: join (lit ", ") (List.map (fun c => [c]) (d :: s))).
  apply contains_nl_cons. split; [done|].
  apply contains_nl_cons. split; [done|].
  apply contains_nl_cons. split; [done|]. by apply IH.
Qed.

Lemma strip_framed (a m1 mid m2 : pystr) (c1 c2 : N) (r1 r2 : pystr) :
  forallb isspace a = true ->
  m1 = c1 :: r1 -> isspace c1 = false ->
  m2 = r2 ++ [c2] -> isspace c2 = false ->
  strip (a ++ m1 ++ mid ++ m2) = m1 ++ mid ++ m2.
Proof.
  intros Ha H1 Hc1 H2 Hc2.
  pose proof (strip_between a m1 mid m2 [] c1 c2 r1 r2 H1 Hc1 H2 Hc2) as H.
  rewrite !app_nil_r in H. rewrite H.
  rewrite <- (app_nil_r a), lstrip_spaces by done. done.
Qed.

(** The template letter, trimmed. *)
Lemma template_letter_text (p : profile) (company_name position_title job_description : pystr) :
  _generate_cover_letter_template p company_name position_title job_description
  = lit "Dear Hiring Manager,"
    ++ nl :: nl
    :: (pad 4 ++ letter_opening position_title company_name (spelled_skills p))
    ++ nl :: nl
    :: (pad 4 ++ letter_experience (get p "experience" (lit "several years of experience")))
    ++ nl :: nl
    :: (pad 4 ++ letter_thanks)
    ++ nl :: nl
    :: (pad 4 ++ lit "Sincerely,"
        ++ rstrip (nl :: pad 4 ++ get p "name" (lit "Your Name") ++ nl :: pad 8)).
Proof.
  unfold _generate_cover_letter_template.
  fold (spelled_skills p). cbn [join].
  set (mid := nl :: nl :: (pad 4 ++ letter_opening position_title company_name (spelled_skills p))
              ++ nl :: nl
                 :: (pad 4 ++ letter_experience
                               (get p "experience" (lit "several years of experience")))
              ++ nl :: nl :: (pad 4 ++ letter_thanks)
              ++ nl :: nl :: pad 4).
  set (e := nl :: pad 4 ++ get p "name" (lit "Your Name") ++ nl :: pad 8).
  transitivity (strip ((nl :: pad 4) ++ lit "Dear Hiring Manager," ++ mid
                       ++ lit "Sincerely," ++ e)).
  - f_equal. subst mid e. unfold letter_opening, letter_experience, letter_thanks.
    repeat (first [rewrite <- app_assoc | progress cbn [app]]). reflexivity.
  - rewrite (strip_between (nl :: pad 4) (lit "Dear Hiring Manager,") mid
               (lit "Sincerely,") e 68%N 44%N (lit "ear Hiring Manager,")
               (lit "Sincerely")) by done.
    change (lstrip (nl :: pad 4)) with (@nil N). subst mid.
    repeat (first [rewrite <- app_assoc | progress cbn [app]]). reflexivity.
Qed.

Lemma letter_opening_no_nl (position_title company_name skills : pystr) :
  contains [nl] position_title = false -> contains [nl] company_name = false ->
  contains [nl] skills = false ->
  contains [nl] (pad 4 ++ letter_opening position_title company_name skills) = false.
Proof.
  intros H1 H2 H3. unfold letter_opening.
  repeat (apply contains_nl_app; split); done.
Qed.

Lemma letter_experience_no_nl (experience : pystr) :
  contains [nl] experience = false ->
  contains [nl] (pad 4 ++ letter_experience experience) = false.
Proof.
  intros H. unfold letter_experience. repeat (apply contains_nl_app; split); done.
Qed.

Lemma spelled_skills_no_nl (p : profile) :
  contains [nl] (get p "skills" []) = false -> contains [nl] (spelled_skills p) = false.
Proof.
  unfold get, spelled_skills. destruct (p !! "skills"%string); [|done].
  apply join_chars_no_nl.
Qed.

Lemma strip_letter_opening (position_title company_name skills : pystr) :
  strip (pad 4 ++ letter_opening position_title company_name skills)
  = letter_opening position_title company_name skills.
Proof.
  pose proof (strip_framed (pad 4)
             (lit "I am writing to express my interest in the ")
             (position_title ++ lit " position at " ++ company_name
              ++ lit ". With my background in " ++ skills)
             (lit ", I am confident in my ability to contribute effectively to your team.")
             73%N 46%N
             (lit " am writing to express my interest in the ")
             (lit ", I am confident in my ability to contribute effectively to your team"))
    as H.
  rewrite <- !app_assoc in H. by apply H.
Qed.

Lemma strip_letter_experience (experience : pystr) :
  strip (pad 4 ++ letter_experience experience) = letter_experience experience.
Proof.
  by apply (strip_framed (pad 4) (lit "My experience includes ") experience
             (lit ", and I have a proven track record of solving complex problems and delivering high-quality results.")
             77%N 46%N
             (lit "y experience includes ")
             (lit ", and I have a proven track record of solving complex problems and delivering high-quality results")).
Qed.

(** The signature: the closing and the name, in one paragraph. *)
Lemma signature_paragraph (name : pystr) :
  contains [nl] name = false ->
  contains [nl; nl] (pad 4 ++ lit "Sincerely," ++ rstrip (nl :: pad 4 ++ name ++ nl :: pad 8))
    = false
  /\ strip (pad 4 ++ lit "Sincerely," ++ rstrip (nl :: pad 4 ++ name ++ nl :: pad 8))
     = strip (lit "Sincerely," ++ [nl] ++ pad 4 ++ name)
  /\ truthy (strip (lit "Sincerely," ++ [nl] ++ pad 4 ++ name)) = true.
Proof.
  intros Hname. split; [|split].
  - destruct (rstrip_split (nl :: pad 4 ++ name ++ nl :: pad 8)) as (w & Hw & _).
    apply (not_contains_prefix _ _ w).
    rewrite <- !app_assoc, <- Hw, app_assoc.
    apply no_blank_after; [done|done|].
    replace (pad 4 ++ name ++ nl :: pad 8) with ((pad 4 ++ name) ++ nl :: pad 8)
      by (by rewrite <- app_assoc).
    apply no_blank_after; [|done|done].
    apply contains_nl_app. by split.
  - unfold strip. rewrite lstrip_spaces by done.
    change (lit "Sincerely," ++ ?x) with (83%N :: lit "incerely," ++ x).
    rewrite !lstrip_cons_keep by done.
    change (83%N :: lit "incerely," ++ ?x) with (lit "Sincerely," ++ x).
    rewrite rstrip_app_rstrip.
    replace (lit "Sincerely," ++ nl :: pad 4 ++ name ++ nl :: pad 8)
      with ((lit "Sincerely," ++ [nl] ++ pad 4 ++ name) ++ nl :: pad 8)
      by (repeat (first [rewrite <- app_assoc | progress cbn [app]]); reflexivity).
    by rewrite rstrip_spaces.
  - change (lit "Sincerely," ++ ?x) with (83%N :: lit "incerely," ++ x).
    destruct (strip_cons_head 83%N (lit "incerely," ++ [nl] ++ pad 4 ++ name)) as [y ->]; done.
Qed.

End LetterStory.

(** X22.  The items that [create_cover_letter_pdf] constructs from the
    template letter (paragraph constructors taken as data: the
    [Paragraph] of the layout library may raise on markup in a field,
    which the code raises again, and what it does with a text is not
    modelled) are, after the five header items, five paragraphs, each
    followed by a space of 0.1 inch: the greeting, the three paragraphs
    of the template, and one paragraph that holds the closing and the
    name.  This for a position, a company, skills, an experience and a
    name without a line break. *)
Theorem template_letter_story (date_str : pystr) (p : Gen.profile)
    (company_name position_title job_description : pystr) :
  let name := Gen.get p "name" (lit "Your Name") in
  let experience := Gen.get p "experience" (lit "several years of experience") in
  contains [nl] position_title = false ->
  contains [nl] company_name = false ->
  contains [nl] (Gen.get p "skills" []) = false ->
  contains [nl] experience = false ->
  contains [nl] name = false ->
  List.skipn 5
    (Render.cover_letter_story date_str
       (Gen._generate_cover_letter_template p company_name position_title job_description) p)
  = [Render.Paragraph (lit "Dear Hiring Manager,") "BodyText"; Render.Spacer 10;
     Render.Paragraph (letter_opening position_title company_name (spelled_skills p))
       "BodyText"; Render.Spacer 10;
     Render.Paragraph (letter_experience experience) "BodyText"; Render.Spacer 10;
     Render.Paragraph letter_thanks "BodyText"; Render.Spacer 10;
     Render.Paragraph (strip (lit "Sincerely," ++ [nl] ++ Gen.pad 4 ++ name)) "BodyText";
     Render.Spacer 10].
Proof.
  intros name experience Hpos Hcomp Hskills Hexp Hname.
  unfold Render.cover_letter_story. cbn [app skipn].
  rewrite template_letter_text. fold name experience.
  rewrite (split_blank_line (lit "Dear Hiring Manager,")) by done.
  rewrite (split_blank_line (Gen.pad 4 ++ letter_opening _ _ _))
    by (apply letter_opening_no_nl; [done|done|by apply spelled_skills_no_nl]).
  rewrite (split_blank_line (Gen.pad 4 ++ letter_experience _))
    by (by apply letter_experience_no_nl).
  rewrite (split_blank_line (Gen.pad 4 ++ letter_thanks)) by done.
  destruct (signature_paragraph name Hname) as (Hdense & Hsig & Htruthy).
  rewrite (split_none _ _ Hdense).
  cbn [flat_map]. rewrite Hsig, Htruthy.
  replace (strip (lit "Dear Hiring Manager,")) with (lit "Dear Hiring Manager,")
    by (by vm_compute).
  replace (strip (Gen.pad 4 ++ letter_thanks)) with letter_thanks by (by vm_compute).
  rewrite strip_letter_opening, strip_letter_experience.
  reflexivity.
Qed.

Lemma template_letter_story_witness :
  length (Render.cover_letter_story (lit "May 01, 2024")
            (Gen._generate_cover_letter_template test_profile (lit "Acme") (lit "Engineer")
               (lit "a job")) test_profile) = 15.
Proof.
  rewrite <- (firstn_skipn 5 (Render.cover_letter_story _ _ _)), length_app.
  rewrite (template_letter_story (lit "May 01, 2024") test_profile (lit "Acme")
             (lit "Engineer") (lit "a job")); reflexivity.
Defined.

(* ===================================================================== *)
(** ** The parts of a labelled completion *)
(* ===================================================================== *)

Section Labelled.

Import Gen.

Variable U : casing.

Lemma startswith_within (p u v : pystr) :
  length p <= length u -> startswith p (u ++ v) = startswith p u.
Proof.
  revert u. induction p as [|a p IH]; intros u Hlen; [done|].
  destruct u as [|b u]; [cbn in Hlen; lia|].
  cbn [app startswith]. rewrite IH; [done|]. cbn in Hlen. lia.
Qed.

Lemma split_from_skip (sep x r : pystr) :
  split_from sep (length x) (x ++ r) = split_from sep 0 r.
Proof. induction x as [|c x IH]; [done|]. cbn [length app split_from]. exact IH. Qed.

(** Cutting at the first occurrence of a separator. *)
Lemma split_from_at (sep a r : pystr) :
  sep <> [] ->
  contains sep (a ++ List.removelast sep) = false ->
  split_from sep 0 (a ++ sep ++ r)
  = (a, let '(h, t) := split_from sep 0 r in h :: t).
Proof.
  intros Hsep. induction a as [|c a IH]; intros Hfree.
  - destruct sep as [|s0 sep'] eqn:Esep; [done|]. rewrite <- Esep.
    assert (Hstart : startswith sep (sep ++ r) = true) by apply startswith_app.
    cbn [app]. rewrite Esep in *. cbn [app] in *.
    cbn [split_from]. rewrite Hstart.
    cbn [length Nat.sub]. rewrite Nat.sub_0_r, split_from_skip. done.
  - cbn [app] in Hfree. apply contains_cons_false in Hfree as [Hhere Hrest].
    assert (Hnot : startswith sep (c :: a ++ sep ++ r) = false).
    { rewrite <- Hhere.
      rewrite (app_removelast_last 0%N Hsep) at 2.
      rewrite <- app_assoc, app_assoc.
      change (c :: (a ++ removelast sep) ++ [List.last sep 0%N] ++ r)
        with ((c :: a ++ removelast sep) ++ [List.last sep 0%N] ++ r).
      apply startswith_within.
      cbn [length]. rewrite length_app.
      assert (length sep = length (removelast sep) + 1).
      { rewrite (app_removelast_last 0%N Hsep) at 1. by rewrite length_app. }
      lia. }
    cbn [app split_from]. rewrite Hnot, (IH Hrest). done.
Qed.

Lemma split_once (label text before after : pystr) :
  label <> [] -> once label text before after ->
  split_from label 0 text = (before, [after]).
Proof.
  intros Hne (-> & Hbefore & Hafter).
  rewrite split_from_at by done. by rewrite split_from_none.
Qed.

Lemma once_contains (label text before after : pystr) :
  once label text before after -> contains label text = true.
Proof. intros (-> & _ & _). apply contains_spec. by exists before, after. Qed.

Lemma last_piece_once (label text before after : pystr) :
  label <> [] -> once label text before after -> last_piece label text = after.
Proof. intros Hne H. unfold last_piece. by rewrite (split_once label text before after). Qed.

Lemma first_piece_at (label a r : pystr) :
  label <> [] -> contains label (a ++ List.removelast label) = false ->
  first_piece label (a ++ label ++ r) = a.
Proof. intros Hne H. unfold first_piece. by rewrite split_from_at. Qed.

Lemma not_contains_suffix (sub a s : pystr) :
  contains sub (a ++ s) = false -> contains sub s = false.
Proof.
  intros H. destruct (contains sub s) eqn:E; [|done].
  by rewrite (contains_app_r sub a s E) in H.
Qed.

Lemma from_first_none (test : pystr -> bool) (lines : list pystr) :
  Forall (fun line => test line = false) lines -> from_first test lines = None.
Proof.
  induction 1 as [|line lines Hl _ IH]; [done|]. cbn [from_first]. by rewrite Hl.
Qed.

Lemma find_none {X} (test : X -> bool) (xs : list X) :
  Forall (fun x => test x = false) xs -> List.find test xs = None.
Proof. induction 1 as [|x xs Hx _ IH]; [done|]. cbn [List.find]. by rewrite Hx. Qed.

(** The cleaning steps leave a plain completion alone. *)
Lemma cleaned_plain (p : profile) (text : pystr) :
  plain_completion U p (strip text) -> cleaned U p text = strip text.
Proof.
  intros (Hdef & Hfence & Hprint & Hlines & Htriggers).
  unfold cleaned, drop_code. rewrite Hdef, Hfence, Hprint. cbn [orb].
  rewrite !strip_idemp.
  assert (Hpre : drop_preamble p (strip text) = strip text).
  { unfold drop_preamble. destruct (contains [nl] (strip text)); [|done].
    rewrite from_first_none; [done|].
    eapply Forall_impl; [exact Hlines|]. intros line (-> & -> & ->). done. }
  rewrite Hpre.
  assert (Htrail : drop_trailer U (strip text) = strip text).
  { unfold drop_trailer. by rewrite find_none. }
  by rewrite Htrail, ?strip_idemp.
Qed.

End Labelled.

(** X23.  On the API path, when the completion, trimmed, is plain (no
    code, no line the cleaning would restart from, no trigger word) and
    holds each of the labels [Summary:], [Skills:], [Experience:],
    [Education:] exactly once, in that order, after any text [P] (a
    title line, or nothing), the resume returned is the fixed layout
    with, under the four headers, what stands between the labels: the
    summary trimmed; the skills and the experience trimmed, with a space
    put after each bullet; and the education up to its first closing
    brace, trimmed.  The braces are then dropped and the whole is
    trimmed.  What stands before [Summary:] is not in the resume. *)
Theorem labelled_completion_sections (U : casing) (api_key : pystr) (p : Gen.profile)
    (job_description text P S K E D : pystr) :
  api_key <> [] ->
  plain_completion U p (strip text) ->
  once (lit "Summary:") (strip text) P
       (S ++ lit "Skills:" ++ K ++ lit "Experience:" ++ E ++ lit "Education:" ++ D) ->
  once (lit "Skills:") (strip text) (P ++ lit "Summary:" ++ S)
       (K ++ lit "Experience:" ++ E ++ lit "Education:" ++ D) ->
  once (lit "Experience:") (strip text) (P ++ lit "Summary:" ++ S ++ lit "Skills:" ++ K)
       (E ++ lit "Education:" ++ D) ->
  once (lit "Education:") (strip text)
       (P ++ lit "Summary:" ++ S ++ lit "Skills:" ++ K ++ lit "Experience:" ++ E) D ->
  Gen.generate_resume U (Some api_key) (Gen.Completes text) p job_description
  = strip (unbraced
      (laid_out_parts p
         (strip S)
         (replace [Gen.bullet] [Gen.bullet; space] (strip K))
         (replace [Gen.bullet] [Gen.bullet; space] (strip E))
         (strip (first_piece [Gen.rbrace] D)))).
Proof.
  intros Hkey Hplain Hsum Hski Hexp Hedu.
  unfold Gen.generate_resume. destruct api_key as [|k0 key]; [done|].
  unfold Gen.formatted_resume. fold (unbraced (Gen.layout p (Gen.cleaned U p text))).
  rewrite (cleaned_plain U p text Hplain).
  do 2 f_equal. unfold Gen.layout, laid_out_parts.
  assert (Hs : Gen.summary_part (strip text) = strip S).
  { unfold Gen.summary_part. rewrite (once_contains _ _ _ _ Hsum).
    rewrite (last_piece_once (lit "Summary:") _ _ _ ltac:(done) Hsum).
    rewrite first_piece_at; [done|done|].
    destruct Hski as (_ & Hfree & _).
    replace ((P ++ lit "Summary:" ++ S) ++ removelast (lit "Skills:"))
      with ((P ++ lit "Summary:") ++ S ++ removelast (lit "Skills:"))
      in Hfree by (by rewrite <- !app_assoc).
    by apply not_contains_suffix in Hfree. }
  assert (Hk : Gen.skills_part (strip text)
               = replace [Gen.bullet] [Gen.bullet; space] (strip K)).
  { unfold Gen.skills_part. rewrite (once_contains _ _ _ _ Hski).
    rewrite (last_piece_once (lit "Skills:") _ _ _ ltac:(done) Hski).
    rewrite first_piece_at; [done|done|].
    destruct Hexp as (_ & Hfree & _).
    replace ((P ++ lit "Summary:" ++ S ++ lit "Skills:" ++ K)
             ++ removelast (lit "Experience:"))
      with ((P ++ lit "Summary:" ++ S ++ lit "Skills:")
            ++ K ++ removelast (lit "Experience:"))
      in Hfree by (by rewrite <- !app_assoc).
    by apply not_contains_suffix in Hfree. }
  assert (He : Gen.experience_part (strip text)
               = replace [Gen.bullet] [Gen.bullet; space] (strip E)).
  { unfold Gen.experience_part. rewrite (once_contains _ _ _ _ Hexp).
    rewrite (last_piece_once (lit "Experience:") _ _ _ ltac:(done) Hexp).
    rewrite first_piece_at; [done|done|].
    destruct Hedu as (_ & Hfree & _).
    replace ((P ++ lit "Summary:" ++ S ++ lit "Skills:" ++ K ++ lit "Experience:" ++ E)
             ++ removelast (lit "Education:"))
      with ((P ++ lit "Summary:" ++ S ++ lit "Skills:" ++ K ++ lit "Experience:")
            ++ E ++ removelast (lit "Education:"))
      in Hfree by (by rewrite <- !app_assoc).
    by apply not_contains_suffix in Hfree. }
  assert (Hd : Gen.education_part (strip text) = strip (first_piece [Gen.rbrace] D)).
  { unfold Gen.education_part. rewrite (once_contains _ _ _ _ Hedu).
    by rewrite (last_piece_once (lit "Education:") _ _ _ ltac:(done) Hedu). }
  by rewrite Hs, Hk, He, Hd.
Qed.

Lemma labelled_completion_sections_witness :
  let p : Gen.profile := {[ "name"%string := lit "Ann Lee" ]} in
  let text := lit "Title: Dev" ++ [nl] ++ lit "Summary: Builds tools." ++ [nl]
              ++ lit "Skills: " ++ [Gen.bullet]
              ++ lit "Rocq" ++ [nl] ++ lit "Experience: Five years" ++ [nl]
              ++ lit "Education: BSc}" in
  Gen.generate_resume latin1 (Some (lit "key")) (Gen.Completes text) p (lit "a job")
  = strip (unbraced
      (laid_out_parts p (lit "Builds tools.") ([Gen.bullet; space] ++ lit "Rocq")
         (lit "Five years") (lit "BSc"))).
Proof.
  intros p text.
  apply (labelled_completion_sections latin1 (lit "key") p (lit "a job") text
           (lit "Title: Dev" ++ [nl])
           (lit " Builds tools." ++ [nl]) (lit " " ++ [Gen.bullet] ++ lit "Rocq" ++ [nl])
           (lit " Five years" ++ [nl]) (lit " BSc}")).
  - discriminate.
  - repeat split; try (by vm_compute); apply (bool_decide_unpack _); by vm_compute.
  - repeat split; by vm_compute.
  - repeat split; by vm_compute.
  - repeat split; by vm_compute.
  - repeat split; by vm_compute.
Defined.
